(** * Segmented HTTP download: URL decomposition, capability probe and
      chunk download of the HTTP source

    A shallow embedding of
    - [common/httpUrlParts.go]   (package [common]: [HTTPURLParts]),
    - [cmd/zc_traverser_http.go] (package [cmd]: [httpTraverser]),
    - [ste/downloader-http.go]   (package [ste]: [httpDownloader]),
    together with the parts of the Go standard library these files call.

    Conventions.
    - A Go [string] is a [string]; [int], [int64] are [Z] (64-bit, the
      wrap-around written as [wrap64] where the code does arithmetic).
    - A Go [error] is its message; a [(T, error)] result is a [result T].
    - [http.Header] is a finite map from canonical keys to value lists.
    - Calls that leave the process ([httpClient.Do], the transfer manager,
      the chunked file writer) are an explicit environment and an event
      trace. *)

From Stdlib Require Import ZArith Lia Bool Ascii.
From stdpp Require Import base strings list gmap pretty.

Open Scope string_scope.
Open Scope list_scope.
Open Scope Z_scope.

(** ** Results and errors *)

Definition error := string.

Inductive result (A : Type) : Type :=
| Ok (a : A)
| Err (e : error).
Arguments Ok {A} a.
Arguments Err {A} e.

Definition is_Ok {A} (r : result A) : bool :=
  match r with Ok _ => true | Err _ => false end.

Definition is_Err {A} (r : result A) : bool := negb (is_Ok r).

(** ** 64-bit integers *)

Definition min_int64 : Z := - 2 ^ 63.
Definition max_int64 : Z := 2 ^ 63 - 1.

(** Two's complement wrap-around of [int64] arithmetic. *)
Definition wrap64 (z : Z) : Z := (z + 2 ^ 63) mod 2 ^ 64 - 2 ^ 63.

Definition in_int64 (z : Z) : Prop := min_int64 <= z <= max_int64.

(** [%d] of [fmt.Sprintf]. *)
Definition itoa (z : Z) : string := pretty z.

(** ** Package [strings] *)

Module strings.

(** [len(s) >= len(suffix) && s[len(s)-len(suffix):] == suffix] *)
Definition HasSuffix (s suffix : string) : bool :=
  (String.length suffix <=? String.length s)%nat &&
  String.eqb
    (String.substring (String.length s - String.length suffix)
                      (String.length suffix) s)
    suffix.

Definition HasPrefix (s prefix : string) : bool := String.prefix prefix s.

(** [if HasSuffix(s, suffix) { return s[:len(s)-len(suffix)] }; return s] *)
Definition TrimSuffix (s suffix : string) : string :=
  if HasSuffix s suffix
  then String.substring 0 (String.length s - String.length suffix) s
  else s.

(** [strings.Split(s, sep)] for a one-byte separator: the substrings
    between the separators, in order; one more than there are
    separators, so [Split("", "/")] is [[""]]. *)
Fixpoint Split (s : string) (sep : ascii) : list string :=
  match s with
  | EmptyString => [EmptyString]
  | String c s' =>
      if Ascii.eqb c sep then EmptyString :: Split s' sep
      else match Split s' sep with
           | [] => [String c EmptyString]
           | seg :: rest => String c seg :: rest
           end
  end.

Definition lower (c : ascii) : ascii :=
  if (("A" <=? c) && (c <=? "Z"))%char
  then ascii_of_nat (nat_of_ascii c + 32) else c.

Definition upper (c : ascii) : ascii :=
  if (("a" <=? c) && (c <=? "z"))%char
  then ascii_of_nat (nat_of_ascii c - 32) else c.

Fixpoint ToLower (s : string) : string :=
  match s with
  | EmptyString => EmptyString
  | String c s' => String (lower c) (ToLower s')
  end.

(** [strings.Cut(s, sep)] for a one-byte separator: the text before and
    after the first separator, and whether there is one. *)
Fixpoint Cut (s : string) (sep : ascii) : string * string * bool :=
  match s with
  | EmptyString => (EmptyString, EmptyString, false)
  | String c s' =>
      if Ascii.eqb c sep then (EmptyString, s', true)
      else let '(before, after, found) := Cut s' sep in
           (String c before, after, found)
  end.

Fixpoint ContainsByte (s : string) (c : ascii) : bool :=
  match s with
  | EmptyString => false
  | String d s' => Ascii.eqb d c || ContainsByte s' c
  end.

(** The last index of [c] in [s], counted from the start of [s]. *)
Fixpoint LastIndexByte (s : string) (c : ascii) : option nat :=
  match s with
  | EmptyString => None
  | String d s' =>
      match LastIndexByte s' c with
      | Some i => Some (S i)
      | None => if Ascii.eqb d c then Some 0%nat else None
      end
  end.

(** [if HasPrefix(s, prefix) { return s[len(prefix):] }; return s] *)
Definition TrimPrefix (s prefix : string) : string :=
  if HasPrefix s prefix
  then String.substring (String.length prefix)
                        (String.length s - String.length prefix) s
  else s.

End strings.

(** ** Package [strconv] *)

Module strconv.

Definition digit (c : ascii) : option Z :=
  if (("0" <=? c) && (c <=? "9"))%char
  then Some (Z.of_nat (nat_of_ascii c) - 48) else None.

(** The base-10 value of a string of digits read after [acc]; [None] when
    some byte is not a digit. *)
Fixpoint digits (s : string) (acc : Z) : option Z :=
  match s with
  | EmptyString => Some acc
  | String c s' =>
      match digit c with
      | Some d => digits s' (10 * acc + d)
      | None => None
      end
  end.

(** [strconv.ParseInt(s, 10, 64)]: an optional sign, [+] or [-], then
    decimal digits and nothing else (a syntax error otherwise, also when
    there is no digit); a range error outside [-2^63 .. 2^63-1]. *)
Definition ParseInt (s : string) : result Z :=
  match s with
  | EmptyString => Err "invalid syntax"
  | String c s' =>
      let '(neg, body) :=
        if Ascii.eqb c "+" then (false, s')
        else if Ascii.eqb c "-" then (true, s')
        else (false, s) in
      match body with
      | EmptyString => Err "invalid syntax"
      | _ =>
          match digits body 0 with
          | None => Err "invalid syntax"
          | Some un =>
              if negb neg && (2 ^ 63 <=? un) then Err "value out of range"
              else if neg && (2 ^ 63 <? un) then Err "value out of range"
              else Ok (if neg then - un else un)
          end
      end
  end.

(** The number [strconv.ParseInt(s, 10, 64)] returns, which callers that
    drop the error use: 0 beside a syntax error, the nearest bound beside
    a range error. *)
Definition ParseInt_value (s : string) : Z :=
  match s with
  | EmptyString => 0
  | String c s' =>
      let '(neg, body) :=
        if Ascii.eqb c "+" then (false, s')
        else if Ascii.eqb c "-" then (true, s')
        else (false, s) in
      match body with
      | EmptyString => 0
      | _ =>
          match digits body 0 with
          | None => 0
          | Some un =>
              if negb neg && (2 ^ 63 <=? un) then 2 ^ 63 - 1
              else if neg && (2 ^ 63 <? un) then - 2 ^ 63
              else if neg then - un else un
          end
      end
  end.

End strconv.

(** ** Package [net/url] *)

Module url.

(** The fields of [url.URL] read by the code (and by [Hostname] and
    [Port]); [Host] is [host] or [host:port]. *)
Record URL : Type := {
  Scheme : string;
  Opaque : string;
  Host : string;
  Path : string;
  RawQuery : string;
  Fragment : string
}.

Definition is_digit (c : ascii) : bool := (("0" <=? c) && (c <=? "9"))%char.

Fixpoint all_digits (s : string) : bool :=
  match s with
  | EmptyString => true
  | String c s' => is_digit c && all_digits s'
  end.

(** [validOptionalPort]: the empty string, or a colon and digits. *)
Definition validOptionalPort (port : string) : bool :=
  match port with
  | EmptyString => true
  | String c rest => Ascii.eqb c ":" && all_digits rest
  end.

Definition strip_brackets (host : string) : string :=
  if strings.HasPrefix host "[" && strings.HasSuffix host "]"
  then String.substring 1 (String.length host - 2) host
  else host.

(** [splitHostPort]: a trailing [:port] is split off when it is a valid
    port; the square brackets of an IPv6 literal are removed. *)
Definition splitHostPort (hostPort : string) : string * string :=
  let '(host, port) :=
    match strings.LastIndexByte hostPort ":" with
    | Some colon =>
        if validOptionalPort
             (String.substring colon (String.length hostPort - colon) hostPort)
        then (String.substring 0 colon hostPort,
              String.substring (S colon) (String.length hostPort - S colon)
                               hostPort)
        else (hostPort, EmptyString)
    | None => (hostPort, EmptyString)
    end in
  (strip_brackets host, port).

Definition Hostname (u : URL) : string := fst (splitHostPort (Host u)).
Definition Port (u : URL) : string := snd (splitHostPort (Host u)).

End url.

(** ** The standard-library functions the code is parametric in:
       [url.Parse], [base64.StdEncoding.DecodeString] and
       [http.ParseTime]. *)

(** [time.Time], in seconds since the zero time. *)
Definition Time := Z.
Definition zero_time : Time := 0.

Class GoStdlib : Type := {
  url_Parse : string -> result url.URL;
  base64_DecodeString : string -> result (list Byte.byte);
  http_ParseTime : string -> result Time
}.

(** ** Package [common]: [HTTPURLParts] *)

Module common.

(** [HTTPURLParts] represents a parsed HTTP URL. *)
Record HTTPURLParts : Type := {
  Scheme : string;
  Host : string;
  Port : string;
  Path : string;
  Query : string;
  Fragment : string;
  URL : string
}.

Section Decompose.

Context `{GoStdlib}.

(** [NewHTTPURLParts] parses an HTTP URL. *)
Definition NewHTTPURLParts (rawURL : string) : result HTTPURLParts :=
  if String.eqb rawURL "" then Err "URL cannot be empty"
  else
    match url_Parse rawURL with
    | Err err => Err ("invalid HTTP URL: " +:+ err)
    | Ok parsed =>
        if negb (String.eqb (url.Scheme parsed) "http") &&
           negb (String.eqb (url.Scheme parsed) "https")
        then Err ("expected http or https, got: " +:+ url.Scheme parsed)
        else Ok {| Scheme := url.Scheme parsed;
                   Host := url.Hostname parsed;
                   Port := url.Port parsed;
                   Path := url.Path parsed;
                   Query := url.RawQuery parsed;
                   Fragment := url.Fragment parsed;
                   URL := rawURL |}
    end.

End Decompose.

(** [String] reconstructs the URL. *)
Definition String (h : HTTPURLParts) : string := URL h.

(** [IsSecure] returns true if HTTPS. *)
Definition IsSecure (h : HTTPURLParts) : bool := String.eqb (Scheme h) "https".

End common.

(** ** Package [net/http] *)

Module http.

Definition StatusOK : Z := 200.
Definition StatusPartialContent : Z := 206.

Definition is_alpha (c : ascii) : bool :=
  ((("a" <=? c) && (c <=? "z")) || (("A" <=? c) && (c <=? "Z")))%char.

(** The token bytes of RFC 7230. *)
Definition validHeaderFieldByte (c : ascii) : bool :=
  is_alpha c || url.is_digit c || strings.ContainsByte "!#$%&'*+-.^_`|~" c.

Fixpoint all_valid (s : string) : bool :=
  match s with
  | EmptyString => true
  | String c s' => validHeaderFieldByte c && all_valid s'
  end.

(** Upper case at the start and after each hyphen, lower case elsewhere. *)
Fixpoint canonical (up : bool) (s : string) : string :=
  match s with
  | EmptyString => EmptyString
  | String c s' =>
      let c' := if up then strings.upper c else strings.lower c in
      String c' (canonical (Ascii.eqb c' "-") s')
  end.

(** [textproto.CanonicalMIMEHeaderKey]: a key with a byte that is not a
    token byte is returned unchanged. *)
Definition CanonicalMIMEHeaderKey (s : string) : string :=
  if all_valid s then canonical true s else s.

(** [http.Header] is [map[string][]string]. *)
Abbreviation Header := (gmap string (list string)).

(** [Header.Get]: the first value of the canonical key, or [""]. *)
Definition Get (h : Header) (key : string) : string :=
  match h !! CanonicalMIMEHeaderKey key with
  | Some (v :: _) => v
  | _ => EmptyString
  end.

(** [Header.Set]: the canonical key is bound to the single value. *)
Definition Set_ (h : Header) (key value : string) : Header :=
  <[CanonicalMIMEHeaderKey key := [value]]> h.

Record Request : Type := {
  Method : string;
  URL : string;
  ReqHeader : Header
}.

Definition set_header (req : Request) (key value : string) : Request :=
  {| Method := Method req; URL := URL req;
     ReqHeader := Set_ (ReqHeader req) key value |}.

(** The fields of [http.Response] read by the code; [ContentLength] is
    the length the HTTP stack derived, [-1] when unknown. *)
Record Response : Type := {
  StatusCode : Z;
  Status : string;
  RespHeader : Header;
  ContentLength : Z
}.

(** What [httpClient.Do] returns: a transport error, or a response. *)
Inductive DoResult : Type :=
| DoErr (err : error)
| DoResp (resp : Response).

(** [http.NewRequestWithContext] for a valid method and a context that
    is not nil: it fails exactly when [url.Parse] fails. *)
Definition NewRequestWithContext `{GoStdlib} (method rawurl : string)
  : result Request :=
  match url_Parse rawurl with
  | Err err => Err err
  | Ok _ => Ok {| Method := method; URL := rawurl; ReqHeader := ∅ |}
  end.

End http.

(** ** Package [cmd]: the HTTP traverser *)

Module cmd.

Import http.

(** [httpTraverser] enumerates a single HTTP file.  [ctx], [httpClient]
    and [incrementEnumerationCounter] belong to the environment. *)
Record httpTraverser : Type := {
  rawURL : string;
  bearerToken : string;
  customHeaders : gmap string string;
  (* Capabilities detected via HEAD request *)
  supportsRange : bool;
  contentLength : Z;
  contentMD5 : list Byte.byte;
  etag : string;
  lastModified : Time;
  contentType : string
}.

Inductive EntityType : Type := File | Folder.

Record StoredObject : Type := {
  name : string;
  entityType : EntityType;
  lastModifiedTime : Time;
  size : Z;
  md5 : list Byte.byte;
  objContentType : string;
  relativePath : string
}.

Record ObjectFilter : Type := {
  DoesSupportThisOS : bool;
  DoesPass : StoredObject -> bool
}.

Section Traverser.

Context `{GoStdlib}.

(** [detectCapabilities] performs HEAD request to detect server
    capabilities; [client] is [t.httpClient.Do]. *)
Definition detectCapabilities (client : Request -> DoResult)
    (t : httpTraverser) : result httpTraverser :=
  match NewRequestWithContext "HEAD" (rawURL t) with
  | Err err => Err ("failed to create HEAD request: " +:+ err)
  | Ok req =>
      (* Add authentication *)
      let req :=
        if String.eqb (bearerToken t) "" then req
        else set_header req "Authorization" ("Bearer " +:+ bearerToken t) in
      (* Add custom headers *)
      let req :=
        map_fold (fun k v r => set_header r k v) req (customHeaders t) in
      match client req with
      | DoErr err => Err ("HEAD request failed: " +:+ err)
      | DoResp resp =>
          if negb (StatusCode resp =? StatusOK)
          then Err ("HEAD request returned status " +:+
                    itoa (StatusCode resp) +:+ ": " +:+ Status resp)
          else
            (* Detect range support *)
            let acceptRanges := Get (RespHeader resp) "Accept-Ranges" in
            (* Parse Content-Length *)
            let contentLength_ := Get (RespHeader resp) "Content-Length" in
            (* Parse Content-MD5 (optional) *)
            let contentMD5_ := Get (RespHeader resp) "Content-MD5" in
            (* Parse Last-Modified *)
            let lastMod := Get (RespHeader resp) "Last-Modified" in
            Ok {| rawURL := rawURL t;
                  bearerToken := bearerToken t;
                  customHeaders := customHeaders t;
                  supportsRange := String.eqb acceptRanges "bytes";
                  contentLength :=
                    if String.eqb contentLength_ "" then contentLength t
                    else match strconv.ParseInt contentLength_ with
                         | Ok length => length
                         | Err _ => contentLength t
                         end;
                  contentMD5 :=
                    if String.eqb contentMD5_ "" then contentMD5 t
                    else match base64_DecodeString contentMD5_ with
                         | Ok decoded => decoded
                         | Err _ => contentMD5 t
                         end;
                  etag := Get (RespHeader resp) "ETag";
                  lastModified :=
                    if String.eqb lastMod "" then lastModified t
                    else match http_ParseTime lastMod with
                         | Ok parsedTime => parsedTime
                         | Err _ => lastModified t
                         end;
                  contentType := Get (RespHeader resp) "Content-Type" |}
      end
  end.

(** [newHTTPTraverser]; [accessToken] is
    [opts.Credential.OAuthTokenInfo.AccessToken], [""] when there is no
    credential. *)
Definition newHTTPTraverser (client : Request -> DoResult)
    (rawURL_ : string) (accessToken : string) : result httpTraverser :=
  (* Parse URL *)
  match common.NewHTTPURLParts rawURL_ with
  | Err err => Err ("invalid HTTP URL: " +:+ err)
  | Ok _ =>
      let t := {| rawURL := rawURL_;
                  bearerToken := accessToken;
                  customHeaders := ∅;
                  supportsRange := false;
                  contentLength := 0;
                  contentMD5 := [];
                  etag := "";
                  lastModified := zero_time;
                  contentType := "" |} in
      (* Perform HEAD request to detect capabilities *)
      match detectCapabilities client t with
      | Err err => Err ("failed to detect HTTP capabilities: " +:+ err)
      | Ok t' => Ok t'
      end
  end.

(** The loop [for i := len(parts) - 1; i >= 0; i--] of [getFileName],
    entered with [n = len(parts)]: the element at the greatest index
    below [n] that is not empty. *)
Fixpoint scan_down (parts : list string) (n : nat) : option string :=
  match n with
  | O => None
  | S i =>
      match parts !! i with
      | Some p => if negb (String.eqb p "") then Some p
                  else scan_down parts i
      | None => None
      end
  end.

(** [getFileName] extracts filename from URL. *)
Definition getFileName (t : httpTraverser) : string :=
  match common.NewHTTPURLParts (rawURL t) with
  | Err _ => "downloaded_file"
  | Ok urlParts =>
      (* Extract last segment of path *)
      let path := strings.TrimSuffix (common.Path urlParts) "/" in
      let parts := strings.Split path "/" in
      (* Find the last non-empty segment *)
      match scan_down parts (length parts) with
      | Some p => p
      | None => "downloaded_file"
      end
  end.

(** What [Traverse] does besides returning. *)
Inductive TraverseEvent : Type :=
| Info (msg : string)
| Processed (object : StoredObject)
| EnumerationCounted (e : EntityType).

(** The filter loop of [Traverse]: the first supported filter that the
    object does not pass, if any. *)
Fixpoint filtered_out (filters : list ObjectFilter) (object : StoredObject)
  : bool :=
  match filters with
  | [] => false
  | f :: rest =>
      if negb (DoesSupportThisOS f) then filtered_out rest object
      else if negb (DoesPass f object) then true
      else filtered_out rest object
  end.

(** [Traverse] enumerates the single HTTP file. *)
Definition Traverse (t : httpTraverser)
    (preprocessor : option (StoredObject -> StoredObject))
    (processor : StoredObject -> option error)
    (filters : list ObjectFilter) : result unit * list TraverseEvent :=
  let object := {| name := getFileName t;
                   entityType := File;
                   lastModifiedTime := lastModified t;
                   size := contentLength t;
                   md5 := contentMD5 t;
                   objContentType := contentType t;
                   relativePath := "" |} in
  let object := match preprocessor with
                | Some f => f object
                | None => object
                end in
  if filtered_out filters object
  then (Ok tt, [Info ("Skipping " +:+ name object +:+ " due to filter")])
  else match processor object with
       | Some err =>
           (Err ("failed to process HTTP file: " +:+ err),
            [Processed object])
       | None => (Ok tt, [Processed object; EnumerationCounted File])
       end.

End Traverser.

(** [IsDirectory] always returns false (HTTP endpoints are files). *)
Definition IsDirectory (t : httpTraverser) (isSource : bool)
  : bool * option error := (false, None).

(** [GetSupportsRange], [GetContentLength], [GetETag]. *)
Definition GetSupportsRange (t : httpTraverser) : bool := supportsRange t.
Definition GetContentLength (t : httpTraverser) : Z := contentLength t.
Definition GetETag (t : httpTraverser) : string := etag t.

End cmd.

(** ** Package [ste]: the HTTP downloader *)

Module ste.

Import http.

Record httpDownloader : Type := {
  sourceURL : string;
  bearerToken : string;
  supportsRange : bool;
  contentLength : Z;
  expectedMD5 : list Byte.byte;
  etag : string
}.

(** The fields of [TransferInfo] read by the downloader. *)
Record TransferInfo : Type := {
  Source : string;
  SourceSize : Z
}.

(** Modelled from the spec: [common.TransferStatus], whose declaration is
    not among the files at hand; the specification lists the statuses
    Scheduled, InProgress, Completed, Failed and Cancelled.  The downloader
    sets only [Failed] ([common.ETransferStatus.Failed()]). *)
Inductive TransferStatus : Type :=
| Scheduled | InProgress | Completed | Failed | Cancelled.

Inductive WaitReason : Type := HeaderResponse | Body.

(** [common.ChunkID]: the file name and [OffsetInFile()]. *)
Record ChunkID : Type := {
  Name : string;
  OffsetInFile : Z
}.

(** The calls the downloader makes on its collaborators, in the order
    they are made: the transfer manager [jptm], the HTTP client, the clock
    and the chunked file writer. *)
Inductive Event : Type :=
| LogError (source where_ : string) (err : error)
| SetStatus (status : TransferStatus)
| ReportTransferDone
| LogChunkStatus (id : ChunkID) (reason : WaitReason)
| HttpDo (req : Request)
| LogWarning (msg : string)
| CloseBody
| Sleep (nanoseconds : Z)
| FailActiveDownload (where_ : string) (err : error)
| EnqueueChunk (id : ChunkID) (length : Z) (retryable : bool)
| NilDereference.

Definition is_HttpDo (e : Event) : bool :=
  match e with HttpDo _ => true | _ => false end.
Definition is_EnqueueChunk (e : Event) : bool :=
  match e with EnqueueChunk _ _ _ => true | _ => false end.
Definition is_SetStatusFailed (e : Event) : bool :=
  match e with SetStatus Failed => true | _ => false end.
Definition is_ReportTransferDone (e : Event) : bool :=
  match e with ReportTransferDone => true | _ => false end.

Definition count (p : Event -> bool) (tr : list Event) : nat :=
  length (List.filter p tr).

(** The number of HTTP attempts in a trace. *)
Definition attempts (tr : list Event) : nat := count is_HttpDo tr.

(** The failures a trace reports through [jptm.FailActiveDownload]. *)
Fixpoint failures (tr : list Event) : list (string * error) :=
  match tr with
  | [] => []
  | FailActiveDownload w e :: rest => (w, e) :: failures rest
  | _ :: rest => failures rest
  end.

(** The transfer is marked [Failed] and reported done. *)
Definition marked_failed_and_done (tr : list Event) : bool :=
  existsb is_SetStatusFailed tr && existsb is_ReportTransferDone tr.

Definition second : Z := 1000000000.

Definition status_ok (resp : Response) : bool :=
  (StatusCode resp =? StatusOK) || (StatusCode resp =? StatusPartialContent).

(** The loop of [bytesEqual], [for i := range a], from index [i] with
    [n] indices to go; [None] is an index out of range. *)
Fixpoint bytesEqual_from (a b : list Byte.byte) (n i : nat) : option bool :=
  match n with
  | O => Some true
  | S n' =>
      match a !! i, b !! i with
      | Some x, Some y =>
          if negb (Byte.eqb x y) then Some false
          else bytesEqual_from a b n' (S i)
      | _, _ => None
      end
  end.

Definition bytesEqual (a b : list Byte.byte) : option bool :=
  if negb (length a =? length b)%nat then Some false
  else bytesEqual_from a b (length a) 0.

Section Downloader.

Context `{GoStdlib}.

Definition newHTTPDownloader (info : TransferInfo) : httpDownloader :=
  {| sourceURL := Source info;
     bearerToken := "";
     supportsRange := false;
     contentLength := 0;
     expectedMD5 := [];
     etag := "" |}.

(** [detectCapabilities] performs HEAD request to detect server
    capabilities; [client] is [hd.httpClient.Do]. *)
Definition detectCapabilities (client : Request -> DoResult)
    (hd : httpDownloader) : result httpDownloader :=
  match NewRequestWithContext "HEAD" (sourceURL hd) with
  | Err err => Err ("failed to create HEAD request: " +:+ err)
  | Ok req =>
      (* Add authentication *)
      let req :=
        if String.eqb (bearerToken hd) "" then req
        else set_header req "Authorization" ("Bearer " +:+ bearerToken hd) in
      match client req with
      | DoErr err => Err ("HEAD request failed: " +:+ err)
      | DoResp resp =>
          if negb (StatusCode resp =? StatusOK)
          then Err ("HEAD request returned status " +:+
                    itoa (StatusCode resp) +:+ ": " +:+ Status resp)
          else
            let acceptRanges := Get (RespHeader resp) "Accept-Ranges" in
            let contentMD5 := Get (RespHeader resp) "Content-MD5" in
            Ok {| sourceURL := sourceURL hd;
                  bearerToken := bearerToken hd;
                  (* Detect range support *)
                  supportsRange := String.eqb acceptRanges "bytes";
                  (* Get content length *)
                  contentLength :=
                    if 0 <? ContentLength resp then ContentLength resp
                    else contentLength hd;
                  (* Parse Content-MD5 if available *)
                  expectedMD5 :=
                    if String.eqb contentMD5 "" then expectedMD5 hd
                    else match base64_DecodeString contentMD5 with
                         | Ok decoded => decoded
                         | Err _ => expectedMD5 hd
                         end;
                  (* Get ETag for consistency checks *)
                  etag := Get (RespHeader resp) "ETag" |}
      end
  end.

(** [Prologue]: the downloader after the call and the calls made on
    [jptm]; [info] is [jptm.Info()]. *)
Definition Prologue (client : Request -> DoResult) (info : TransferInfo)
    (hd : httpDownloader) : httpDownloader * list Event :=
  (* Perform HEAD request to detect server capabilities *)
  match detectCapabilities client hd with
  | Err err =>
      (hd, [LogError (sourceURL hd) "HEAD request" err;
            SetStatus Failed;
            ReportTransferDone])
  | Ok hd' =>
      (* Validate content length matches what was enumerated *)
      if (0 <? contentLength hd') &&
         negb (SourceSize info =? contentLength hd')
      then
        (hd', [LogError (sourceURL hd') "Content length validation"
                 ("content length mismatch: enumerated=" +:+
                  itoa (SourceSize info) +:+ ", actual=" +:+
                  itoa (contentLength hd'));
               SetStatus Failed;
               ReportTransferDone])
      else (hd', [])
  end.

(** [GetExpectedMD5], [GetSupportsRange]. *)
Definition GetExpectedMD5 (hd : httpDownloader) : list Byte.byte :=
  expectedMD5 hd.
Definition GetSupportsRange (hd : httpDownloader) : bool :=
  supportsRange hd.

(** *** The chunk function of [GenerateDownloadFunc] *)

Section ChunkFunc.

(** [net n req] is what the [n]-th call of [hd.httpClient.Do] of this
    chunk returns; [enqueue] is what [destWriter.EnqueueChunk]
    returns; [maxRetries] is [destWriter.MaxRetryPerDownloadBody()]. *)
Variable net : nat -> Request -> DoResult.
Variable enqueue : option error.
Variable hd : httpDownloader.
Variable id : ChunkID.
Variable length_ : Z.
Variable maxRetries : Z.

Definition rangeHeader : string :=
  "bytes=" +:+ itoa (OffsetInFile id) +:+ "-" +:+
  itoa (wrap64 (wrap64 (OffsetInFile id + length_) - 1)).

(** The authentication and consistency headers, set alike on the
    first request and on each request recreated for a retry. *)
Definition add_auth_and_if_match (req : Request) : Request :=
  let req :=
    if String.eqb (bearerToken hd) "" then req
    else set_header req "Authorization" ("Bearer " +:+ bearerToken hd) in
  if String.eqb (etag hd) "" then req
  else set_header req "If-Match" (etag hd).

(** The variables of the retry loop. *)
Record LoopState : Type := {
  retries : Z;
  req : Request;
  resp : option Response;
  err : option error
}.

Inductive Step : Type :=
| Continue (st : LoopState)   (* back to the loop condition *)
| Break (st : LoopState)      (* [break] *)
| Return.                     (* [return] after a failure was reported *)

(** One execution of the loop body, [calls] calls of [Do] having been
    made before it. *)
Definition loop_body (st : LoopState) (calls : nat) : Step * list Event :=
  match net calls (req st) with
  | DoResp r =>
      if status_ok r
      then (Break {| retries := retries st; req := req st;
                     resp := Some r; err := None |},
            [HttpDo (req st)])
      else
        (* Log retry *)
        let ev :=
          [HttpDo (req st);
           LogWarning ("HTTP request failed with status " +:+
                       itoa (StatusCode r) +:+ " (attempt " +:+
                       itoa (wrap64 (retries st + 1)) +:+ "/" +:+
                       itoa (wrap64 (maxRetries + 1)) +:+ ")");
           CloseBody] in
        let retries' := wrap64 (retries st + 1) in
        if retries' <=? maxRetries then
          let backoff := wrap64 (retries' * second) in
          let backoff :=
            if 30 * second <? backoff then 30 * second else backoff in
          (* Recreate request for retry *)
          match NewRequestWithContext "GET" (sourceURL hd) with
          | Err e =>
              (Return,
               ev ++ [Sleep backoff;
                      FailActiveDownload
                        "Creating HTTP request for retry" e])
          | Ok req' =>
              let req' :=
                if supportsRange hd
                then set_header req' "Range" rangeHeader else req' in
              (Continue {| retries := retries';
                           req := add_auth_and_if_match req';
                           resp := Some r; err := None |},
               ev ++ [Sleep backoff])
          end
        else
          (Continue {| retries := retries'; req := req st;
                       resp := Some r; err := None |}, ev)
  | DoErr e =>
      (* Log retry *)
      let ev :=
        [HttpDo (req st);
         LogWarning ("HTTP request failed (attempt " +:+
                     itoa (wrap64 (retries st + 1)) +:+ "/" +:+
                     itoa (wrap64 (maxRetries + 1)) +:+ "): " +:+ e)] in
      let retries' := wrap64 (retries st + 1) in
      if retries' <=? maxRetries then
        let backoff := wrap64 (retries' * second) in
        let backoff :=
          if 30 * second <? backoff then 30 * second else backoff in
        (* Recreate request for retry *)
        match NewRequestWithContext "GET" (sourceURL hd) with
        | Err e' =>
            (Return,
             ev ++ [Sleep backoff;
                    FailActiveDownload
                      "Creating HTTP request for retry" e'])
        | Ok req' =>
            let req' :=
              if supportsRange hd
              then set_header req' "Range" rangeHeader else req' in
            (Continue {| retries := retries';
                         req := add_auth_and_if_match req';
                         resp := None; err := None |},
             ev ++ [Sleep backoff])
        end
      else
        (Continue {| retries := retries'; req := req st;
                     resp := None; err := Some e |}, ev)
  end.

(** How the loop is left: past its end, or by a [return]. *)
Inductive LoopExit : Type :=
| Exited (st : LoopState)
| Returned.

(** [for retries <= maxRetries { ... }]: each unit of [fuel] pays for
    one evaluation of the loop condition; [None] when the fuel runs
    out before the loop is left. *)
Fixpoint retry_loop (fuel : nat) (st : LoopState) (calls : nat)
  : option (LoopExit * list Event) :=
  match fuel with
  | O => None
  | S fuel' =>
      if retries st <=? maxRetries then
        match loop_body st calls with
        | (Break st', ev) => Some (Exited st', ev)
        | (Return, ev) => Some (Returned, ev)
        | (Continue st', ev) =>
            match retry_loop fuel' st' (S calls) with
            | Some (out, ev') => Some (out, ev ++ ev')
            | None => None
            end
        end
      else Some (Exited st, [])
  end.

(** The code after the loop. *)
Definition after_loop (st : LoopState) : list Event :=
  match err st with
  | Some e => [FailActiveDownload "Downloading response body" e]
  | None =>
      match resp st with
      | None => [NilDereference]
      | Some r =>
          if negb (StatusCode r =? StatusOK) &&
             negb (StatusCode r =? StatusPartialContent)
          then [CloseBody;
                FailActiveDownload "Downloading response body"
                  ("unexpected status code: " +:+ itoa (StatusCode r))]
          else
            (* Enqueue the response body to be written to disk *)
            [LogChunkStatus id Body; EnqueueChunk id length_ true] ++
            match enqueue with
            | Some e => [FailActiveDownload "Enqueuing chunk" e;
                         CloseBody]
            | None => [CloseBody]
            end
      end
  end.

(** The chunk function from the retry loop on, [req0] being the
    request built so far. *)
Definition execute (req0 : Request) (fuel : nat) : option (list Event) :=
  let req0 := add_auth_and_if_match req0 in
  (* Execute request with retries *)
  match retry_loop fuel
          {| retries := 0; req := req0; resp := None; err := None |}
          0%nat with
  | None => None
  | Some (Returned, ev) => Some ev
  | Some (Exited st, ev) => Some (ev ++ after_loop st)
  end.

(** The function passed to [createDownloadChunkFunc]: the calls it
    makes, or [None] when the fuel does not suffice. *)
Definition downloadChunk (fuel : nat) : option (list Event) :=
  (* Download chunk from HTTP server *)
  let ev0 := [LogChunkStatus id HeaderResponse] in
  (* Create range request *)
  match NewRequestWithContext "GET" (sourceURL hd) with
  | Err e => Some (ev0 ++ [FailActiveDownload "Creating HTTP request" e])
  | Ok req0 =>
      (* Add range header if server supports it *)
      if supportsRange hd then
        option_map (app ev0)
          (execute (set_header req0 "Range" rangeHeader) fuel)
      else if 0 <? OffsetInFile id then
        (* Server doesn't support range requests but we're trying to
           download a chunk *)
        Some (ev0 ++
              [FailActiveDownload "Range request validation"
                 ("server does not support range requests, " +:+
                  "cannot download chunk at offset " +:+
                  itoa (OffsetInFile id))])
      else option_map (app ev0) (execute req0 fuel)
  end.

End ChunkFunc.

End Downloader.

End ste.

(** ** A model of [url.Parse]

    The theorems below hold for every [GoStdlib].  To run the code on the
    URLs of the repository's tests, this module follows [net/url]'s [Parse]:
    fragment, scheme, query, authority, host and port syntax, and the
    percent-decoding of path and fragment.  The user information before an
    [@] is dropped without validation and IPv6 zones are not treated. *)

Module url_model.

Import url.

Definition is_ctl (c : ascii) : bool :=
  ((nat_of_ascii c <? 32) || (nat_of_ascii c =? 127))%nat.

Fixpoint stringContainsCTLByte (s : string) : bool :=
  match s with
  | EmptyString => false
  | String c s' => is_ctl c || stringContainsCTLByte s'
  end.

(** The loop of [getScheme]: [Ok (Some (scheme, rest))] at the colon that
    ends a scheme, [Ok None] when there is no scheme. *)
Fixpoint scan_scheme (s : string) (first : bool)
  : result (option (string * string)) :=
  match s with
  | EmptyString => Ok None
  | String c s' =>
      let continue :=
        match scan_scheme s' false with
        | Ok (Some (scheme, rest)) => Ok (Some (String c scheme, rest))
        | r => r
        end in
      if http.is_alpha c then continue
      else if is_digit c || strings.ContainsByte "+-." c
      then (if first then Ok None else continue)
      else if Ascii.eqb c ":"
      then (if first then Err "missing protocol scheme"
            else Ok (Some (EmptyString, s')))
      else Ok None
  end.

Definition getScheme (rawURL : string) : result (string * string) :=
  match scan_scheme rawURL true with
  | Err e => Err e
  | Ok None => Ok (EmptyString, rawURL)
  | Ok (Some p) => Ok p
  end.

Definition unhex (c : ascii) : option nat :=
  let n := nat_of_ascii c in
  if is_digit c then Some (n - 48)%nat
  else if (("a" <=? c) && (c <=? "f"))%char then Some (n - 97 + 10)%nat
  else if (("A" <=? c) && (c <=? "F"))%char then Some (n - 65 + 10)%nat
  else None.

Inductive encoding : Type := encodePath | encodeHost | encodeFragment.

Definition is_host (mode : encoding) : bool :=
  match mode with encodeHost => true | _ => false end.

(** The ASCII bytes a host may hold unescaped. *)
Definition host_byte (c : ascii) : bool :=
  http.is_alpha c || is_digit c ||
  strings.ContainsByte "-_.~!$&'()*+,;=:[]<>" c ||
  (nat_of_ascii c =? 34)%nat.

(** [unescape]: [%XX] is decoded; in a host, other escapes than of bytes
    from [0x80] (and [%25]) and bytes that need escaping are errors. *)
Fixpoint unescape (mode : encoding) (s : string) : result string :=
  match s with
  | EmptyString => Ok EmptyString
  | String c rest =>
      if Ascii.eqb c "%" then
        match rest with
        | String a (String b rest') =>
            match unhex a, unhex b with
            | Some x, Some y =>
                if is_host mode && (x <? 8)%nat &&
                   negb (Ascii.eqb a "2" && Ascii.eqb b "5")
                then Err "invalid URL escape"
                else match unescape mode rest' with
                     | Ok r => Ok (String (ascii_of_nat (16 * x + y)) r)
                     | Err e => Err e
                     end
            | _, _ => Err "invalid URL escape"
            end
        | _ => Err "invalid URL escape"
        end
      else if is_host mode && (nat_of_ascii c <? 128)%nat &&
              negb (host_byte c)
      then Err "invalid character in host name"
      else match unescape mode rest with
           | Ok r => Ok (String c r)
           | Err e => Err e
           end
  end.

Definition from (i : nat) (s : string) : string :=
  String.substring i (String.length s - i) s.

Definition parseHost (host : string) : result string :=
  if strings.HasPrefix host "[" then
    match strings.LastIndexByte host "]" with
    | None => Err "missing ']' in host"
    | Some i =>
        if negb (validOptionalPort (from (S i) host))
        then Err "invalid port after host"
        else unescape encodeHost host
    end
  else
    match strings.LastIndexByte host ":" with
    | Some i =>
        if negb (validOptionalPort (from i host))
        then Err "invalid port after host"
        else unescape encodeHost host
    | None => unescape encodeHost host
    end.

Definition parseAuthority (authority : string) : result string :=
  match strings.LastIndexByte authority "@" with
  | None => parseHost authority
  | Some i => parseHost (from (S i) authority)
  end.

(** [parse(rawURL, viaRequest = false)]. *)
Definition parse (rawURL : string) : result URL :=
  if stringContainsCTLByte rawURL
  then Err "net/url: invalid control character in URL"
  else if String.eqb rawURL "*"
  then Ok {| Scheme := ""; Opaque := ""; Host := ""; Path := "*";
             RawQuery := ""; Fragment := "" |}
  else
    match getScheme rawURL with
    | Err e => Err e
    | Ok (scheme, rest) =>
        let scheme := strings.ToLower scheme in
        let '(rest, rawQuery, _) := strings.Cut rest "?" in
        if negb (strings.HasPrefix rest "/") &&
           negb (String.eqb scheme "")
        then
          (* We consider rootless paths per RFC 3986 as opaque. *)
          Ok {| Scheme := scheme; Opaque := rest; Host := ""; Path := "";
                RawQuery := rawQuery; Fragment := "" |}
        else if negb (strings.HasPrefix rest "/") &&
                strings.ContainsByte (fst (fst (strings.Cut rest "/"))) ":"
        then Err "first path segment in URL cannot contain colon"
        else
          let '(authority, rest) :=
            if (negb (String.eqb scheme "") ||
                negb (strings.HasPrefix rest "///")) &&
               strings.HasPrefix rest "//"
            then
              let '(authority, after, found) :=
                strings.Cut (from 2 rest) "/" in
              (Some authority, if found then String "/" after else "")
            else (None, rest) in
          match match authority with
                | Some a => parseAuthority a
                | None => Ok ""
                end with
          | Err e => Err e
          | Ok host =>
              match unescape encodePath rest with
              | Err e => Err e
              | Ok path =>
                  Ok {| Scheme := scheme; Opaque := ""; Host := host;
                        Path := path; RawQuery := rawQuery;
                        Fragment := "" |}
              end
          end
    end.

(** [url.Parse]. *)
Definition Parse (rawURL : string) : result URL :=
  let '(u, frag, _) := strings.Cut rawURL "#" in
  match parse u with
  | Err e => Err ("parse " +:+ rawURL +:+ ": " +:+ e)
  | Ok url =>
      if String.eqb frag "" then Ok url
      else match unescape encodeFragment frag with
           | Err e => Err ("parse " +:+ rawURL +:+ ": " +:+ e)
           | Ok f =>
               Ok {| Scheme := Scheme url; Opaque := Opaque url;
                     Host := Host url; Path := Path url;
                     RawQuery := RawQuery url; Fragment := f |}
           end
  end.

End url_model.

(** A standard library whose [url.Parse] is the model above and whose two
    decoders reject their input; it instantiates the theorems at concrete
    URLs and responses. *)
Definition model_stdlib : GoStdlib :=
  {| url_Parse := url_model.Parse;
     base64_DecodeString := fun _ => Err "illegal base64 data";
     http_ParseTime := fun _ => Err "parsing time" |}.

(** ** The specification's reading of a resource name *)


Definition nonempty (s : string) : bool := negb (String.eqb s "").


(** ** Concrete servers and transfers *)

Module examples.

Import http.

(** A response to HEAD with the given headers and derived length. *)
Definition head_response (status : Z) (header : Header) (length : Z)
: Response :=
{| StatusCode := status; Status := itoa status;
   RespHeader := header; ContentLength := length |}.

(** A server that answers every request alike. *)
Definition always (resp : Response) : Request -> DoResult :=
fun _ => DoResp resp.

(** [Accept-Ranges: bytes], [Content-Length: 1000]. *)
Definition ranged_1000 : Response :=
head_response 200
  (<["Accept-Ranges" := ["bytes"]]> (<["Content-Length" := ["1000"]]> ∅))
  1000.

(** [Accept-Ranges: none], [Content-Length: 500]. *)
Definition unranged_500 : Response :=
head_response 200
  (<["Accept-Ranges" := ["none"]]> (<["Content-Length" := ["500"]]> ∅))
  500.

(** No headers at all: the length is unknown. *)
Definition bare : Response := head_response 200 ∅ (-1).

(** [Content-Length: 0]. *)
Definition empty_file : Response :=
head_response 200 (<["Content-Length" := ["0"]]> ∅) 0.

(** [Content-Length: -5], as an HTTP/2 server can send it: the HTTP/2
  client leaves a length it cannot parse in the header and reports the
  length as unknown. *)
Definition negative_length : Response :=
head_response 200 (<["Content-Length" := ["-5"]]> ∅) (-1).

(** [Content-Length: not-a-number], likewise. *)
Definition malformed_length : Response :=
head_response 200 (<["Content-Length" := ["not-a-number"]]> ∅) (-1).

Definition file_url : string := "https://example.com/files/data.bin".

Definition transfer_1000 : ste.TransferInfo :=
{| ste.Source := file_url; ste.SourceSize := 1000 |}.

(** The downloader of [transfer_1000] after a probe found range support. *)
Definition ranged_downloader : ste.httpDownloader :=
{| ste.sourceURL := file_url; ste.bearerToken := "";
   ste.supportsRange := true; ste.contentLength := 1000;
   ste.expectedMD5 := []; ste.etag := "" |}.

(** The same after a probe found none. *)
Definition unranged_downloader : ste.httpDownloader :=
{| ste.sourceURL := file_url; ste.bearerToken := "";
   ste.supportsRange := false; ste.contentLength := 1000;
   ste.expectedMD5 := []; ste.etag := "" |}.

Definition first_chunk : ste.ChunkID :=
{| ste.Name := "data.bin"; ste.OffsetInFile := 0 |}.

Definition second_chunk : ste.ChunkID :=
{| ste.Name := "data.bin"; ste.OffsetInFile := 500 |}.

Definition get_response (status : Z) : Response :=
{| StatusCode := status; Status := itoa status;
   RespHeader := ∅; ContentLength := 500 |}.

(** A network that answers the first call with 404 and every later call
  with 206. *)
Definition not_found_then_partial : nat -> Request -> DoResult :=
fun n _ => match n with
           | O => DoResp (get_response 404)
           | S _ => DoResp (get_response 206)
           end.

(** A network that answers every call with 404. *)
Definition always_not_found : nat -> Request -> DoResult :=
fun _ _ => DoResp (get_response 404).

(** A network on which every call fails. *)
Definition unreachable : nat -> Request -> DoResult :=
fun _ _ => DoErr "connection refused".

End examples.

(** ** Two sentences of the specification, as they are written *)

(** The prologue marks the transfer failed and reports it done whenever the
    probe fails or the probed size differs from the expected size. *)
Definition prologue_fails_on_every_size_difference : Prop :=
  forall (lib : GoStdlib) (client : http.Request -> http.DoResult)
         (info : ste.TransferInfo) (hd : ste.httpDownloader),
    let '(hd', tr) := @ste.Prologue lib client info hd in
    (is_Err (@ste.detectCapabilities lib client hd) = true \/
     ste.contentLength hd' <> ste.SourceSize info) ->
    ste.marked_failed_and_done tr = true.

(** A status in [400 .. 499] other than 429. *)
Definition client_error_not_429 (status : Z) : Prop :=
  400 <= status < 500 /\ status <> 429.

(** After a 4xx response that is not 429 the retry loop makes no further
    attempt, and the task fails the active download. *)
Definition client_errors_are_not_retried : Prop :=
  forall (lib : GoStdlib) (net : nat -> http.Request -> http.DoResult)
         (enqueue : option error) (hd : ste.httpDownloader)
         (id : ste.ChunkID) (length maxRetries : Z) (fuel : nat)
         (tr : list ste.Event) (k : nat) (r : http.Response),
    0 <= maxRetries < max_int64 ->
    @ste.downloadChunk lib net enqueue hd id length maxRetries fuel = Some tr ->
    (k < ste.attempts tr)%nat ->
    (forall req, net k req = http.DoResp r) ->
    client_error_not_429 (http.StatusCode r) ->
    ste.attempts tr = S k /\ ste.failures tr <> [].


(** What the probe of [unranged_500] leaves in a new downloader of
    [transfer_1000]. *)
Definition probed_unranged : ste.httpDownloader :=
  {| ste.sourceURL := examples.file_url; ste.bearerToken := "";
     ste.supportsRange := false; ste.contentLength := 500;
     ste.expectedMD5 := []; ste.etag := "" |}.

(** A traverser as the test of [getFileName] sets it up: only the URL
    matters. *)
Definition traverser_of (u : string) : cmd.httpTraverser :=
  {| cmd.rawURL := u; cmd.bearerToken := ""; cmd.customHeaders := ∅;
     cmd.supportsRange := false; cmd.contentLength := 0;
     cmd.contentMD5 := []; cmd.etag := ""; cmd.lastModified := zero_time;
     cmd.contentType := "" |}.


(** What [url.Parse] makes of [file_url] and of an FTP URL. *)
Definition parsed_file_url : url.URL :=
  {| url.Scheme := "https"; url.Opaque := ""; url.Host := "example.com";
     url.Path := "/files/data.bin"; url.RawQuery := ""; url.Fragment := "" |}.

Definition parsed_ftp_url : url.URL :=
  {| url.Scheme := "ftp"; url.Opaque := ""; url.Host := "example.com";
     url.Path := "/file"; url.RawQuery := ""; url.Fragment := "" |}.

Definition file_parts : common.HTTPURLParts :=
  {| common.Scheme := "https"; common.Host := "example.com";
     common.Port := ""; common.Path := "/files/data.bin";
     common.Query := ""; common.Fragment := "";
     common.URL := examples.file_url |}.

(** What the probe of [ranged_1000] leaves in a new traverser. *)
Definition probed_traverser : cmd.httpTraverser :=
  {| cmd.rawURL := examples.file_url; cmd.bearerToken := "";
     cmd.customHeaders := ∅; cmd.supportsRange := true;
     cmd.contentLength := 1000; cmd.contentMD5 := []; cmd.etag := "";
     cmd.lastModified := zero_time; cmd.contentType := "" |}.


(** ** Reading the trace of a chunk function *)

(** The requests sent, in order. *)
Fixpoint requests (tr : list ste.Event) : list http.Request :=
  match tr with
  | [] => []
  | ste.HttpDo req :: rest => req :: requests rest
  | _ :: rest => requests rest
  end.

(** The durations slept, in order, in nanoseconds. *)
Fixpoint sleeps (tr : list ste.Event) : list Z :=
  match tr with
  | [] => []
  | ste.Sleep d :: rest => d :: sleeps rest
  | _ :: rest => sleeps rest
  end.

(** The chunks handed to the writer, in order. *)
Fixpoint enqueued (tr : list ste.Event) : list (ste.ChunkID * Z * bool) :=
  match tr with
  | [] => []
  | ste.EnqueueChunk id length retryable :: rest =>
      (id, length, retryable) :: enqueued rest
  | _ :: rest => enqueued rest
  end.

(** The request for a chunk: GET of the source, with the range when the
    server supports ranges, the bearer token and the entity tag when there
    are any. *)
Definition chunk_request (hd : ste.httpDownloader) (id : ste.ChunkID)
    (length : Z) : http.Request :=
  let base := {| http.Method := "GET"; http.URL := ste.sourceURL hd;
                 http.ReqHeader := ∅ |} in
  ste.add_auth_and_if_match hd
    (if ste.supportsRange hd
     then http.set_header base "Range" (ste.rangeHeader id length)
     else base).

(** The pause before retry [j]: [j] seconds, at most 30. *)
Definition backoff (j : Z) : Z := Z.min j 30 * ste.second.

(** An answer of the network after which the loop does not [break]. *)
Definition bad_outcome (o : http.DoResult) : bool :=
  match o with
  | http.DoErr _ => true
  | http.DoResp r => negb (ste.status_ok r)
  end.

(** The loop variables [resp] and [err] hold the answer [o]. *)
Definition reflects (st : ste.LoopState) (o : http.DoResult) : Prop :=
  match o with
  | http.DoErr e => ste.resp st = None /\ ste.err st = Some e
  | http.DoResp r => ste.resp st = Some r /\ ste.err st = None
  end.


(** What the chunk function reports when the loop ends on the answer [o]
    that is not a 200 or 206. *)
Definition last_failure (o : http.DoResult) : error :=
  match o with
  | http.DoErr e => e
  | http.DoResp r => "unexpected status code: " +:+ itoa (http.StatusCode r)
  end.

(** What the chunk function reports after it handed the body to the
    writer. *)
Definition enqueue_failure (enqueue : option error) : list (string * error) :=
  match enqueue with
  | Some e => [("Enqueuing chunk", e)]
  | None => []
  end.


(** ** The request of the traverser's probe *)

(** HEAD of the URL, with the bearer token as only header when there is
    one. *)
Definition head_request (u token : string) : http.Request :=
  {| http.Method := "HEAD"; http.URL := u;
     http.ReqHeader :=
       if String.eqb token "" then ∅
       else {["Authorization" := ["Bearer " +:+ token]]} |}.

(** A filter that applies on this system and that the object does not
    pass. *)
Definition rejects (object : cmd.StoredObject) (f : cmd.ObjectFilter) : Prop :=
  cmd.DoesSupportThisOS f = true /\ cmd.DoesPass f object = false.


(** ** Response bodies *)

Definition is_CloseBody (e : ste.Event) : bool :=
  match e with ste.CloseBody => true | _ => false end.

(** The number of times a response body is closed. *)
Definition closes (tr : list ste.Event) : nat := ste.count is_CloseBody tr.

(** The number of requests of a trace that the network answers with a
    response, [calls] calls having been made before the trace. *)
Fixpoint responses (net : nat -> http.Request -> http.DoResult) (calls : nat)
    (tr : list ste.Event) : nat :=
  match tr with
  | [] => 0
  | ste.HttpDo r :: rest =>
      match net calls r with
      | http.DoResp _ => S (responses net (S calls) rest)
      | http.DoErr _ => responses net (S calls) rest
      end
  | _ :: rest => responses net calls rest
  end.

(** No successful response is at hand. *)
Definition unanswered (st : ste.LoopState) : Prop :=
  match ste.resp st with
  | Some r => ste.status_ok r = false
  | None => True
  end.


(** A server that answers requests without credentials with
    [ranged_1000] and refuses the others. *)
Definition anonymous_only : http.Request -> http.DoResult :=
  fun req => match http.ReqHeader req !! "Authorization" with
             | None => http.DoResp examples.ranged_1000
             | Some _ => http.DoErr "credentials not accepted"
             end.


(** ** Package [e2etest]: the test server *)

Module e2etest.

Import http.

(** [httpServerOptions] configures the test server. *)
Record httpServerOptions : Type := {
  requireAuth : bool;
  validToken : string;
  supportRanges : bool;
  returnMD5 : bool;
  simulateError : bool;
  errorCode : Z
}.

(** The calls the handler makes on its [http.ResponseWriter], in the
    order they are made; [SliceOutOfRange] is the panic of a slice
    expression whose bounds are out of range. *)
Inductive Call : Type :=
| HeaderSet (key value : string)
| WriteHeader (statusCode : Z)
| Write (p : list Byte.byte)
| SliceOutOfRange.

Definition StatusUnauthorized : Z := 401.
Definition StatusRequestedRangeNotSatisfiable : Z := 416.

(** The entity tag of the test server, in its double quotes. *)
Definition test_etag : string :=
  String "034" ("test-etag-12345" +:+ String "034" EmptyString).

Section Server.

(** [md5.Sum] and [base64.StdEncoding.EncodeToString]. *)
Variable md5_Sum : list Byte.byte -> list Byte.byte.
Variable base64_EncodeToString : list Byte.byte -> string.

(** The handler of [setupHTTPServer]. *)
Definition handler (data : list Byte.byte) (opts : httpServerOptions)
    (r : Request) : list Call :=
  let len := Z.of_nat (length data) in
  (* Check authentication if required *)
  if requireAuth opts &&
     negb (String.eqb (Get (ReqHeader r) "Authorization")
                      ("Bearer " +:+ validToken opts))
  then [WriteHeader StatusUnauthorized;
        Write (String.list_byte_of_string "Unauthorized")]
  (* Simulate error if requested *)
  else if simulateError opts
  then [WriteHeader (errorCode opts);
        Write (String.list_byte_of_string "Simulated error")]
  (* For HEAD requests, return headers only *)
  else if String.eqb (Method r) "HEAD"
  then
    (if supportRanges opts then [HeaderSet "Accept-Ranges" "bytes"] else []) ++
    [HeaderSet "Content-Length" (itoa len)] ++
    (if returnMD5 opts
     then [HeaderSet "Content-MD5" (base64_EncodeToString (md5_Sum data))]
     else []) ++
    [HeaderSet "ETag" test_etag; WriteHeader StatusOK]
  else
    (* Full content response *)
    let full :=
      [HeaderSet "Content-Length" (itoa len)] ++
      (if supportRanges opts then [HeaderSet "Accept-Ranges" "bytes"]
       else []) ++
      (if returnMD5 opts
       then [HeaderSet "Content-MD5" (base64_EncodeToString (md5_Sum data))]
       else []) ++
      [WriteHeader StatusOK; Write data] in
    (* For GET requests, handle range requests *)
    let rangeHeader := Get (ReqHeader r) "Range" in
    if negb (String.eqb rangeHeader "") && supportRanges opts then
      (* Parse range header (format: "bytes=start-end") *)
      let rangeStr := strings.TrimPrefix rangeHeader "bytes=" in
      match strings.Split rangeStr "-" with
      | [part0; part1] =>
          let start := strconv.ParseInt_value part0 in
          let end_ := strconv.ParseInt_value part1 in
          (* Validate range *)
          if (start <? 0) || (len <=? start)
          then [WriteHeader StatusRequestedRangeNotSatisfiable]
          else
            let end_ := if len <=? end_ then wrap64 (len - 1) else end_ in
            (* Set headers for partial content *)
            [HeaderSet "Content-Range"
               ("bytes " +:+ itoa start +:+ "-" +:+ itoa end_ +:+ "/" +:+
                itoa len);
             HeaderSet "Content-Length"
               (itoa (wrap64 (wrap64 (end_ - start) + 1)));
             HeaderSet "Accept-Ranges" "bytes";
             WriteHeader StatusPartialContent] ++
            (* Write partial content: [data[start : end+1]], where [start] is
               not negative and [end+1] is at most [len(data)] *)
            (let high := wrap64 (end_ + 1) in
             if start <=? high
             then [Write (take (Z.to_nat (high - start))
                             (drop (Z.to_nat start) data))]
             else [SliceOutOfRange])
      | _ => full
      end
    else full.

End Server.

(** The status the handler sends: that of its first [WriteHeader]. *)
Fixpoint status (calls : list Call) : option Z :=
  match calls with
  | [] => None
  | WriteHeader statusCode :: _ => Some statusCode
  | _ :: rest => status rest
  end.

(** The headers set before the status is sent. *)
Fixpoint headers (calls : list Call) (h : Header) : Header :=
  match calls with
  | HeaderSet key value :: rest => headers rest (Set_ h key value)
  | _ => h
  end.

(** The bytes written as body. *)
Fixpoint body (calls : list Call) : list Byte.byte :=
  match calls with
  | [] => []
  | Write p :: rest => p ++ body rest
  | _ :: rest => body rest
  end.

Definition panics (calls : list Call) : bool :=
  existsb (fun c => match c with SliceOutOfRange => true | _ => false end)
          calls.

End e2etest.


(** A client that hands each request to a handler and returns what the
    handler sent: its status and the headers it set. *)
Definition relay (handle : http.Request -> list e2etest.Call)
  : http.Request -> http.DoResult :=
  fun req =>
    match e2etest.status (handle req) with
    | Some statusCode =>
        http.DoResp {| http.StatusCode := statusCode;
                       http.Status := itoa statusCode;
                       http.RespHeader := e2etest.headers (handle req) ∅;
                       http.ContentLength := -1 |}
    | None => http.DoErr "EOF"
    end.

(** A response shows what the handler sent as far as a probe reads it:
    the status and the headers [Accept-Ranges], [Content-Length] and
    [ETag]. *)
Definition shows (resp : http.Response) (calls : list e2etest.Call) : Prop :=
  e2etest.status calls = Some (http.StatusCode resp) /\
  Forall (fun key => http.Get (http.RespHeader resp) key =
                     http.Get (e2etest.headers calls ∅) key)
         ["Accept-Ranges"; "Content-Length"; "ETag"].

(** The request carries the credentials the server asks for, if it asks
    for any. *)
Definition authorized (opts : e2etest.httpServerOptions) (token : string)
  : Prop :=
  e2etest.requireAuth opts = false \/
  (token <> "" /\ e2etest.validToken opts = token).


(** A test server without credentials that supports ranges, and the ten
    bytes it serves. *)
Definition open_server : e2etest.httpServerOptions :=
  {| e2etest.requireAuth := false; e2etest.validToken := "";
     e2etest.supportRanges := true; e2etest.returnMD5 := false;
     e2etest.simulateError := false; e2etest.errorCode := 0 |}.

Definition ten_bytes : list Byte.byte :=
  String.list_byte_of_string "0123456789".

(** Stand-ins for [md5.Sum] and [base64.StdEncoding.EncodeToString] where
    no MD5 is sent. *)
Definition no_sum : list Byte.byte -> list Byte.byte := fun _ => [].
Definition no_encoding : list Byte.byte -> string := fun _ => "".

(** The chunk that starts at the third byte. *)
Definition third_byte_chunk : ste.ChunkID :=
  {| ste.Name := "data.bin"; ste.OffsetInFile := 2 |}.


(** The run reads the status of a response that is nil. *)
Definition panicked (tr : list ste.Event) : bool :=
  existsb (fun e => match e with ste.NilDereference => true | _ => false end)
          tr.

(** The places at which a chunk function reports a failure. *)
Definition failure_places : list string :=
  ["Creating HTTP request"; "Range request validation";
   "Downloading response body"; "Enqueuing chunk"].


(** * Properties *)

(** ** Integers *)

Lemma wrap64_id z : in_int64 z -> wrap64 z = z.
Proof.
  unfold in_int64, min_int64, max_int64, wrap64. intros Hz.
  rewrite Z.mod_small; lia.
Qed.

Lemma wrap64_range z : in_int64 (wrap64 z).
Proof.
  unfold in_int64, min_int64, max_int64, wrap64.
  pose proof (Z.mod_pos_bound (z + 2 ^ 63) (2 ^ 64) ltac:(lia)). lia.
Qed.

(** ** Strings *)

Lemma string_eqb_eq (a b : string) : String.eqb a b = true <-> a = b.
Proof. apply String.eqb_eq. Qed.

Lemma string_eqb_neq (a b : string) : String.eqb a b = false <-> a <> b.
Proof. apply String.eqb_neq. Qed.

Lemma append_nil_l (s : string) : EmptyString +:+ s = s.
Proof. reflexivity. Qed.

Lemma append_cons (c : ascii) (s t : string) :
  String c s +:+ t = String c (s +:+ t).
Proof. reflexivity. Qed.

Lemma substring_0_all (s : string) : String.substring 0 (String.length s) s = s.
Proof. induction s as [|c s IH]; simpl; [reflexivity | now rewrite IH]. Qed.


Lemma Split_not_nil (s : string) (sep : ascii) : strings.Split s sep <> [].
Proof.
  induction s as [|c s IH]; simpl; [discriminate|].
  destruct (Ascii.eqb c sep); [discriminate|].
  destruct (strings.Split s sep); discriminate.
Qed.




(** ** The resource name *)

Lemma scan_down_take (parts : list string) (n : nat) :
  (n <= length parts)%nat ->
  cmd.scan_down parts n = last (List.filter nonempty (take n parts)).
Proof.
  induction n as [|i IH]; intros Hn; simpl; [reflexivity|].
  destruct (lookup_lt_is_Some_2 parts i ltac:(lia)) as [p Hp].
  rewrite Hp, (take_S_r _ _ _ Hp), List.filter_app. simpl.
  fold (nonempty p). destruct (nonempty p).
  - now rewrite last_snoc.
  - rewrite app_nil_r. apply IH. lia.
Qed.

Lemma scan_down_all (parts : list string) :
  cmd.scan_down parts (length parts) = last (List.filter nonempty parts).
Proof. rewrite scan_down_take by lia. now rewrite firstn_all. Qed.


Section Properties.

Context `{GoStdlib}.


(** The object [Traverse] hands to the processor carries the name of
    [getFileName] and the probed size. *)
Lemma Traverse_object (t : cmd.httpTraverser)
    (processor : cmd.StoredObject -> option error) :
  exists object : cmd.StoredObject,
    head (snd (cmd.Traverse t None processor [])) = Some (cmd.Processed object) /\
    cmd.name object = cmd.getFileName t /\
    cmd.size object = cmd.contentLength t.
Proof.
  unfold cmd.Traverse. simpl.
  match goal with
  | |- context [processor ?o] => exists o; destruct (processor o)
  end; repeat split; reflexivity.
Qed.

(** ** The URL decomposer *)

(** C6: when [NewHTTPURLParts] succeeds on [u], [String()] on the parts
  returns [u]. *)
Theorem C6_String_returns_input (u : string) (parts : common.HTTPURLParts) :
common.NewHTTPURLParts u = Ok parts -> common.String parts = u.
Proof.
unfold common.NewHTTPURLParts, common.String. intros Hdec.
destruct (String.eqb u ""); [discriminate|].
destruct (url_Parse u) as [parsed|e]; [|discriminate].
destruct (negb _ && negb _); [discriminate|].
injection Hdec as <-. reflexivity.
Qed.

(** C8: [NewHTTPURLParts] returns an error for the empty string and for
  every input whose parsed scheme is neither [http] nor [https]; for
  any other input that [url.Parse] accepts it returns the parts and no
  error. *)
Theorem C8_decomposer_errors :
is_Err (common.NewHTTPURLParts "") = true /\
(forall (u : string) (parsed : url.URL),
   url_Parse u = Ok parsed ->
   url.Scheme parsed <> "http" -> url.Scheme parsed <> "https" ->
   is_Err (common.NewHTTPURLParts u) = true) /\
(forall (u : string) (parsed : url.URL),
   u <> "" -> url_Parse u = Ok parsed ->
   url.Scheme parsed = "http" \/ url.Scheme parsed = "https" ->
   common.NewHTTPURLParts u =
   Ok {| common.Scheme := url.Scheme parsed;
         common.Host := url.Hostname parsed;
         common.Port := url.Port parsed;
         common.Path := url.Path parsed;
         common.Query := url.RawQuery parsed;
         common.Fragment := url.Fragment parsed;
         common.URL := u |}).
Proof.
split; [reflexivity | split].
- intros u parsed Hparse Hhttp Hhttps. unfold common.NewHTTPURLParts.
  destruct (String.eqb u ""); [reflexivity|]. rewrite Hparse.
  apply string_eqb_neq in Hhttp, Hhttps. now rewrite Hhttp, Hhttps.
- intros u parsed Hne Hparse Hscheme. unfold common.NewHTTPURLParts.
  apply string_eqb_neq in Hne. rewrite Hne, Hparse.
  destruct Hscheme as [Hs | Hs]; apply string_eqb_eq in Hs; rewrite Hs;
    simpl; [reflexivity | now rewrite andb_false_r].
Qed.

(** An input that [url.Parse] rejects is rejected as well. *)
Lemma NewHTTPURLParts_parse_error (u : string) (e : error) :
url_Parse u = Err e -> is_Err (common.NewHTTPURLParts u) = true.
Proof.
intros Hparse. unfold common.NewHTTPURLParts.
destruct (String.eqb u ""); [reflexivity|]. now rewrite Hparse.
Qed.

(** A decomposition has scheme [http] or [https]. *)
Lemma NewHTTPURLParts_scheme (u : string) (parts : common.HTTPURLParts) :
common.NewHTTPURLParts u = Ok parts ->
common.Scheme parts = "http" \/ common.Scheme parts = "https".
Proof.
unfold common.NewHTTPURLParts. intros Hdec.
destruct (String.eqb u ""); [discriminate|].
destruct (url_Parse u) as [parsed|e]; [|discriminate].
destruct (String.eqb (url.Scheme parsed) "http") eqn:Hhttp;
  destruct (String.eqb (url.Scheme parsed) "https") eqn:Hhttps;
  simpl in Hdec; try discriminate; injection Hdec as <-; simpl;
  apply string_eqb_eq in Hhttp || apply string_eqb_eq in Hhttps; auto.
Qed.

(** ** The traverser *)

(** C10: [IsDirectory] returns [false] and a nil error for every traverser
  and both values of [isSource]. *)
Theorem C10_IsDirectory_false (t : cmd.httpTraverser) (isSource : bool) :
cmd.IsDirectory t isSource = (false, None).
Proof. reflexivity. Qed.

(** ** The capability probe *)

(** Setting a header leaves method and URL alone. *)
Lemma set_header_Method (req : http.Request) (k v : string) :
http.Method (http.set_header req k v) = http.Method req.
Proof. reflexivity. Qed.

Lemma set_header_URL (req : http.Request) (k v : string) :
http.URL (http.set_header req k v) = http.URL req.
Proof. reflexivity. Qed.

Lemma custom_headers_keep (req : http.Request) (m : gmap string string) :
let req' := map_fold (fun k v r => http.set_header r k v) req m in
http.Method req' = http.Method req /\ http.URL req' = http.URL req.
Proof.
apply (map_fold_weak_ind
         (fun r _ => http.Method r = http.Method req /\
                     http.URL r = http.URL req)); [now split|].
intros k v m' r _ [Hm Hu]. now split.
Qed.

Lemma NewRequestWithContext_inv (method rawurl : string) (req : http.Request) :
http.NewRequestWithContext method rawurl = Ok req ->
req = {| http.Method := method; http.URL := rawurl; http.ReqHeader := ∅ |} /\
is_Ok (url_Parse rawurl) = true.
Proof.
unfold http.NewRequestWithContext.
destruct (url_Parse rawurl); [|discriminate].
intros [= <-]. now split.
Qed.

(** What a successful probe of the traverser has read, and from which
  response. *)
Lemma cmd_detectCapabilities_inv (client : http.Request -> http.DoResult)
  (t t' : cmd.httpTraverser) :
cmd.detectCapabilities client t = Ok t' ->
exists (req : http.Request) (resp : http.Response),
  client req = http.DoResp resp /\
  http.Method req = "HEAD" /\ http.URL req = cmd.rawURL t /\
  http.StatusCode resp = http.StatusOK /\
  cmd.supportsRange t' =
    String.eqb (http.Get (http.RespHeader resp) "Accept-Ranges") "bytes" /\
  cmd.contentLength t' =
    (let cl := http.Get (http.RespHeader resp) "Content-Length" in
     if String.eqb cl "" then cmd.contentLength t
     else match strconv.ParseInt cl with
          | Ok length => length
          | Err _ => cmd.contentLength t
          end).
Proof.
unfold cmd.detectCapabilities. intros Hprobe.
destruct (http.NewRequestWithContext "HEAD" (cmd.rawURL t)) as [req0|e] eqn:Hreq;
  [|discriminate].
apply NewRequestWithContext_inv in Hreq as [-> _].
match type of Hprobe with
| context [client ?r] => set (req := r) in *
end.
destruct (client req) as [e|resp] eqn:Hdo; [discriminate|].
destruct (http.StatusCode resp =? http.StatusOK) eqn:Hstatus;
  [|discriminate].
simpl in Hprobe. injection Hprobe as <-. exists req, resp.
destruct (custom_headers_keep
            (if String.eqb (cmd.bearerToken t) ""
             then {| http.Method := "HEAD"; http.URL := cmd.rawURL t;
                     http.ReqHeader := ∅ |}
             else http.set_header
                    {| http.Method := "HEAD"; http.URL := cmd.rawURL t;
                       http.ReqHeader := ∅ |}
                    "Authorization" ("Bearer " +:+ cmd.bearerToken t))
            (cmd.customHeaders t)) as [Hm Hu].
fold req in Hm, Hu.
repeat split; try assumption.
- rewrite Hm. now destruct (String.eqb (cmd.bearerToken t) "").
- rewrite Hu. now destruct (String.eqb (cmd.bearerToken t) "").
- now apply Z.eqb_eq.
Qed.

(** The same for the probe of the downloader. *)
Lemma ste_detectCapabilities_inv (client : http.Request -> http.DoResult)
  (hd hd' : ste.httpDownloader) :
ste.detectCapabilities client hd = Ok hd' ->
exists (req : http.Request) (resp : http.Response),
  client req = http.DoResp resp /\
  http.Method req = "HEAD" /\ http.URL req = ste.sourceURL hd /\
  http.StatusCode resp = http.StatusOK /\
  ste.sourceURL hd' = ste.sourceURL hd /\
  ste.supportsRange hd' =
    String.eqb (http.Get (http.RespHeader resp) "Accept-Ranges") "bytes" /\
  ste.contentLength hd' =
    (if 0 <? http.ContentLength resp then http.ContentLength resp
     else ste.contentLength hd).
Proof.
unfold ste.detectCapabilities. intros Hprobe.
destruct (http.NewRequestWithContext "HEAD" (ste.sourceURL hd)) as [req0|e] eqn:Hreq;
  [|discriminate].
apply NewRequestWithContext_inv in Hreq as [-> _].
match type of Hprobe with
| context [client ?r] => set (req := r) in *
end.
destruct (client req) as [e|resp] eqn:Hdo; [discriminate|].
destruct (http.StatusCode resp =? http.StatusOK) eqn:Hstatus;
  [|discriminate].
simpl in Hprobe. injection Hprobe as <-. exists req, resp.
repeat split; try assumption.
- subst req. now destruct (String.eqb (ste.bearerToken hd) "").
- subst req. now destruct (String.eqb (ste.bearerToken hd) "").
- now apply Z.eqb_eq.
Qed.

(** A header that is absent reads as the empty string. *)
Lemma Get_absent (h : http.Header) (key : string) :
h !! http.CanonicalMIMEHeaderKey key = None -> http.Get h key = "".
Proof. unfold http.Get. now intros ->. Qed.

(** C5: after a successful probe, of the traverser and of the downloader
  alike, [supportsRange] is true if and only if the [Accept-Ranges]
  header of the HEAD response is exactly [bytes]; in particular it is
  false when the header is absent. *)
Theorem C5_supportsRange_iff_bytes (client : http.Request -> http.DoResult) :
(forall t t' : cmd.httpTraverser,
   cmd.detectCapabilities client t = Ok t' ->
   exists (req : http.Request) (resp : http.Response),
     client req = http.DoResp resp /\ http.Method req = "HEAD" /\
     (cmd.supportsRange t' = true <->
      http.Get (http.RespHeader resp) "Accept-Ranges" = "bytes") /\
     (http.RespHeader resp !! "Accept-Ranges" = None ->
      cmd.supportsRange t' = false)) /\
(forall hd hd' : ste.httpDownloader,
   ste.detectCapabilities client hd = Ok hd' ->
   exists (req : http.Request) (resp : http.Response),
     client req = http.DoResp resp /\ http.Method req = "HEAD" /\
     (ste.supportsRange hd' = true <->
      http.Get (http.RespHeader resp) "Accept-Ranges" = "bytes") /\
     (http.RespHeader resp !! "Accept-Ranges" = None ->
      ste.supportsRange hd' = false)).
Proof.
split.
- intros t t' Hprobe.
  destruct (cmd_detectCapabilities_inv _ _ _ Hprobe)
    as (req & resp & Hdo & Hm & _ & _ & Hrange & _).
  exists req, resp. rewrite Hrange. repeat split; try assumption.
  + apply string_eqb_eq.
  + apply string_eqb_eq.
  + intros Habs. now rewrite (Get_absent _ "Accept-Ranges" Habs).
- intros hd hd' Hprobe.
  destruct (ste_detectCapabilities_inv _ _ _ Hprobe)
    as (req & resp & Hdo & Hm & _ & _ & _ & Hrange & _).
  exists req, resp. rewrite Hrange. repeat split; try assumption.
  + apply string_eqb_eq.
  + apply string_eqb_eq.
  + intros Habs. now rewrite (Get_absent _ "Accept-Ranges" Habs).
Qed.

(** ** The probed size *)

Lemma digit_range (c : ascii) (d : Z) :
strconv.digit c = Some d -> 0 <= d <= 9.
Proof.
destruct c as [[] [] [] [] [] [] [] []]; intros Heq; vm_compute in Heq;
  try discriminate; injection Heq as <-; lia.
Qed.

Lemma digits_nonneg (s : string) (acc n : Z) :
0 <= acc -> strconv.digits s acc = Some n -> 0 <= n.
Proof.
revert acc. induction s as [|c s IH]; simpl; intros acc Hacc Hn.
- injection Hn as <-. exact Hacc.
- destruct (strconv.digit c) as [d|] eqn:Hd; [|discriminate].
  apply digit_range in Hd. apply (IH (10 * acc + d)); [lia | exact Hn].
Qed.

(** [ParseInt] gives a negative number only to a text with a leading
  minus sign. *)
Lemma ParseInt_negative (s : string) (n : Z) :
strconv.ParseInt s = Ok n -> n < 0 -> exists s', s = String "-" s'.
Proof.
unfold strconv.ParseInt. destruct s as [|c s']; [discriminate|].
destruct (Ascii.eqb c "+") eqn:Hplus.
- destruct s' as [|c' s'']; [discriminate|].
  destruct (strconv.digits (String c' s'') 0) as [un|] eqn:Hun;
    [|discriminate].
  apply digits_nonneg in Hun; [|lia]. simpl.
  destruct (2 ^ 63 <=? un); [discriminate|]. intros [= <-]. lia.
- destruct (Ascii.eqb c "-") eqn:Hminus.
  + apply Ascii.eqb_eq in Hminus as ->. intros _ _. now exists s'.
  + destruct (strconv.digits (String c s') 0) as [un|] eqn:Hun;
      [|discriminate].
    apply digits_nonneg in Hun; [|lia]. simpl.
    destruct (2 ^ 63 <=? un); [discriminate|]. intros [= <-]. lia.
Qed.

(** What [ParseInt] accepts lies in [int64]. *)
Lemma ParseInt_in_int64 (s : string) (n : Z) :
strconv.ParseInt s = Ok n -> in_int64 n.
Proof.
unfold strconv.ParseInt, in_int64, min_int64, max_int64.
destruct s as [|c s']; [discriminate|].
destruct (if Ascii.eqb c "+" then (false, s')
          else if Ascii.eqb c "-" then (true, s')
          else (false, String c s')) as [neg body].
destruct body as [|c' body']; [discriminate|].
destruct (strconv.digits (String c' body') 0) as [un|] eqn:Hun;
  [|discriminate].
apply digits_nonneg in Hun; [|lia].
destruct neg; simpl.
- destruct (2 ^ 63 <? un) eqn:Hcut; [discriminate|].
  apply Z.ltb_ge in Hcut. intros [= <-]. lia.
- destruct (2 ^ 63 <=? un) eqn:Hcut; [discriminate|].
  apply Z.leb_gt in Hcut. intros [= <-]. lia.
Qed.

(** The size a new traverser reports: the [Content-Length] header read by
  [ParseInt], and 0 when the header is absent, empty or not accepted by
  [ParseInt]. *)
Lemma newHTTPTraverser_size (client : http.Request -> http.DoResult)
  (u token : string) (t : cmd.httpTraverser) :
cmd.newHTTPTraverser client u token = Ok t ->
exists (req : http.Request) (resp : http.Response),
  client req = http.DoResp resp /\
  let cl := http.Get (http.RespHeader resp) "Content-Length" in
  (cl = "" -> cmd.contentLength t = 0) /\
  (is_Err (strconv.ParseInt cl) = true -> cmd.contentLength t = 0) /\
  (forall n, strconv.ParseInt cl = Ok n -> cmd.contentLength t = n).
Proof.
unfold cmd.newHTTPTraverser. intros Hnew.
destruct (common.NewHTTPURLParts u); [|discriminate].
match type of Hnew with
| context [cmd.detectCapabilities client ?t0] =>
    destruct (cmd.detectCapabilities client t0) as [t1|e] eqn:Hprobe;
      [|discriminate]
end.
injection Hnew as <-.
destruct (cmd_detectCapabilities_inv _ _ _ Hprobe)
  as (req & resp & Hdo & _ & _ & _ & _ & Hsize).
exists req, resp. split; [exact Hdo|]. simpl in *. rewrite Hsize.
repeat split.
- now intros ->.
- intros Herr. destruct (String.eqb _ ""); [reflexivity|].
  now destruct (strconv.ParseInt _).
- intros n Hn. rewrite Hn.
  destruct (String.eqb _ "") eqn:Hemp; [|reflexivity].
  apply string_eqb_eq in Hemp. rewrite Hemp in Hn. discriminate.
Qed.

(** The size a new downloader stores is the length the HTTP stack derived
  when that is positive, and 0 otherwise: it is never negative. *)
Lemma newHTTPDownloader_size (client : http.Request -> http.DoResult)
  (info : ste.TransferInfo) (hd' : ste.httpDownloader) :
ste.detectCapabilities client (ste.newHTTPDownloader info) = Ok hd' ->
0 <= ste.contentLength hd' /\
exists (req : http.Request) (resp : http.Response),
  client req = http.DoResp resp /\
  ste.contentLength hd' = Z.max 0 (http.ContentLength resp).
Proof.
intros Hprobe.
destruct (ste_detectCapabilities_inv _ _ _ Hprobe)
  as (req & resp & Hdo & _ & _ & _ & _ & _ & Hsize).
simpl in Hsize. rewrite Hsize.
destruct (0 <? http.ContentLength resp) eqn:Hpos;
  [apply Z.ltb_lt in Hpos | apply Z.ltb_ge in Hpos];
  (split; [lia | exists req, resp; split; [exact Hdo | lia]]).
Qed.

(** ** The prologue *)

(** C2, as the code has it: the prologue probes, marks the transfer
  [Failed] and reports it done when the probe fails; after a successful
  probe it does so exactly when the probed size is positive and differs
  from the expected size, and otherwise calls nothing on the transfer. *)
Theorem C2_prologue_size_validation (client : http.Request -> http.DoResult)
  (info : ste.TransferInfo) (hd : ste.httpDownloader) :
match ste.detectCapabilities client hd with
| Err _ =>
    ste.marked_failed_and_done (snd (ste.Prologue client info hd)) = true
| Ok hd' =>
    fst (ste.Prologue client info hd) = hd' /\
    (ste.marked_failed_and_done (snd (ste.Prologue client info hd)) = true
     <-> 0 < ste.contentLength hd' /\
         ste.SourceSize info <> ste.contentLength hd') /\
    (~ (0 < ste.contentLength hd' /\
        ste.SourceSize info <> ste.contentLength hd') ->
     snd (ste.Prologue client info hd) = [])
end.
Proof.
unfold ste.Prologue.
destruct (ste.detectCapabilities client hd) as [hd'|e]; [|reflexivity].
destruct (Z.ltb_spec 0 (ste.contentLength hd')) as [Hpos|Hpos];
  destruct (Z.eqb_spec (ste.SourceSize info) (ste.contentLength hd'))
    as [Heq|Hne]; simpl; (split; [reflexivity|]).
- split; [split; [discriminate | intros [_ Hne]; contradiction]|].
  intros _. reflexivity.
- split; [split; [intros _; now split | reflexivity]|].
  intros Hno. exfalso. apply Hno. now split.
- split; [split; [discriminate | intros [Hlt _]; lia]|].
  intros _. reflexivity.
- split; [split; [discriminate | intros [Hlt _]; lia]|].
  intros _. reflexivity.
Qed.

(** ** The chunk function *)

Lemma count_app (p : ste.Event -> bool) (a b : list ste.Event) :
ste.count p (a ++ b) = (ste.count p a + ste.count p b)%nat.
Proof. unfold ste.count. now rewrite List.filter_app, length_app. Qed.

Lemma attempts_app (a b : list ste.Event) :
ste.attempts (a ++ b) = (ste.attempts a + ste.attempts b)%nat.
Proof. apply count_app. Qed.

Lemma failures_app (a b : list ste.Event) :
ste.failures (a ++ b) = ste.failures a ++ ste.failures b.
Proof.
induction a as [|e a IH]; [reflexivity|].
destruct e; simpl; rewrite ?IH; reflexivity.
Qed.

(** A request for the source can be built exactly when the source parses;
  building it again gives the same result. *)
Lemma NewRequestWithContext_ok (method rawurl : string) :
is_Ok (url_Parse rawurl) = true ->
http.NewRequestWithContext method rawurl =
Ok {| http.Method := method; http.URL := rawurl; http.ReqHeader := ∅ |}.
Proof.
unfold http.NewRequestWithContext. now destruct (url_Parse rawurl).
Qed.

Lemma NewRequestWithContext_err (method rawurl : string) (e : error) :
http.NewRequestWithContext method rawurl = Err e ->
is_Ok (url_Parse rawurl) = false.
Proof.
unfold http.NewRequestWithContext.
now destruct (url_Parse rawurl).
Qed.

(** A downloader that probed its source with success has a source that
  parses. *)
Lemma probed_source_parses (client : http.Request -> http.DoResult)
  (hd0 hd : ste.httpDownloader) :
ste.detectCapabilities client hd0 = Ok hd ->
is_Ok (url_Parse (ste.sourceURL hd)) = true.
Proof.
intros Hprobe.
destruct (ste_detectCapabilities_inv _ _ _ Hprobe)
  as (_ & _ & _ & _ & _ & _ & -> & _).
unfold ste.detectCapabilities in Hprobe.
destruct (http.NewRequestWithContext "HEAD" (ste.sourceURL hd0)) eqn:Hreq;
  [|discriminate].
now apply NewRequestWithContext_inv in Hreq as [_ Hok].
Qed.

Section Chunk.

Variable net : nat -> http.Request -> http.DoResult.
Variable enqueue : option error.
Variable hd : ste.httpDownloader.
Variable id : ste.ChunkID.
Variable length_ : Z.
Variable maxRetries : Z.

Local Abbreviation loop_body := (ste.loop_body net hd id length_ maxRetries).
Local Abbreviation retry_loop := (ste.retry_loop net hd id length_ maxRetries).
Local Abbreviation after_loop := (ste.after_loop enqueue id length_).
Local Abbreviation downloadChunk :=
(ste.downloadChunk net enqueue hd id length_ maxRetries).

(** Case analysis on an execution of the loop body. *)
Ltac loop_body_cases Hbody :=
unfold ste.loop_body in Hbody;
repeat match type of Hbody with
     | context [match net ?n ?r with _ => _ end] =>
         destruct (net n r) eqn:?
     | context [if ste.status_ok ?r then _ else _] =>
         destruct (ste.status_ok r) eqn:?
     | context [if ?a <=? ?b then _ else _] =>
         destruct (Z.leb_spec a b)
     | context [match http.NewRequestWithContext ?m ?u with _ => _ end] =>
         destruct (http.NewRequestWithContext m u) eqn:?
     end;
injection Hbody as <- <-.

(** Each execution of the loop body makes one HTTP attempt and hands
nothing to the writer. *)
Lemma loop_body_one_attempt (st : ste.LoopState) (calls : nat)
(step : ste.Step) (ev : list ste.Event) :
loop_body st calls = (step, ev) ->
ste.attempts ev = 1%nat /\ ste.count ste.is_EnqueueChunk ev = 0%nat.
Proof. intros Hbody. loop_body_cases Hbody; split; reflexivity. Qed.

(** When the loop goes on, the attempt failed, the counter went up by
one, and no failure was reported. *)
Lemma loop_body_continue (st st' : ste.LoopState) (calls : nat)
(ev : list ste.Event) :
loop_body st calls = (ste.Continue st', ev) ->
ste.retries st' = wrap64 (ste.retries st + 1) /\
ste.failures ev = [] /\
match net calls (ste.req st) with
| http.DoResp r =>
  ste.status_ok r = false /\ ste.resp st' = Some r /\ ste.err st' = None
| http.DoErr e =>
  ste.resp st' = None /\
  (maxRetries < wrap64 (ste.retries st + 1) -> ste.err st' = Some e)
end.
Proof.
intros Hbody. unfold ste.loop_body in Hbody.
destruct (net calls (ste.req st)) as [e|r].
- destruct (Z.leb_spec (wrap64 (ste.retries st + 1)) maxRetries).
+ destruct (http.NewRequestWithContext "GET" (ste.sourceURL hd));
    [|discriminate].
  injection Hbody as <- <-. repeat split; try reflexivity. lia.
+ injection Hbody as <- <-. repeat split; reflexivity.
- destruct (ste.status_ok r); [discriminate|].
destruct (Z.leb_spec (wrap64 (ste.retries st + 1)) maxRetries).
+ destruct (http.NewRequestWithContext "GET" (ste.sourceURL hd));
    [|discriminate].
  injection Hbody as <- <-. repeat split; reflexivity.
+ injection Hbody as <- <-. repeat split; reflexivity.
Qed.

(** The loop is left by [break] exactly on a 200 or 206. *)
Lemma loop_body_break (st st' : ste.LoopState) (calls : nat)
(ev : list ste.Event) :
loop_body st calls = (ste.Break st', ev) ->
exists r, net calls (ste.req st) = http.DoResp r /\
        ste.status_ok r = true /\
        ste.resp st' = Some r /\ ste.err st' = None /\
        ev = [ste.HttpDo (ste.req st)].
Proof.
intros Hbody. unfold ste.loop_body in Hbody.
destruct (net calls (ste.req st)) as [e|r].
- destruct (Z.leb_spec (wrap64 (ste.retries st + 1)) maxRetries);
  [destruct (http.NewRequestWithContext "GET" (ste.sourceURL hd))|];
  discriminate.
- destruct (ste.status_ok r) eqn:Hok.
+ injection Hbody as <- <-. now exists r.
+ destruct (Z.leb_spec (wrap64 (ste.retries st + 1)) maxRetries);
    [destruct (http.NewRequestWithContext "GET" (ste.sourceURL hd))|];
    discriminate.
Qed.

Lemma loop_body_ok (st : ste.LoopState) (calls : nat) (r : http.Response) :
net calls (ste.req st) = http.DoResp r -> ste.status_ok r = true ->
loop_body st calls =
(ste.Break {| ste.retries := ste.retries st; ste.req := ste.req st;
            ste.resp := Some r; ste.err := None |},
[ste.HttpDo (ste.req st)]).
Proof. intros Hdo Hok. unfold ste.loop_body. now rewrite Hdo, Hok. Qed.

(** The loop body returns only when the request cannot be built again. *)
Lemma loop_body_return (st : ste.LoopState) (calls : nat)
(ev : list ste.Event) :
loop_body st calls = (ste.Return, ev) ->
is_Ok (url_Parse (ste.sourceURL hd)) = false.
Proof.
intros Hbody. unfold ste.loop_body in Hbody.
destruct (net calls (ste.req st)) as [e|r].
- destruct (Z.leb_spec (wrap64 (ste.retries st + 1)) maxRetries);
  [|discriminate].
destruct (http.NewRequestWithContext "GET" (ste.sourceURL hd)) eqn:Hreq;
  [discriminate|]. now apply NewRequestWithContext_err in Hreq.
- destruct (ste.status_ok r); [discriminate|].
destruct (Z.leb_spec (wrap64 (ste.retries st + 1)) maxRetries);
  [|discriminate].
destruct (http.NewRequestWithContext "GET" (ste.sourceURL hd)) eqn:Hreq;
  [discriminate|]. now apply NewRequestWithContext_err in Hreq.
Qed.

Hypothesis budget : 0 <= maxRetries < max_int64.

Lemma wrap64_succ (z : Z) : 0 <= z <= maxRetries -> wrap64 (z + 1) = z + 1.
Proof.
intros Hz. apply wrap64_id. unfold in_int64, min_int64, max_int64 in *. lia.
Qed.

(** The loop is left, and with at most one attempt for each value of the
counter up to the budget. *)
Lemma retry_loop_terminates (n fuel : nat) (st : ste.LoopState) (calls : nat) :
0 <= ste.retries st <= maxRetries + 1 ->
Z.to_nat (maxRetries + 1 - ste.retries st) = n ->
(n < fuel)%nat ->
exists out ev,
retry_loop fuel st calls = Some (out, ev) /\
(ste.attempts ev <= n)%nat /\
ste.count ste.is_EnqueueChunk ev = 0%nat.
Proof.
revert fuel st calls.
induction n as [|n IH]; intros fuel st calls Hrange Hn Hfuel;
(destruct fuel as [|fuel]; [lia|]); simpl.
- destruct (Z.leb_spec (ste.retries st) maxRetries); [lia|].
exists (ste.Exited st), []. repeat split; reflexivity || lia.
- destruct (Z.leb_spec (ste.retries st) maxRetries); [|lia].
destruct (loop_body st calls) as [step ev] eqn:Hbody.
destruct (loop_body_one_attempt _ _ _ _ Hbody) as [Hone Hnone].
destruct step as [st'| st' |].
+ destruct (loop_body_continue _ _ _ _ Hbody) as (Hret & _ & _).
  rewrite wrap64_succ in Hret by lia.
  destruct (IH fuel st' (S calls)) as (out & ev' & -> & Hle & Hnone');
    [lia | lia | lia |].
  exists out, (ev ++ ev'). rewrite attempts_app, count_app.
  repeat split; lia.
+ exists (ste.Exited st'), ev. repeat split; lia.
+ exists ste.Returned, ev. repeat split; lia.
Qed.

(** While the counter is within the budget, the loop makes an attempt. *)
Lemma retry_loop_attempts_once (fuel : nat) (st : ste.LoopState)
(calls : nat) (out : ste.LoopExit) (ev : list ste.Event) :
ste.retries st <= maxRetries ->
retry_loop fuel st calls = Some (out, ev) ->
(1 <= ste.attempts ev)%nat.
Proof.
intros Hle Hrun. destruct fuel as [|fuel]; [discriminate|]. simpl in Hrun.
destruct (Z.leb_spec (ste.retries st) maxRetries); [|lia].
destruct (loop_body st calls) as [step ev0] eqn:Hbody.
destruct (loop_body_one_attempt _ _ _ _ Hbody) as [Hone _].
destruct step as [st'| st' |].
- destruct (retry_loop fuel st' (S calls)) as [[out' ev']|]; [|discriminate].
injection Hrun as <- <-. rewrite attempts_app. lia.
- injection Hrun as <- <-. lia.
- injection Hrun as <- <-. lia.
Qed.

(** The fate of a response with a status other than 200 and 206 that
answers attempt [k]: with budget left the next attempt is made;
on the last attempt the loop is left with this response and no error,
and nothing was reported meanwhile. *)
Lemma retry_loop_bad_status (fuel : nat) (st : ste.LoopState) (calls : nat)
(out : ste.LoopExit) (ev : list ste.Event) (k : nat) (r : http.Response) :
is_Ok (url_Parse (ste.sourceURL hd)) = true ->
0 <= ste.retries st <= maxRetries + 1 ->
retry_loop fuel st calls = Some (out, ev) ->
(calls <= k < calls + ste.attempts ev)%nat ->
(forall req, net k req = http.DoResp r) ->
ste.status_ok r = false ->
let i := ste.retries st + Z.of_nat (k - calls) in
(i < maxRetries -> (S k < calls + ste.attempts ev)%nat) /\
(i = maxRetries ->
(calls + ste.attempts ev)%nat = S k /\
ste.failures ev = [] /\
exists st', out = ste.Exited st' /\
           ste.resp st' = Some r /\ ste.err st' = None).
Proof.
intros Hparse. revert st calls out ev.
induction fuel as [|fuel IH]; intros st calls out ev Hrange Hrun Hk Hnet Hbad;
[discriminate|].
simpl in Hrun.
destruct (Z.leb_spec (ste.retries st) maxRetries) as [Hle|Hgt].
2:{ injection Hrun as <- <-. simpl in Hk. lia. }
destruct (loop_body st calls) as [step ev0] eqn:Hbody.
destruct (loop_body_one_attempt _ _ _ _ Hbody) as [Hone _].
destruct step as [st'| st' |].
- destruct (loop_body_continue _ _ _ _ Hbody) as (Hret & Hnofail & Hout).
rewrite wrap64_succ in Hret by lia.
destruct (retry_loop fuel st' (S calls)) as [[out' ev']|] eqn:Hrest;
  [|discriminate].
injection Hrun as <- <-. rewrite attempts_app, failures_app, Hone, Hnofail.
rewrite attempts_app, Hone in Hk.
destruct (Nat.eq_dec k calls) as [->|Hne].
+ rewrite Hnet in Hout. destruct Hout as (_ & Hresp & Herr).
  rewrite Nat.sub_diag, Z.add_0_r. simpl. split.
  * intros Hlt.
    pose proof (retry_loop_attempts_once fuel st' (S calls) out' ev'
                  ltac:(lia) Hrest).
    lia.
  * intros Heq. destruct fuel as [|fuel']; [discriminate|].
    simpl in Hrest.
    destruct (Z.leb_spec (ste.retries st') maxRetries); [lia|].
    injection Hrest as <- <-.
    change (ste.attempts []) with 0%nat. simpl.
    split; [lia|]. split; [reflexivity|]. now exists st'.
+ destruct (IH st' (S calls) out' ev' ltac:(lia) Hrest ltac:(lia) Hnet Hbad)
    as [Hmore Hlast].
  replace (ste.retries st + Z.of_nat (k - calls))
    with (ste.retries st' + Z.of_nat (k - S calls)) by lia.
  simpl. split.
  * intros Hlt. specialize (Hmore Hlt). lia.
  * intros Heq. destruct (Hlast Heq) as (Hatt & Hfail & Hst).
    repeat split; [lia | exact Hfail | exact Hst].
- injection Hrun as <- <-. rewrite Hone in Hk.
assert (k = calls) as -> by lia.
destruct (loop_body_break _ _ _ _ Hbody) as (r' & Hdo & Hok & _).
rewrite Hnet in Hdo. injection Hdo as <-. congruence.
- apply loop_body_return in Hbody. congruence.
Qed.

(** The code after the loop makes no HTTP attempt. *)
Lemma after_loop_no_attempt (st : ste.LoopState) :
ste.attempts (after_loop st) = 0%nat.
Proof.
unfold ste.after_loop.
destruct (ste.err st); [reflexivity|].
destruct (ste.resp st) as [r|]; [|reflexivity].
destruct (negb _ && negb _); [reflexivity|].
now destruct enqueue.
Qed.

Lemma after_loop_bad_status (st : ste.LoopState) (r : http.Response) :
ste.resp st = Some r -> ste.err st = None -> ste.status_ok r = false ->
ste.failures (after_loop st) =
[("Downloading response body",
"unexpected status code: " +:+ itoa (http.StatusCode r))].
Proof.
intros Hresp Herr Hbad. unfold ste.after_loop. rewrite Hresp, Herr.
unfold ste.status_ok in Hbad. apply orb_false_elim in Hbad as [-> ->].
reflexivity.
Qed.

(** The attempts of the whole chunk function are those of its loop. *)
Lemma execute_inv (req0 : http.Request) (fuel : nat) (tr : list ste.Event) :
ste.execute net enqueue hd id length_ maxRetries req0 fuel = Some tr ->
exists out ev st0,
retry_loop fuel st0 0%nat = Some (out, ev) /\ ste.retries st0 = 0 /\
ste.attempts tr = ste.attempts ev /\
match out with
| ste.Exited st => tr = ev ++ after_loop st
| ste.Returned => tr = ev
end.
Proof.
unfold ste.execute. intros Hrun.
match type of Hrun with
| context [ste.retry_loop _ _ _ _ _ _ ?st0 _] =>
  destruct (retry_loop fuel st0 0%nat) as [[out ev]|] eqn:Hloop;
    [exists out, ev, st0 | discriminate]
end.
destruct out as [st|]; injection Hrun as <-;
repeat split; rewrite ?attempts_app, ?after_loop_no_attempt; auto.
Qed.

Lemma downloadChunk_inv (fuel : nat) (tr : list ste.Event) :
downloadChunk fuel = Some tr ->
(0 < ste.attempts tr)%nat ->
is_Ok (url_Parse (ste.sourceURL hd)) = true /\
exists req0 tr',
ste.execute net enqueue hd id length_ maxRetries req0 fuel = Some tr' /\
tr = ste.LogChunkStatus id ste.HeaderResponse :: tr'.
Proof.
unfold ste.downloadChunk. intros Hrun Hatt.
destruct (http.NewRequestWithContext "GET" (ste.sourceURL hd)) as [req0|e]
eqn:Hreq.
2:{ injection Hrun as <-. cbv in Hatt. lia. }
apply NewRequestWithContext_inv in Hreq as [_ Hparse].
split; [exact Hparse|].
destruct (ste.supportsRange hd).
- match type of Hrun with
| context [ste.execute _ _ _ _ _ _ ?r _] =>
    destruct (ste.execute net enqueue hd id length_ maxRetries r fuel)
      as [tr'|] eqn:Hexec; [|discriminate];
    exists r, tr'
end.
injection Hrun as <-. now split.
- destruct (0 <? ste.OffsetInFile id).
+ injection Hrun as <-. cbv in Hatt. lia.
+ match type of Hrun with
  | context [ste.execute _ _ _ _ _ _ ?r _] =>
      destruct (ste.execute net enqueue hd id length_ maxRetries r fuel)
        as [tr'|] eqn:Hexec; [|discriminate];
      exists r, tr'
  end.
  injection Hrun as <-. now split.
Qed.

(** Without range support a chunk past offset 0 is given up before any
request is sent, whether or not the request could be built. *)
Lemma chunk_without_range_never_requests (fuel : nat) :
ste.supportsRange hd = false -> 0 < ste.OffsetInFile id ->
exists tr where_ e,
downloadChunk fuel = Some tr /\
ste.attempts tr = 0%nat /\
ste.count ste.is_EnqueueChunk tr = 0%nat /\
ste.failures tr = [(where_, e)].
Proof.
intros Hrange Hoff. apply Z.ltb_lt in Hoff.
unfold ste.downloadChunk. rewrite Hrange, Hoff.
destruct (http.NewRequestWithContext "GET" (ste.sourceURL hd));
eexists _, _, _; repeat split; reflexivity.
Qed.

(** C3: for every chunk task of a downloader whose probe found that the
server does not support ranges, a chunk whose offset in the file is
greater than 0 fails the active download with an error that says the
server does not support range requests, and the task makes no HTTP
request and enqueues nothing. *)
Theorem C3_no_range_support_fails_chunk
(client : http.Request -> http.DoResult) (hd0 : ste.httpDownloader)
(fuel : nat) :
ste.detectCapabilities client hd0 = Ok hd ->
ste.supportsRange hd = false ->
0 < ste.OffsetInFile id ->
exists (tr : list ste.Event) (rest : string),
downloadChunk fuel = Some tr /\
ste.attempts tr = 0%nat /\
ste.count ste.is_EnqueueChunk tr = 0%nat /\
ste.failures tr =
  [("Range request validation",
    "server does not support range requests" +:+ rest)].
Proof.
intros Hprobe Hrange Hoff. apply Z.ltb_lt in Hoff.
apply probed_source_parses in Hprobe.
unfold ste.downloadChunk.
rewrite (NewRequestWithContext_ok "GET" _ Hprobe), Hrange, Hoff.
eexists _, (", cannot download chunk at offset " +:+
          itoa (ste.OffsetInFile id)).
repeat split; reflexivity.
Qed.

Lemma execute_terminates (req0 : http.Request) (fuel : nat) :
(Z.to_nat maxRetries + 1 < fuel)%nat ->
exists tr,
ste.execute net enqueue hd id length_ maxRetries req0 fuel = Some tr /\
Z.of_nat (ste.attempts tr) <= maxRetries + 1.
Proof.
intros Hfuel. unfold ste.execute.
match goal with
| |- context [ste.retry_loop _ _ _ _ _ _ ?st0 _] =>
  destruct (retry_loop_terminates (Z.to_nat (maxRetries + 1)) fuel st0 0)
    as (out & ev & -> & Hle & _); simpl; try lia
end.
destruct out as [st|]; eexists; (split; [reflexivity|]);
rewrite ?attempts_app, ?after_loop_no_attempt; lia.
Qed.


Lemma client_error_is_bad_status (r : http.Response) :
client_error_not_429 (http.StatusCode r) -> ste.status_ok r = false.
Proof.
unfold client_error_not_429, ste.status_ok, http.StatusOK,
http.StatusPartialContent.
intros [Hrange _]. apply orb_false_intro; apply Z.eqb_neq; lia.
Qed.

(** C1, as the code has it: a 4xx response that is not 429 is retried like
every other response that is not 200 or 206.  When it answers attempt
[k] and [k] is below the retry budget, attempt [k + 1] is made; when it
answers the last attempt the budget allows, no further attempt is made
and the task fails the active download with the unexpected status
code. *)
Theorem C1_client_error_is_retried (fuel : nat) (tr : list ste.Event)
(k : nat) (r : http.Response) :
downloadChunk fuel = Some tr ->
(k < ste.attempts tr)%nat ->
(forall req, net k req = http.DoResp r) ->
client_error_not_429 (http.StatusCode r) ->
(Z.of_nat k < maxRetries -> (S k < ste.attempts tr)%nat) /\
(Z.of_nat k = maxRetries ->
ste.attempts tr = S k /\
ste.failures tr =
 [("Downloading response body",
   "unexpected status code: " +:+ itoa (http.StatusCode r))]).
Proof.
intros Hrun Hk Hnet Hstatus.
apply client_error_is_bad_status in Hstatus.
destruct (downloadChunk_inv fuel tr Hrun ltac:(lia))
as (Hparse & req0 & tr' & Hexec & ->).
change (ste.LogChunkStatus id ste.HeaderResponse :: tr')
with ([ste.LogChunkStatus id ste.HeaderResponse] ++ tr') in *.
rewrite attempts_app, failures_app in *.
change (ste.attempts [ste.LogChunkStatus id ste.HeaderResponse])
with 0%nat in *.
change (ste.failures [ste.LogChunkStatus id ste.HeaderResponse])
with (@nil (string * error)).
destruct (execute_inv req0 fuel tr' Hexec)
as (out & ev & st0 & Hloop & Hzero & Hatt & Htr).
rewrite Hatt in *.
destruct (retry_loop_bad_status fuel st0 0 out ev k r Hparse
          ltac:(lia) Hloop ltac:(lia) Hnet Hstatus) as [Hmore Hlast].
rewrite Hzero, Nat.sub_0_r, Z.add_0_l in Hmore, Hlast. simpl in *.
split; [exact Hmore|].
intros Hend. destruct (Hlast Hend) as (Hcount & Hnofail & st' & -> & Hresp & Herr).
split; [exact Hcount|]. subst tr'.
rewrite failures_app, Hnofail. simpl.
now apply after_loop_bad_status.
Qed.

End Chunk.

End Properties.

(** * The code on concrete inputs *)

(** ** The tests of the repository, replayed *)

Example getFileName_data_bin :
  @cmd.getFileName model_stdlib
    (traverser_of "https://example.com/files/data.bin") = "data.bin".
Proof. vm_compute. reflexivity. Qed.

Example getFileName_archive :
  @cmd.getFileName model_stdlib
    (traverser_of "https://example.com/path/to/archive.tar.gz")
  = "archive.tar.gz".
Proof. vm_compute. reflexivity. Qed.

Example getFileName_root :
  @cmd.getFileName model_stdlib (traverser_of "https://example.com/")
  = "downloaded_file".
Proof. vm_compute. reflexivity. Qed.

Example getFileName_no_path :
  @cmd.getFileName model_stdlib (traverser_of "https://example.com")
  = "downloaded_file".
Proof. vm_compute. reflexivity. Qed.

Example getFileName_trailing_slashes :
  @cmd.getFileName model_stdlib (traverser_of "https://example.com/a/b///")
  = "b".
Proof. vm_compute. reflexivity. Qed.

Example decompose_complex :
  @common.NewHTTPURLParts model_stdlib
    "https://api.example.com:8443/files/data.bin?version=2&format=json#metadata"
  = Ok {| common.Scheme := "https"; common.Host := "api.example.com";
          common.Port := "8443"; common.Path := "/files/data.bin";
          common.Query := "version=2&format=json";
          common.Fragment := "metadata";
          common.URL :=
            "https://api.example.com:8443/files/data.bin?version=2&format=json#metadata" |}.
Proof. vm_compute. reflexivity. Qed.

Example decompose_ipv6 :
  (common.Host <$> (match @common.NewHTTPURLParts model_stdlib
                            "https://[2001:db8::1]:8080/file" with
                    | Ok parts => Some parts
                    | Err _ => None
                    end)) = Some "2001:db8::1".
Proof. vm_compute. reflexivity. Qed.

Example decompose_ftp_fails :
  @common.NewHTTPURLParts model_stdlib "ftp://example.com/file"
  = Err "expected http or https, got: ftp".
Proof. vm_compute. reflexivity. Qed.

Example decompose_malformed_fails :
  is_Err (@common.NewHTTPURLParts model_stdlib "ht!tp://bad url with spaces")
  = true.
Proof. vm_compute. reflexivity. Qed.

Example probe_ranged :
  @ste.detectCapabilities model_stdlib (examples.always examples.ranged_1000)
    (ste.newHTTPDownloader examples.transfer_1000)
  = Ok examples.ranged_downloader.
Proof. vm_compute. reflexivity. Qed.

Example probe_unranged :
  @ste.detectCapabilities model_stdlib (examples.always examples.unranged_500)
    (ste.newHTTPDownloader examples.transfer_1000)
  = Ok probed_unranged.
Proof. vm_compute. reflexivity. Qed.

Example probe_not_found :
  @ste.detectCapabilities model_stdlib
    (examples.always (examples.head_response 404 ∅ (-1)))
    (ste.newHTTPDownloader examples.transfer_1000)
  = Err "HEAD request returned status 404: 404".
Proof. vm_compute. reflexivity. Qed.

Example probe_traverser_ranged :
  @cmd.detectCapabilities model_stdlib (examples.always examples.ranged_1000)
    (traverser_of examples.file_url)
  = Ok probed_traverser.
Proof. vm_compute. reflexivity. Qed.

Example probe_without_length :
  match @ste.detectCapabilities model_stdlib (examples.always examples.bare)
          (ste.newHTTPDownloader examples.transfer_1000) with
  | Ok hd => ste.contentLength hd = 0 /\ ste.supportsRange hd = false
  | Err _ => False
  end.
Proof. vm_compute. split; reflexivity. Qed.

Example prologue_detects_mismatch :
  ste.marked_failed_and_done
    (snd (@ste.Prologue model_stdlib (examples.always examples.unranged_500)
            examples.transfer_1000
            (ste.newHTTPDownloader examples.transfer_1000))) = true.
Proof. vm_compute. reflexivity. Qed.

Example malformed_length_reads_as_zero :
  match @cmd.newHTTPTraverser model_stdlib
          (examples.always examples.malformed_length) examples.file_url "" with
  | Ok t => cmd.contentLength t = 0
  | Err _ => False
  end.
Proof. vm_compute. reflexivity. Qed.

Example transport_errors_exhaust_the_budget :
  option_map (fun tr => (ste.attempts tr, ste.failures tr))
    (@ste.downloadChunk model_stdlib examples.unreachable None
       examples.ranged_downloader examples.second_chunk 500 2 10%nat)
  = Some (3%nat, [("Downloading response body", "connection refused")]).
Proof. vm_compute. reflexivity. Qed.

(** ** The size of the traverser *)

(** C4, at a response the code can receive: a HEAD response with status
    200 whose [Content-Length] header is [-5].  [strconv.ParseInt] accepts
    the text, and the size the traverser extracts is [-5], a negative
    size. *)
Theorem C4_traverser_size_negative :
  match @cmd.newHTTPTraverser model_stdlib
          (examples.always examples.negative_length) examples.file_url "" with
  | Ok t => cmd.contentLength t = -5 /\ cmd.contentLength t < 0
  | Err _ => False
  end.
Proof. vm_compute. split; reflexivity. Qed.

(** ** Where the code departs from the two sentences *)

(** C2, as stated, fails: the probe answers with [Content-Length: 0], the
    enumeration expected 1000 bytes, and the prologue calls nothing on the
    transfer. *)
Lemma C2_size_difference_not_failed :
  ~ prologue_fails_on_every_size_difference.
Proof.
  intros Hclaim.
  specialize (Hclaim model_stdlib (examples.always examples.empty_file)
                examples.transfer_1000
                (ste.newHTTPDownloader examples.transfer_1000)).
  destruct (@ste.Prologue model_stdlib (examples.always examples.empty_file)
              examples.transfer_1000
              (ste.newHTTPDownloader examples.transfer_1000))
    as [hd' tr] eqn:Hrun.
  vm_compute in Hrun. injection Hrun as <- <-.
  assert (Hmarked : ste.marked_failed_and_done [] = true).
  { apply Hclaim. right. simpl. discriminate. }
  discriminate Hmarked.
Qed.

(** C1, as stated, fails: the first attempt is answered with 404, the
    budget is 5, and the downloader makes a second attempt, which succeeds;
    the task reports no failure. *)
Lemma C1_not_found_is_retried : ~ client_errors_are_not_retried.
Proof.
  intros Hclaim.
  destruct (@ste.downloadChunk model_stdlib examples.not_found_then_partial
              None examples.ranged_downloader examples.second_chunk 500 5
              10%nat) as [tr|] eqn:Hrun; [|vm_compute in Hrun; discriminate].
  assert (Hfacts : ste.attempts tr = 2%nat /\ ste.failures tr = []).
  { vm_compute in Hrun. injection Hrun as <-. split; reflexivity. }
  destruct Hfacts as [Hatt Hfail].
  destruct (Hclaim model_stdlib examples.not_found_then_partial None
              examples.ranged_downloader examples.second_chunk 500 5 10%nat
              tr 0%nat (examples.get_response 404)) as [Hone _].
  - unfold max_int64. lia.
  - exact Hrun.
  - lia.
  - reflexivity.
  - unfold client_error_not_429. simpl. lia.
  - lia.
Qed.

(** ** The theorems at concrete inputs *)

Lemma C1_witness :
  0 <= 2 < max_int64 /\
  exists tr : list ste.Event,
    @ste.downloadChunk model_stdlib examples.always_not_found None
      examples.ranged_downloader examples.second_chunk 500 2 10%nat = Some tr /\
    (2 < ste.attempts tr)%nat /\
    (forall req, examples.always_not_found 2%nat req =
                 http.DoResp (examples.get_response 404)) /\
    client_error_not_429 404 /\
    ste.attempts tr = 3%nat /\
    ste.failures tr =
      [("Downloading response body", "unexpected status code: 404")].
Proof.
  assert (Hbudget : 0 <= 2 < max_int64) by (unfold max_int64; lia).
  split; [exact Hbudget|].
  destruct (@ste.downloadChunk model_stdlib examples.always_not_found None
              examples.ranged_downloader examples.second_chunk 500 2 10%nat)
    as [tr|] eqn:Hrun; [|vm_compute in Hrun; discriminate].
  assert (Hatt : ste.attempts tr = 3%nat).
  { vm_compute in Hrun. injection Hrun as <-. reflexivity. }
  assert (Hstatus : client_error_not_429 404)
    by (unfold client_error_not_429; lia).
  exists tr. split; [reflexivity|]. split; [lia|].
  split; [reflexivity|]. split; [exact Hstatus|].
  destruct (@C1_client_error_is_retried model_stdlib
              examples.always_not_found None examples.ranged_downloader
              examples.second_chunk 500 2 Hbudget 10%nat tr 2%nat
              (examples.get_response 404) Hrun ltac:(lia)
              (fun _ => eq_refl) Hstatus) as [_ Hlast].
  exact (Hlast eq_refl).
Defined.

Lemma C2_witness :
  @ste.detectCapabilities model_stdlib (examples.always examples.unranged_500)
    (ste.newHTTPDownloader examples.transfer_1000) = Ok probed_unranged /\
  (0 < 500 /\ 1000 <> 500) /\
  ste.marked_failed_and_done
    (snd (@ste.Prologue model_stdlib (examples.always examples.unranged_500)
            examples.transfer_1000
            (ste.newHTTPDownloader examples.transfer_1000))) = true.
Proof.
  assert (Hprobe :
    @ste.detectCapabilities model_stdlib (examples.always examples.unranged_500)
      (ste.newHTTPDownloader examples.transfer_1000) = Ok probed_unranged)
    by (vm_compute; reflexivity).
  assert (Hsizes : 0 < 500 /\ 1000 <> 500) by (split; [lia | discriminate]).
  split; [exact Hprobe|]. split; [exact Hsizes|].
  pose proof (@C2_prologue_size_validation model_stdlib
                (examples.always examples.unranged_500)
                examples.transfer_1000
                (ste.newHTTPDownloader examples.transfer_1000)) as Hc.
  rewrite Hprobe in Hc. destruct Hc as (_ & Hiff & _).
  apply Hiff. exact Hsizes.
Defined.

Lemma C3_witness :
  @ste.detectCapabilities model_stdlib (examples.always examples.unranged_500)
    (ste.newHTTPDownloader examples.transfer_1000) = Ok probed_unranged /\
  ste.supportsRange probed_unranged = false /\
  0 < ste.OffsetInFile examples.second_chunk /\
  exists (tr : list ste.Event) (rest : string),
    @ste.downloadChunk model_stdlib examples.unreachable None probed_unranged
      examples.second_chunk 500 5 10%nat = Some tr /\
    ste.attempts tr = 0%nat /\
    ste.count ste.is_EnqueueChunk tr = 0%nat /\
    ste.failures tr =
      [("Range request validation",
        "server does not support range requests" +:+ rest)].
Proof.
  assert (Hprobe :
    @ste.detectCapabilities model_stdlib (examples.always examples.unranged_500)
      (ste.newHTTPDownloader examples.transfer_1000) = Ok probed_unranged)
    by (vm_compute; reflexivity).
  assert (Hoff : 0 < ste.OffsetInFile examples.second_chunk)
    by (simpl; lia).
  split; [exact Hprobe|]. split; [reflexivity|]. split; [exact Hoff|].
  exact (@C3_no_range_support_fails_chunk model_stdlib examples.unreachable
           None probed_unranged examples.second_chunk 500 5
           (examples.always examples.unranged_500)
           (ste.newHTTPDownloader examples.transfer_1000) 10%nat
           Hprobe eq_refl Hoff).
Defined.

Lemma C5_witness :
  @cmd.detectCapabilities model_stdlib (examples.always examples.ranged_1000)
    (traverser_of examples.file_url) = Ok probed_traverser /\
  @ste.detectCapabilities model_stdlib (examples.always examples.unranged_500)
    (ste.newHTTPDownloader examples.transfer_1000) = Ok probed_unranged /\
  (exists (req : http.Request) (resp : http.Response),
     examples.always examples.ranged_1000 req = http.DoResp resp /\
     http.Method req = "HEAD" /\
     (cmd.supportsRange probed_traverser = true <->
      http.Get (http.RespHeader resp) "Accept-Ranges" = "bytes") /\
     (http.RespHeader resp !! "Accept-Ranges" = None ->
      cmd.supportsRange probed_traverser = false)) /\
  (exists (req : http.Request) (resp : http.Response),
     examples.always examples.unranged_500 req = http.DoResp resp /\
     http.Method req = "HEAD" /\
     (ste.supportsRange probed_unranged = true <->
      http.Get (http.RespHeader resp) "Accept-Ranges" = "bytes") /\
     (http.RespHeader resp !! "Accept-Ranges" = None ->
      ste.supportsRange probed_unranged = false)).
Proof.
  assert (Hcmd :
    @cmd.detectCapabilities model_stdlib (examples.always examples.ranged_1000)
      (traverser_of examples.file_url) = Ok probed_traverser)
    by (vm_compute; reflexivity).
  assert (Hste :
    @ste.detectCapabilities model_stdlib (examples.always examples.unranged_500)
      (ste.newHTTPDownloader examples.transfer_1000) = Ok probed_unranged)
    by (vm_compute; reflexivity).
  split; [exact Hcmd|]. split; [exact Hste|]. split.
  - exact (proj1 (@C5_supportsRange_iff_bytes model_stdlib
                    (examples.always examples.ranged_1000)) _ _ Hcmd).
  - exact (proj2 (@C5_supportsRange_iff_bytes model_stdlib
                    (examples.always examples.unranged_500)) _ _ Hste).
Defined.

Lemma C6_witness :
  @common.NewHTTPURLParts model_stdlib examples.file_url = Ok file_parts /\
  common.String file_parts = examples.file_url.
Proof.
  assert (Hdec :
    @common.NewHTTPURLParts model_stdlib examples.file_url = Ok file_parts)
    by (vm_compute; reflexivity).
  split; [exact Hdec|].
  exact (@C6_String_returns_input model_stdlib examples.file_url file_parts
           Hdec).
Defined.

Lemma C8_witness :
  @url_Parse model_stdlib "ftp://example.com/file" = Ok parsed_ftp_url /\
  @url_Parse model_stdlib examples.file_url = Ok parsed_file_url /\
  is_Err (@common.NewHTTPURLParts model_stdlib "") = true /\
  is_Err (@common.NewHTTPURLParts model_stdlib "ftp://example.com/file")
    = true /\
  is_Ok (@common.NewHTTPURLParts model_stdlib examples.file_url) = true.
Proof.
  assert (Hftp :
    @url_Parse model_stdlib "ftp://example.com/file" = Ok parsed_ftp_url)
    by (vm_compute; reflexivity).
  assert (Hfile :
    @url_Parse model_stdlib examples.file_url = Ok parsed_file_url)
    by (vm_compute; reflexivity).
  destruct (@C8_decomposer_errors model_stdlib) as (Hempty & Hscheme & Hok).
  split; [exact Hftp|]. split; [exact Hfile|]. split; [exact Hempty|]. split.
  - apply (Hscheme _ _ Hftp); discriminate.
  - rewrite (Hok examples.file_url parsed_file_url); [reflexivity | discriminate
            | exact Hfile | right; reflexivity].
Defined.


(** * Further properties *)

(** ** The trace of a chunk function *)

Lemma requests_app (a b : list ste.Event) :
  requests (a ++ b) = requests a ++ requests b.
Proof.
  induction a as [|e a IH]; [reflexivity|].
  destruct e; simpl; rewrite ?IH; reflexivity.
Qed.

Lemma sleeps_app (a b : list ste.Event) :
  sleeps (a ++ b) = sleeps a ++ sleeps b.
Proof.
  induction a as [|e a IH]; [reflexivity|].
  destruct e; simpl; rewrite ?IH; reflexivity.
Qed.

Lemma enqueued_app (a b : list ste.Event) :
  enqueued (a ++ b) = enqueued a ++ enqueued b.
Proof.
  induction a as [|e a IH]; [reflexivity|].
  destruct e; simpl; rewrite ?IH; reflexivity.
Qed.

Lemma attempts_requests (tr : list ste.Event) :
  ste.attempts tr = length (requests tr).
Proof.
  unfold ste.attempts, ste.count.
  induction tr as [|e tr IH]; [reflexivity|].
  destruct e; simpl; rewrite ?IH; reflexivity.
Qed.

(** The cap on a pause. *)
Lemma capped_le (z : Z) :
  (if 30 * ste.second <? z then 30 * ste.second else z) <= 30 * ste.second.
Proof. destruct (Z.ltb_spec (30 * ste.second) z); lia. Qed.

(** Up to 9223372036 retries the product with a second does not wrap. *)
Lemma capped_backoff (j : Z) :
  0 <= j <= 9223372036 ->
  (if 30 * ste.second <? wrap64 (j * ste.second)
   then 30 * ste.second else wrap64 (j * ste.second)) = backoff j.
Proof.
  intros Hj. unfold backoff. rewrite wrap64_id.
  - unfold ste.second.
    destruct (Z.ltb_spec (30 * 1000000000) (j * 1000000000)); lia.
  - unfold in_int64, min_int64, max_int64, ste.second. lia.
Qed.

Section ChunkTrace.

Context `{GoStdlib}.

Variable net : nat -> http.Request -> http.DoResult.
Variable enqueue : option error.
Variable hd : ste.httpDownloader.
Variable id : ste.ChunkID.
Variable length_ : Z.
Variable maxRetries : Z.

Hypothesis budget : 0 <= maxRetries < max_int64.
Hypothesis parses : is_Ok (url_Parse (ste.sourceURL hd)) = true.

Local Abbreviation loop_body := (ste.loop_body net hd id length_ maxRetries).
Local Abbreviation retry_loop := (ste.retry_loop net hd id length_ maxRetries).
Local Abbreviation after_loop := (ste.after_loop enqueue id length_).
Local Abbreviation downloadChunk :=
  (ste.downloadChunk net enqueue hd id length_ maxRetries).
Local Abbreviation R := (chunk_request hd id length_).
Local Abbreviation pause :=
  (fun j : Z => if 30 * ste.second <? wrap64 (j * ste.second)
                then 30 * ste.second else wrap64 (j * ste.second)).

(** A failed attempt within the budget: the loop goes on with the counter
    raised, having sent the request, paused if another attempt follows,
    and reported nothing. *)
Lemma loop_body_bad (st : ste.LoopState) (calls : nat) :
  ste.req st = R ->
  0 <= ste.retries st <= maxRetries ->
  bad_outcome (net calls R) = true ->
  exists st' ev,
    loop_body st calls = (ste.Continue st', ev) /\
    ste.retries st' = ste.retries st + 1 /\
    ste.req st' = R /\
    requests ev = [R] /\
    ste.failures ev = [] /\
    enqueued ev = [] /\
    sleeps ev =
      (if ste.retries st + 1 <=? maxRetries
       then [pause (ste.retries st + 1)] else []) /\
    (maxRetries < ste.retries st + 1 -> reflects st' (net calls R)).
Proof.
  intros Hreq Hrange Hbad. unfold ste.loop_body.
  rewrite Hreq, (wrap64_succ maxRetries budget _ Hrange).
  rewrite (NewRequestWithContext_ok "GET" _ parses).
  destruct (net calls R) as [e|r] eqn:Hnet; simpl in Hbad.
  - destruct (Z.leb_spec (ste.retries st + 1) maxRetries);
      eexists _, _; (split; [reflexivity|]); simpl;
      repeat split; try reflexivity; lia.
  - apply negb_true_iff in Hbad. rewrite Hbad.
    destruct (Z.leb_spec (ste.retries st + 1) maxRetries);
      eexists _, _; (split; [reflexivity|]); simpl;
      repeat split; try reflexivity; lia.
Qed.

(** The whole loop, from a state that holds the chunk's request. *)
Lemma retry_loop_trace (fuel : nat) (st : ste.LoopState) (calls : nat)
    (out : ste.LoopExit) (ev : list ste.Event) :
  ste.req st = R ->
  0 <= ste.retries st <= maxRetries + 1 ->
  retry_loop fuel st calls = Some (out, ev) ->
  let n := ste.attempts ev in
  requests ev = replicate n R /\
  ste.failures ev = [] /\
  enqueued ev = [] /\
  sleeps ev = pause <$> seqZ (ste.retries st + 1) (Z.of_nat n - 1) /\
  ste.retries st + Z.of_nat n <= maxRetries + 1 /\
  (forall j : nat, (j + 1 < n)%nat -> bad_outcome (net (calls + j) R) = true) /\
  exists st' : ste.LoopState,
    out = ste.Exited st' /\
    (((1 <= n)%nat /\
      exists r, net (calls + (n - 1)) R = http.DoResp r /\
                ste.status_ok r = true /\
                ste.resp st' = Some r /\ ste.err st' = None) \/
     (ste.retries st + Z.of_nat n = maxRetries + 1 /\
      (n = 0%nat -> st' = st) /\
      ((1 <= n)%nat ->
       bad_outcome (net (calls + (n - 1)) R) = true /\
       reflects st' (net (calls + (n - 1)) R)))).
Proof.
  revert st calls out ev.
  induction fuel as [|fuel IH]; intros st calls out ev Hreq Hrange Hrun;
    [discriminate|].
  simpl in Hrun.
  destruct (Z.leb_spec (ste.retries st) maxRetries) as [Hle|Hgt].
  2:{ injection Hrun as <- <-. cbn.
      repeat split; try reflexivity.
      - lia.
      - intros j Hj. lia.
      - exists st. split; [reflexivity|]. right.
        repeat split; try lia. }
  destruct (bad_outcome (net calls R)) eqn:Hbad.
  - destruct (loop_body_bad st calls Hreq ltac:(lia) Hbad)
      as (st1 & ev1 & Hbody & Hret & Hreq1 & Hreqs & Hfail & Henq & Hsleep
          & Hrefl).
    rewrite Hbody in Hrun.
    destruct (retry_loop fuel st1 (S calls)) as [[out' ev']|] eqn:Hrest;
      [|discriminate].
    injection Hrun as <- <-.
    destruct (IH st1 (S calls) out' ev' Hreq1 ltac:(lia) Hrest)
      as (Hreqs' & Hfail' & Henq' & Hsleep' & Hbound' & Hbads' & st' & ->
          & Hfin).
    assert (Hone : ste.attempts ev1 = 1%nat)
      by (rewrite attempts_requests, Hreqs; reflexivity).
    cbn zeta.
    rewrite attempts_app, requests_app, failures_app, enqueued_app,
      sleeps_app, Hone, Hreqs, Hfail, Henq, Hsleep, Hreqs', Hfail', Henq',
      Hsleep', Hret.
    set (n' := ste.attempts ev') in *.
    assert (Hn' : if ste.retries st + 1 <=? maxRetries
                  then (1 <= n')%nat else n' = 0%nat).
    { destruct (Z.leb_spec (ste.retries st + 1) maxRetries).
      - apply (retry_loop_attempts_once net hd id length_ maxRetries fuel st1
                 (S calls) (ste.Exited st') ev'); [lia | exact Hrest].
      - destruct fuel as [|fuel']; [discriminate|]. simpl in Hrest.
        destruct (Z.leb_spec (ste.retries st1) maxRetries); [lia|].
        injection Hrest as <- <-. reflexivity. }
    revert Hn'.
    destruct (Z.leb_spec (ste.retries st + 1) maxRetries) as [Hmore|Hdone];
      intros Hn'.
    + repeat split; try reflexivity.
      * rewrite (seqZ_cons (ste.retries st + 1) (Z.of_nat (1 + n') - 1))
          by lia.
        simpl. do 3 f_equal; lia.
      * lia.
      * intros [|j] Hj; [now rewrite Nat.add_0_r|].
        replace (calls + S j)%nat with (S calls + j)%nat by lia.
        apply Hbads'. lia.
      * exists st'. split; [reflexivity|].
        replace (calls + (1 + n' - 1))%nat with (S calls + (n' - 1))%nat
          by lia.
        destruct Hfin as [(_ & Hok) | (Hend & _ & Hlast)].
        -- left. split; [lia | exact Hok].
        -- right. split; [lia|]. split; [intros; lia|].
           intros _. apply Hlast. lia.
    + subst n'. rewrite Hn' in *.
      destruct Hfin as [(Habs & _) | (_ & Hsame & _)]; [lia|].
      rewrite (Hsame eq_refl).
      repeat split; try reflexivity.
      * simpl. lia.
      * intros j Hj. lia.
      * exists st1. split; [reflexivity|]. right.
        replace (calls + (1 + 0 - 1))%nat with calls by lia.
        split; [simpl; lia|]. split; [intros; lia|].
        intros _. split; [exact Hbad | apply Hrefl; lia].
  - assert (exists r, net calls R = http.DoResp r /\ ste.status_ok r = true)
      as (r & Hnet & Hok).
    { destruct (net calls R) as [e|r]; simpl in Hbad; [discriminate|].
      exists r. split; [reflexivity|]. now apply negb_false_iff in Hbad. }
    rewrite <- Hreq in Hnet.
    rewrite (loop_body_ok net hd id length_ maxRetries st calls r Hnet Hok)
      in Hrun.
    injection Hrun as <- <-. rewrite Hreq in *. cbn.
    repeat split; try reflexivity.
    + lia.
    + intros j Hj. lia.
    + eexists. split; [reflexivity|]. left. split; [lia|].
      exists r. rewrite Nat.add_0_r. now repeat split.
Qed.

End ChunkTrace.

(** The code after the loop sends and sleeps no more; what it reports and
    enqueues depends on the loop variables only. *)
Lemma after_loop_quiet (enqueue : option error) (id : ste.ChunkID)
    (length_ : Z) (st : ste.LoopState) :
  requests (ste.after_loop enqueue id length_ st) = [] /\
  sleeps (ste.after_loop enqueue id length_ st) = [].
Proof.
  unfold ste.after_loop.
  destruct (ste.err st); [now split|].
  destruct (ste.resp st) as [r|]; [|now split].
  destruct (negb _ && negb _); [now split|].
  now destruct enqueue.
Qed.

Lemma after_loop_success (enqueue : option error) (id : ste.ChunkID)
    (length_ : Z) (st : ste.LoopState) (r : http.Response) :
  ste.resp st = Some r -> ste.err st = None -> ste.status_ok r = true ->
  ste.failures (ste.after_loop enqueue id length_ st) =
    enqueue_failure enqueue /\
  enqueued (ste.after_loop enqueue id length_ st) = [(id, length_, true)].
Proof.
  intros Hresp Herr Hok. unfold ste.after_loop. rewrite Hresp, Herr.
  unfold ste.status_ok in Hok.
  destruct (http.StatusCode r =? http.StatusOK);
    destruct (http.StatusCode r =? http.StatusPartialContent);
    try discriminate; simpl; now destruct enqueue.
Qed.

Lemma after_loop_failure (enqueue : option error) (id : ste.ChunkID)
    (length_ : Z) (st : ste.LoopState) (o : http.DoResult) :
  reflects st o -> bad_outcome o = true ->
  ste.failures (ste.after_loop enqueue id length_ st) =
    [("Downloading response body", last_failure o)] /\
  enqueued (ste.after_loop enqueue id length_ st) = [].
Proof.
  intros Hst Hbad. unfold ste.after_loop.
  destruct o as [e|r]; destruct Hst as [-> ->]; [now split|].
  simpl in Hbad. apply negb_true_iff in Hbad. unfold ste.status_ok in Hbad.
  apply orb_false_elim in Hbad as [-> ->]. now split.
Qed.

Section ChunkRuns.

Context `{GoStdlib}.

Variable net : nat -> http.Request -> http.DoResult.
Variable enqueue : option error.
Variable hd : ste.httpDownloader.
Variable id : ste.ChunkID.
Variable length_ : Z.
Variable maxRetries : Z.

Local Abbreviation retry_loop := (ste.retry_loop net hd id length_ maxRetries).
Local Abbreviation after_loop := (ste.after_loop enqueue id length_).
Local Abbreviation downloadChunk :=
  (ste.downloadChunk net enqueue hd id length_ maxRetries).
Local Abbreviation R := (chunk_request hd id length_).
Local Abbreviation start :=
  {| ste.retries := 0; ste.req := R; ste.resp := None; ste.err := None |}.

(** The three ways through the chunk function. *)
Lemma downloadChunk_cases (fuel : nat) (tr : list ste.Event) :
  0 <= maxRetries < max_int64 ->
  downloadChunk fuel = Some tr ->
  (exists e,
     is_Ok (url_Parse (ste.sourceURL hd)) = false /\
     tr = [ste.LogChunkStatus id ste.HeaderResponse;
           ste.FailActiveDownload "Creating HTTP request" e]) \/
  (ste.supportsRange hd = false /\ 0 < ste.OffsetInFile id /\
   exists e,
     tr = [ste.LogChunkStatus id ste.HeaderResponse;
           ste.FailActiveDownload "Range request validation" e]) \/
  (is_Ok (url_Parse (ste.sourceURL hd)) = true /\
   (ste.supportsRange hd = true \/ ste.OffsetInFile id <= 0) /\
   exists st' ev,
     retry_loop fuel start 0%nat = Some (ste.Exited st', ev) /\
     tr = ste.LogChunkStatus id ste.HeaderResponse :: ev ++ after_loop st').
Proof.
  intros budget Hrun. unfold ste.downloadChunk in Hrun.
  destruct (http.NewRequestWithContext "GET" (ste.sourceURL hd)) as [req0|e]
    eqn:Hreq.
  2:{ left. exists e. apply NewRequestWithContext_err in Hreq.
      injection Hrun as <-. now split. }
  apply NewRequestWithContext_inv in Hreq as [-> Hparse].
  assert (Hloop : forall tr',
    ste.execute net enqueue hd id length_ maxRetries
      (if ste.supportsRange hd
       then http.set_header
              {| http.Method := "GET"; http.URL := ste.sourceURL hd;
                 http.ReqHeader := ∅ |} "Range" (ste.rangeHeader id length_)
       else {| http.Method := "GET"; http.URL := ste.sourceURL hd;
               http.ReqHeader := ∅ |}) fuel = Some tr' ->
    exists st' ev,
      retry_loop fuel start 0%nat = Some (ste.Exited st', ev) /\
      tr' = ev ++ after_loop st').
  { intros tr' Hexec. unfold ste.execute in Hexec.
    change (ste.add_auth_and_if_match hd _) with R in Hexec.
    destruct (retry_loop fuel start 0%nat) as [[out ev]|] eqn:Hloop;
      [|discriminate].
    destruct (retry_loop_trace net hd id length_ maxRetries budget Hparse
                fuel start 0%nat out ev eq_refl ltac:(simpl; lia) Hloop)
      as (_ & _ & _ & _ & _ & _ & st' & -> & _).
    injection Hexec as <-. now exists st', ev. }
  destruct (ste.supportsRange hd) eqn:Hrange.
  - right. right. split; [exact Hparse|]. split; [now left|].
    destruct (ste.execute net enqueue hd id length_ maxRetries _ fuel)
      as [tr'|] eqn:Hexec; [|discriminate].
    injection Hrun as <-.
    destruct (Hloop tr' eq_refl) as (st' & ev & Hl & ->). now exists st', ev.
  - destruct (Z.ltb_spec 0 (ste.OffsetInFile id)) as [Hoff|Hoff].
    + right. left. split; [reflexivity|]. split; [exact Hoff|].
      injection Hrun as <-. now eexists.
    + right. right. split; [exact Hparse|]. split; [now right|].
      destruct (ste.execute net enqueue hd id length_ maxRetries _ fuel)
        as [tr'|] eqn:Hexec; [|discriminate].
      injection Hrun as <-.
      destruct (Hloop tr' eq_refl) as (st' & ev & Hl & ->). now exists st', ev.
Qed.

(** With enough fuel the chunk function returns. *)
Lemma downloadChunk_returns (fuel : nat) :
  0 <= maxRetries < max_int64 ->
  (Z.to_nat maxRetries + 1 < fuel)%nat ->
  exists tr, downloadChunk fuel = Some tr.
Proof.
  intros budget Hfuel. unfold ste.downloadChunk.
  destruct (http.NewRequestWithContext "GET" (ste.sourceURL hd)) as [req0|e];
    [|now eexists].
  destruct (ste.supportsRange hd).
  - destruct (execute_terminates net enqueue hd id length_ maxRetries budget
                (http.set_header req0 "Range" (ste.rangeHeader id length_))
                fuel Hfuel) as (tr & -> & _). now eexists.
  - destruct (0 <? ste.OffsetInFile id); [now eexists|].
    destruct (execute_terminates net enqueue hd id length_ maxRetries budget
                req0 fuel Hfuel) as (tr & -> & _). now eexists.
Qed.

(** X1: every request a chunk function sends is the same request: a GET of
    the source URL that carries a [Range] header exactly when the server
    supports ranges, an [Authorization] header exactly when there is a
    bearer token, an [If-Match] header exactly when there is an entity tag,
    and no other header.  The requests recreated for retries do not
    differ from the first. *)
Theorem chunk_requests_are_one_request (fuel : nat) (tr : list ste.Event) :
  0 <= maxRetries < max_int64 ->
  downloadChunk fuel = Some tr ->
  requests tr = replicate (ste.attempts tr) R /\
  http.Method R = "GET" /\
  http.URL R = ste.sourceURL hd /\
  http.ReqHeader R !! "Range" =
    (if ste.supportsRange hd then Some [ste.rangeHeader id length_]
     else None) /\
  http.ReqHeader R !! "Authorization" =
    (if String.eqb (ste.bearerToken hd) "" then None
     else Some ["Bearer " +:+ ste.bearerToken hd]) /\
  http.ReqHeader R !! "If-Match" =
    (if String.eqb (ste.etag hd) "" then None else Some [ste.etag hd]) /\
  (forall key : string,
     key <> "Range" -> key <> "Authorization" -> key <> "If-Match" ->
     http.ReqHeader R !! key = None).
Proof.
  intros budget Hrun. split.
  - destruct (downloadChunk_cases fuel tr budget Hrun)
      as [(e & _ & ->) | [(_ & _ & e & ->) | (Hparse & _ & st' & ev & Hloop & ->)]];
      [reflexivity | reflexivity |].
    destruct (retry_loop_trace net hd id length_ maxRetries budget Hparse
                fuel start 0%nat _ ev eq_refl ltac:(simpl; lia) Hloop)
      as (Hreqs & _).
    change (ste.LogChunkStatus id ste.HeaderResponse :: ev ++ after_loop st')
      with ([ste.LogChunkStatus id ste.HeaderResponse] ++ ev ++ after_loop st').
    rewrite !attempts_app, !requests_app, Hreqs.
    rewrite (proj1 (after_loop_quiet enqueue id length_ st')).
    rewrite after_loop_no_attempt. simpl.
    now rewrite app_nil_r, Nat.add_0_r.
  - unfold chunk_request, ste.add_auth_and_if_match, http.set_header,
      http.Set_.
    change (http.CanonicalMIMEHeaderKey "Range") with "Range".
    change (http.CanonicalMIMEHeaderKey "Authorization") with "Authorization".
    change (http.CanonicalMIMEHeaderKey "If-Match") with "If-Match".
    destruct (ste.supportsRange hd);
      destruct (String.eqb (ste.bearerToken hd) "");
      destruct (String.eqb (ste.etag hd) ""); simpl;
      repeat split; try reflexivity;
      try (intros key Hr Ha Hm);
      repeat first [ rewrite lookup_insert_eq
                   | rewrite lookup_insert_ne by congruence
                   | rewrite lookup_empty ];
      reflexivity.
Qed.

(** X2: between two attempts the chunk function pauses, and so once less
    than it makes attempts; no pause is longer than 30 seconds; with a
    budget up to 9223372036 the pause before retry [j] is [j] seconds, at
    most 30. *)
Theorem chunk_backoff_schedule (fuel : nat) (tr : list ste.Event) :
  0 <= maxRetries < max_int64 ->
  downloadChunk fuel = Some tr ->
  length (sleeps tr) = (ste.attempts tr - 1)%nat /\
  Forall (fun d => d <= 30 * ste.second) (sleeps tr) /\
  (maxRetries <= 9223372036 ->
   sleeps tr = backoff <$> seqZ 1 (Z.of_nat (ste.attempts tr) - 1)).
Proof.
  intros budget Hrun.
  destruct (downloadChunk_cases fuel tr budget Hrun)
    as [(e & _ & ->) | [(_ & _ & e & ->) | (Hparse & _ & st' & ev & Hloop & ->)]];
    [repeat split; constructor | repeat split; constructor |].
  destruct (retry_loop_trace net hd id length_ maxRetries budget Hparse
              fuel start 0%nat _ ev eq_refl ltac:(simpl; lia) Hloop)
    as (_ & _ & _ & Hsleeps & Hbound & _).
  change (ste.LogChunkStatus id ste.HeaderResponse :: ev ++ after_loop st')
    with ([ste.LogChunkStatus id ste.HeaderResponse] ++ ev ++ after_loop st').
  rewrite !attempts_app, !sleeps_app, Hsleeps.
  rewrite (proj2 (after_loop_quiet enqueue id length_ st')).
  rewrite after_loop_no_attempt. simpl in *.
  rewrite app_nil_r, Nat.add_0_r. repeat split.
  - rewrite length_fmap, length_seqZ. lia.
  - apply Forall_fmap, Forall_true. intros j. apply capped_le.
  - intros Hsmall. apply Forall_fmap_ext, Forall_seqZ.
    intros j Hj. apply capped_backoff. lia.
Qed.

(** X3: a chunk function reports at most one failure and enqueues at most
    one chunk; it reports no failure exactly when it handed the body of
    its chunk, marked retryable, to the writer and the writer accepted
    it. *)
Theorem chunk_reports_once (fuel : nat) (tr : list ste.Event) :
  0 <= maxRetries < max_int64 ->
  downloadChunk fuel = Some tr ->
  (length (ste.failures tr) <= 1)%nat /\
  (length (enqueued tr) <= 1)%nat /\
  (ste.failures tr = [] <->
   enqueued tr = [(id, length_, true)] /\ enqueue = None).
Proof.
  intros budget Hrun.
  destruct (downloadChunk_cases fuel tr budget Hrun)
    as [(e & _ & ->) | [(_ & _ & e & ->) | (Hparse & _ & st' & ev & Hloop & ->)]].
  - simpl. repeat split; try lia; try discriminate. now intros [? _].
  - simpl. repeat split; try lia; try discriminate. now intros [? _].
  - destruct (retry_loop_trace net hd id length_ maxRetries budget Hparse
                fuel start 0%nat _ ev eq_refl ltac:(simpl; lia) Hloop)
      as (_ & Hfail & Henq & _ & _ & _ & st'' & [= <-] & Hfin).
    change (ste.LogChunkStatus id ste.HeaderResponse :: ev ++ after_loop st')
      with ([ste.LogChunkStatus id ste.HeaderResponse] ++ ev ++ after_loop st').
    rewrite !failures_app, !enqueued_app, Hfail, Henq. simpl.
    destruct Hfin as [(_ & r & _ & Hok & Hresp & Herr)
                     | (Hend & _ & Hlast)].
    + destruct (after_loop_success enqueue id length_ st' r Hresp Herr Hok)
        as [-> ->].
      destruct enqueue; simpl; repeat split; try lia; try discriminate;
        try reflexivity. now intros [_ ?].
    + destruct (Hlast ltac:(simpl in Hend; lia)) as [Hbad Hrefl].
      destruct (after_loop_failure enqueue id length_ st' _ Hrefl Hbad)
        as [-> ->].
      simpl. repeat split; try lia; try discriminate. now intros [? _].
Qed.

(** X4: when the first [k] attempts fail, [k] within the budget, and
    attempt [k] is answered 200 or 206, the chunk function makes exactly
    [k + 1] attempts, hands the chunk to the writer once, and reports a
    failure only if the writer returns an error. *)
Theorem chunk_first_success (fuel k : nat) (r : http.Response) :
  0 <= maxRetries < max_int64 ->
  is_Ok (url_Parse (ste.sourceURL hd)) = true ->
  ste.supportsRange hd = true \/ ste.OffsetInFile id <= 0 ->
  Z.of_nat k <= maxRetries ->
  (forall j : nat, (j < k)%nat -> bad_outcome (net j R) = true) ->
  net k R = http.DoResp r ->
  ste.status_ok r = true ->
  (Z.to_nat maxRetries + 1 < fuel)%nat ->
  exists tr : list ste.Event,
    downloadChunk fuel = Some tr /\
    ste.attempts tr = S k /\
    enqueued tr = [(id, length_, true)] /\
    ste.failures tr = enqueue_failure enqueue.
Proof.
  intros budget Hparse Hrange Hk Hbads Hnet Hok Hfuel.
  destruct (downloadChunk_returns fuel budget Hfuel) as [tr Hrun].
  exists tr. split; [exact Hrun|].
  assert (Hgood : bad_outcome (net k R) = false)
    by (rewrite Hnet; simpl; now rewrite Hok).
  destruct (downloadChunk_cases fuel tr budget Hrun)
    as [(e & Hno & _) | [(Hno & Hoff & _) | (_ & _ & st' & ev & Hloop & ->)]];
    [congruence | destruct Hrange; [congruence | lia] |].
  destruct (retry_loop_trace net hd id length_ maxRetries budget Hparse
              fuel start 0%nat _ ev eq_refl ltac:(simpl; lia) Hloop)
    as (_ & Hfail & Henq & _ & Hbound & Hbad' & st'' & [= <-] & Hfin).
  change (ste.LogChunkStatus id ste.HeaderResponse :: ev ++ after_loop st')
    with ([ste.LogChunkStatus id ste.HeaderResponse] ++ ev ++ after_loop st').
  rewrite !attempts_app, !failures_app, !enqueued_app, Hfail, Henq,
    after_loop_no_attempt.
  simpl in *. rewrite Nat.add_0_r.
  assert (Hn : ste.attempts ev = S k /\
               exists r', ste.status_ok r' = true /\
                          ste.resp st' = Some r' /\ ste.err st' = None).
  { destruct Hfin as [(Hpos & r' & Hnet' & Hok' & Hresp & Herr)
                     | (Hend & _ & Hlast)].
    - assert (Hgood' : bad_outcome (net (ste.attempts ev - 1)%nat R) = false)
        by (rewrite Hnet'; simpl; now rewrite Hok').
      destruct (Nat.lt_trichotomy (ste.attempts ev - 1)%nat k) as [Hlt|[Heq|Hgt]].
      + rewrite (Hbads _ Hlt) in Hgood'. discriminate.
      + split; [lia|]. now exists r'.
      + rewrite (Hbad' k ltac:(lia)) in Hgood. discriminate.
    - destruct (Hlast ltac:(lia)) as [Hbad _].
      destruct (Nat.eq_dec (ste.attempts ev - 1)%nat k) as [Heq|Hne].
      + rewrite Heq in Hbad. congruence.
      + rewrite (Hbad' k ltac:(lia)) in Hgood. discriminate. }
  destruct Hn as (Hn & r' & Hok' & Hresp & Herr).
  destruct (after_loop_success enqueue id length_ st' r' Hresp Herr Hok')
    as [-> ->].
  now repeat split.
Qed.

(** X5: when no attempt within the budget is answered 200 or 206, the
    chunk function makes exactly budget + 1 attempts, enqueues nothing, and
    reports one failure, [Downloading response body], with the transport
    error or the status of the last attempt. *)
Theorem chunk_budget_exhausted (fuel : nat) :
  0 <= maxRetries < max_int64 ->
  is_Ok (url_Parse (ste.sourceURL hd)) = true ->
  ste.supportsRange hd = true \/ ste.OffsetInFile id <= 0 ->
  (forall j : nat, Z.of_nat j <= maxRetries -> bad_outcome (net j R) = true) ->
  (Z.to_nat maxRetries + 1 < fuel)%nat ->
  exists tr : list ste.Event,
    downloadChunk fuel = Some tr /\
    Z.of_nat (ste.attempts tr) = maxRetries + 1 /\
    enqueued tr = [] /\
    ste.failures tr =
      [("Downloading response body",
        last_failure (net (Z.to_nat maxRetries) R))].
Proof.
  intros budget Hparse Hrange Hbads Hfuel.
  destruct (downloadChunk_returns fuel budget Hfuel) as [tr Hrun].
  exists tr. split; [exact Hrun|].
  destruct (downloadChunk_cases fuel tr budget Hrun)
    as [(e & Hno & _) | [(Hno & Hoff & _) | (_ & _ & st' & ev & Hloop & ->)]];
    [congruence | destruct Hrange; [congruence | lia] |].
  destruct (retry_loop_trace net hd id length_ maxRetries budget Hparse
              fuel start 0%nat _ ev eq_refl ltac:(simpl; lia) Hloop)
    as (_ & Hfail & Henq & _ & Hbound & _ & st'' & [= <-] & Hfin).
  change (ste.LogChunkStatus id ste.HeaderResponse :: ev ++ after_loop st')
    with ([ste.LogChunkStatus id ste.HeaderResponse] ++ ev ++ after_loop st').
  rewrite !attempts_app, !failures_app, !enqueued_app, Hfail, Henq,
    after_loop_no_attempt.
  simpl in *. rewrite Nat.add_0_r.
  destruct Hfin as [(Hpos & r' & Hnet' & Hok' & _) | (Hend & _ & Hlast)].
  - pose proof (Hbads (ste.attempts ev - 1)%nat ltac:(lia)) as Hbad.
    rewrite Hnet' in Hbad. simpl in Hbad. rewrite Hok' in Hbad. discriminate.
  - destruct (Hlast ltac:(lia)) as [Hbad Hrefl].
    destruct (after_loop_failure enqueue id length_ st' _ Hrefl Hbad)
      as [-> ->].
    replace (Z.to_nat maxRetries) with (ste.attempts ev - 1)%nat by lia.
    repeat split. lia.
Qed.

End ChunkRuns.

(** ** The traverser *)

Lemma Split_no_sep (s : string) (sep : ascii) :
  Forall (fun seg => strings.ContainsByte seg sep = false)
         (strings.Split s sep).
Proof.
  induction s as [|c s IH]; simpl.
  - now constructor.
  - destruct (Ascii.eqb c sep) eqn:Hc.
    + now constructor.
    + destruct (strings.Split s sep) as [|seg rest].
      * constructor; [simpl; now rewrite Hc | constructor].
      * inversion IH as [|? ? Hseg Hrest]; subst.
        constructor; [simpl; now rewrite Hc, Hseg | exact Hrest].
Qed.

Lemma filtered_out_spec (filters : list cmd.ObjectFilter)
    (object : cmd.StoredObject) :
  cmd.filtered_out filters object = true <-> Exists (rejects object) filters.
Proof.
  unfold rejects. induction filters as [|f filters IH]; simpl.
  - split; [discriminate | intros Hex; inversion Hex].
  - destruct (cmd.DoesSupportThisOS f) eqn:Hos; simpl.
    + destruct (cmd.DoesPass f object) eqn:Hpass; simpl.
      * rewrite IH. split; [now right|].
        intros Hex. inversion Hex as [? ? [_ Hno]|]; [congruence | assumption].
      * split; [intros _; now left | reflexivity].
    + rewrite IH. split; [now right|].
      intros Hex. inversion Hex as [? ? [Hyes _]|]; [congruence | assumption].
Qed.

Section Traversal.

Context `{GoStdlib}.

Lemma NewHTTPURLParts_ok_parses (u : string) (parts : common.HTTPURLParts) :
  common.NewHTTPURLParts u = Ok parts -> is_Ok (url_Parse u) = true.
Proof.
  unfold common.NewHTTPURLParts.
  destruct (String.eqb u ""); [discriminate|].
  now destruct (url_Parse u).
Qed.

(** The construction of a traverser for a URL that decomposes, as a
    function of the answer to one request. *)
Lemma newHTTPTraverser_probe (client : http.Request -> http.DoResult)
    (u token : string) (parts : common.HTTPURLParts) :
  common.NewHTTPURLParts u = Ok parts ->
  cmd.newHTTPTraverser client u token =
  match client (head_request u token) with
  | http.DoErr e =>
      Err ("failed to detect HTTP capabilities: " +:+
           ("HEAD request failed: " +:+ e))
  | http.DoResp resp =>
      if negb (http.StatusCode resp =? http.StatusOK)
      then Err ("failed to detect HTTP capabilities: " +:+
                ("HEAD request returned status " +:+
                 itoa (http.StatusCode resp) +:+ ": " +:+ http.Status resp))
      else
        Ok {| cmd.rawURL := u;
              cmd.bearerToken := token;
              cmd.customHeaders := ∅;
              cmd.supportsRange :=
                String.eqb (http.Get (http.RespHeader resp) "Accept-Ranges")
                           "bytes";
              cmd.contentLength :=
                (let cl := http.Get (http.RespHeader resp) "Content-Length" in
                 if String.eqb cl "" then 0
                 else match strconv.ParseInt cl with
                      | Ok length => length
                      | Err _ => 0
                      end);
              cmd.contentMD5 :=
                (let md := http.Get (http.RespHeader resp) "Content-MD5" in
                 if String.eqb md "" then []
                 else match base64_DecodeString md with
                      | Ok decoded => decoded
                      | Err _ => []
                      end);
              cmd.etag := http.Get (http.RespHeader resp) "ETag";
              cmd.lastModified :=
                (let lm := http.Get (http.RespHeader resp) "Last-Modified" in
                 if String.eqb lm "" then zero_time
                 else match http_ParseTime lm with
                      | Ok parsedTime => parsedTime
                      | Err _ => zero_time
                      end);
              cmd.contentType :=
                http.Get (http.RespHeader resp) "Content-Type" |}
  end.
Proof.
  intros Hparts. unfold cmd.newHTTPTraverser, cmd.detectCapabilities.
  rewrite Hparts. simpl.
  rewrite (NewRequestWithContext_ok "HEAD" u
             (NewHTTPURLParts_ok_parses u parts Hparts)).
  rewrite map_fold_empty.
  replace (if String.eqb token "" then _ else _)
    with (head_request u token)
    by (unfold head_request; now destruct (String.eqb token "")).
  destruct (client (head_request u token)) as [e|resp]; [reflexivity|].
  now destruct (negb (http.StatusCode resp =? http.StatusOK)).
Qed.

(** X6: a new traverser asks the server one thing: the answer to a HEAD
    request for the URL whose only header is [Authorization: Bearer] with
    the token, and which has no header when there is no token.  Two
    clients that answer this request alike give the same traverser or the
    same error. *)
Theorem traverser_probes_with_token
    (client1 client2 : http.Request -> http.DoResult) (u token : string) :
  client1 (head_request u token) = client2 (head_request u token) ->
  cmd.newHTTPTraverser client1 u token = cmd.newHTTPTraverser client2 u token.
Proof.
  intros Hsame.
  destruct (common.NewHTTPURLParts u) as [parts|e] eqn:Hparts.
  - rewrite !(newHTTPTraverser_probe _ u token parts Hparts). now rewrite Hsame.
  - unfold cmd.newHTTPTraverser. now rewrite Hparts.
Qed.

(** X7: the three ways in which the construction of a traverser fails,
    each with its message: a URL that does not decompose, whatever the
    server would answer; a transport error; a status other than 200, also
    another 2xx, with the status in the message. *)
Theorem traverser_construction_errors
    (client : http.Request -> http.DoResult) (u token : string) :
  (forall e,
     common.NewHTTPURLParts u = Err e ->
     cmd.newHTTPTraverser client u token = Err ("invalid HTTP URL: " +:+ e)) /\
  (forall parts e,
     common.NewHTTPURLParts u = Ok parts ->
     client (head_request u token) = http.DoErr e ->
     cmd.newHTTPTraverser client u token =
     Err ("failed to detect HTTP capabilities: HEAD request failed: " +:+ e)) /\
  (forall parts resp,
     common.NewHTTPURLParts u = Ok parts ->
     client (head_request u token) = http.DoResp resp ->
     http.StatusCode resp <> 200 ->
     cmd.newHTTPTraverser client u token =
     Err ("failed to detect HTTP capabilities: " +:+
          "HEAD request returned status " +:+
          itoa (http.StatusCode resp) +:+ ": " +:+ http.Status resp)).
Proof.
  repeat split.
  - intros e Hparts. unfold cmd.newHTTPTraverser. now rewrite Hparts.
  - intros parts e Hparts Hdo.
    now rewrite (newHTTPTraverser_probe _ u token parts Hparts), Hdo.
  - intros parts resp Hparts Hdo Hstatus.
    rewrite (newHTTPTraverser_probe _ u token parts Hparts), Hdo.
    apply Z.eqb_neq in Hstatus. unfold http.StatusOK. now rewrite Hstatus.
Qed.

(** X8: for a URL that decomposes, a response with status 200 always
    gives a traverser, whatever its headers: it keeps the URL and the
    token, takes entity tag and content type as they are, and an MD5 that
    does not decode or a date that does not parse is left out, not
    reported. *)
Theorem traverser_headers_never_fail
    (client : http.Request -> http.DoResult) (u token : string)
    (parts : common.HTTPURLParts) (resp : http.Response) :
  common.NewHTTPURLParts u = Ok parts ->
  client (head_request u token) = http.DoResp resp ->
  http.StatusCode resp = 200 ->
  exists t : cmd.httpTraverser,
    cmd.newHTTPTraverser client u token = Ok t /\
    cmd.rawURL t = u /\
    cmd.bearerToken t = token /\
    cmd.etag t = http.Get (http.RespHeader resp) "ETag" /\
    cmd.contentType t = http.Get (http.RespHeader resp) "Content-Type" /\
    (cmd.contentMD5 t = [] \/
     base64_DecodeString (http.Get (http.RespHeader resp) "Content-MD5")
     = Ok (cmd.contentMD5 t)) /\
    (is_Err (base64_DecodeString
               (http.Get (http.RespHeader resp) "Content-MD5")) = true ->
     cmd.contentMD5 t = []) /\
    (cmd.lastModified t = zero_time \/
     http_ParseTime (http.Get (http.RespHeader resp) "Last-Modified")
     = Ok (cmd.lastModified t)) /\
    (is_Err (http_ParseTime
               (http.Get (http.RespHeader resp) "Last-Modified")) = true ->
     cmd.lastModified t = zero_time).
Proof.
  intros Hparts Hdo Hstatus.
  rewrite (newHTTPTraverser_probe _ u token parts Hparts), Hdo.
  unfold http.StatusOK. rewrite Hstatus. simpl.
  eexists. split; [reflexivity|]. simpl.
  repeat split.
  - destruct (String.eqb _ ""); [now left|].
    destruct (base64_DecodeString _); [now right | now left].
  - intros Herr. destruct (String.eqb _ ""); [reflexivity|].
    now destruct (base64_DecodeString _).
  - destruct (String.eqb _ ""); [now left|].
    destruct (http_ParseTime _); [now right | now left].
  - intros Herr. destruct (String.eqb _ ""); [reflexivity|].
    now destruct (http_ParseTime _).
Qed.

(** X9: the name [getFileName] gives is never empty and never contains a
    slash, whatever the URL. *)
Theorem getFileName_is_a_name (t : cmd.httpTraverser) :
  cmd.getFileName t <> "" /\
  strings.ContainsByte (cmd.getFileName t) "/" = false.
Proof.
  unfold cmd.getFileName.
  destruct (common.NewHTTPURLParts (cmd.rawURL t)) as [urlParts|e];
    [|split; [discriminate | reflexivity]].
  rewrite scan_down_all.
  destruct (last (List.filter nonempty _)) as [seg|] eqn:Hlast;
    [|split; [discriminate | reflexivity]].
  apply last_Some in Hlast as [l' Hl'].
  assert (Hin : In seg (List.filter nonempty
                          (strings.Split
                             (strings.TrimSuffix (common.Path urlParts) "/")
                             "/")))
    by (rewrite Hl'; apply in_or_app; right; now left).
  apply filter_In in Hin as [Hin Hne]. split.
  - unfold nonempty in Hne. apply negb_true_iff in Hne.
    now apply string_eqb_neq in Hne.
  - pose proof (Split_no_sep (strings.TrimSuffix (common.Path urlParts) "/")
                  "/") as Hall.
    rewrite Forall_forall in Hall. apply Hall. now apply list_elem_of_In.
Qed.

(** X10: [Traverse] builds one object, which depends on the traverser and
    the preprocessor only.  When a filter that applies on this system does
    not pass it, the processor is not called, nothing is counted and no
    error is returned; filters that do not apply are not consulted.
    Otherwise the processor is called once with the object; the
    enumeration counter is incremented exactly when the processor returns
    no error, and an error of the processor is returned wrapped. *)
Theorem Traverse_filters_then_processes (t : cmd.httpTraverser)
    (preprocessor : option (cmd.StoredObject -> cmd.StoredObject)) :
  exists object : cmd.StoredObject,
    (preprocessor = None ->
     cmd.name object = cmd.getFileName t /\
     cmd.size object = cmd.contentLength t /\
     cmd.md5 object = cmd.contentMD5 t /\
     cmd.lastModifiedTime object = cmd.lastModified t /\
     cmd.objContentType object = cmd.contentType t /\
     cmd.entityType object = cmd.File /\
     cmd.relativePath object = "") /\
    forall (processor : cmd.StoredObject -> option error)
           (filters : list cmd.ObjectFilter),
      (Exists (rejects object) filters ->
       cmd.Traverse t preprocessor processor filters =
       (Ok tt,
        [cmd.Info ("Skipping " +:+ cmd.name object +:+ " due to filter")])) /\
      (~ Exists (rejects object) filters ->
       cmd.Traverse t preprocessor processor filters =
       match processor object with
       | None =>
           (Ok tt, [cmd.Processed object; cmd.EnumerationCounted cmd.File])
       | Some err =>
           (Err ("failed to process HTTP file: " +:+ err),
            [cmd.Processed object])
       end).
Proof.
  unfold cmd.Traverse.
  match goal with
  | |- context [cmd.filtered_out _ ?o] => exists o
  end.
  split; [intros ->; now repeat split|].
  intros processor filters. split; intros Hex.
  - apply filtered_out_spec in Hex. now rewrite Hex.
  - destruct (cmd.filtered_out filters _) eqn:Hout.
    + apply filtered_out_spec in Hout. contradiction.
    + now destruct (processor _).
Qed.

End Traversal.

(** ** The downloader's probe and prologue *)

Lemma bytesEqual_from_spec (a b : list Byte.byte) (n i : nat) :
  (i + n)%nat = length a -> length a = length b ->
  exists r : bool,
    ste.bytesEqual_from a b n i = Some r /\
    (r = true <-> drop i a = drop i b).
Proof.
  revert i. induction n as [|n IH]; intros i Hlen Hab.
  - exists true. split; [reflexivity|].
    rewrite !drop_ge by lia. tauto.
  - simpl.
    destruct (lookup_lt_is_Some_2 a i ltac:(lia)) as [x Hx].
    destruct (lookup_lt_is_Some_2 b i ltac:(lia)) as [y Hy].
    rewrite Hx, Hy, (drop_S a x i Hx), (drop_S b y i Hy).
    destruct (Byte.eqb x y) eqn:Hxy; simpl.
    + apply Byte.byte_dec_bl in Hxy as ->.
      destruct (IH (S i) ltac:(lia) Hab) as (r & -> & Hr).
      exists r. split; [reflexivity|]. rewrite Hr.
      split; [now intros ->|]. now intros [= ->].
    + exists false. split; [reflexivity|].
      split; [discriminate|]. intros [= -> _].
      now rewrite (Byte.byte_dec_lb eq_refl) in Hxy.
Qed.

(** X11: [bytesEqual] never reads outside its slices, and it returns true
    exactly when the two slices are equal. *)
Theorem bytesEqual_decides_equality (a b : list Byte.byte) :
  exists r : bool, ste.bytesEqual a b = Some r /\ (r = true <-> a = b).
Proof.
  unfold ste.bytesEqual.
  destruct (Nat.eqb_spec (length a) (length b)) as [Hlen|Hlen]; simpl.
  - destruct (bytesEqual_from_spec a b (length a) 0 eq_refl Hlen)
      as (r & Hr & Heq).
    exists r. now rewrite !drop_0 in Heq.
  - exists false. split; [reflexivity|].
    split; [discriminate|]. now intros ->.
Qed.

Section Probe.

Context `{GoStdlib}.

(** The downloader's probe, for a source that parses, as a function of
    the answer to one request. *)
Lemma ste_detectCapabilities_probe (client : http.Request -> http.DoResult)
    (hd : ste.httpDownloader) :
  ste.detectCapabilities client hd =
  match url_Parse (ste.sourceURL hd) with
  | Err err => Err ("failed to create HEAD request: " +:+ err)
  | Ok _ =>
      match client (head_request (ste.sourceURL hd) (ste.bearerToken hd)) with
      | http.DoErr err => Err ("HEAD request failed: " +:+ err)
      | http.DoResp resp =>
          if negb (http.StatusCode resp =? http.StatusOK)
          then Err ("HEAD request returned status " +:+
                    itoa (http.StatusCode resp) +:+ ": " +:+ http.Status resp)
          else
            Ok {| ste.sourceURL := ste.sourceURL hd;
                  ste.bearerToken := ste.bearerToken hd;
                  ste.supportsRange :=
                    String.eqb
                      (http.Get (http.RespHeader resp) "Accept-Ranges") "bytes";
                  ste.contentLength :=
                    (if 0 <? http.ContentLength resp
                     then http.ContentLength resp
                     else ste.contentLength hd);
                  ste.expectedMD5 :=
                    (let contentMD5 :=
                       http.Get (http.RespHeader resp) "Content-MD5" in
                     if String.eqb contentMD5 "" then ste.expectedMD5 hd
                     else match base64_DecodeString contentMD5 with
                          | Ok decoded => decoded
                          | Err _ => ste.expectedMD5 hd
                          end);
                  ste.etag := http.Get (http.RespHeader resp) "ETag" |}
      end
  end.
Proof.
  unfold ste.detectCapabilities, http.NewRequestWithContext.
  destruct (url_Parse (ste.sourceURL hd)) as [parsed|e]; [|reflexivity].
  replace (if String.eqb (ste.bearerToken hd) "" then _ else _)
    with (head_request (ste.sourceURL hd) (ste.bearerToken hd))
    by (unfold head_request; now destruct (String.eqb (ste.bearerToken hd) "")).
  reflexivity.
Qed.

(** X12: the prologue asks the server one thing: the answer to a HEAD
    request for the source, with the downloader's token as bearer token
    when it has one.  A downloader as [newHTTPDownloader] makes it has no
    token, so its probe carries no header at all. *)
Theorem Prologue_probes_once
    (client1 client2 : http.Request -> http.DoResult)
    (info : ste.TransferInfo) :
  (forall hd : ste.httpDownloader,
     client1 (head_request (ste.sourceURL hd) (ste.bearerToken hd)) =
     client2 (head_request (ste.sourceURL hd) (ste.bearerToken hd)) ->
     ste.Prologue client1 info hd = ste.Prologue client2 info hd) /\
  (client1 {| http.Method := "HEAD"; http.URL := ste.Source info;
              http.ReqHeader := ∅ |} =
   client2 {| http.Method := "HEAD"; http.URL := ste.Source info;
              http.ReqHeader := ∅ |} ->
   ste.Prologue client1 info (ste.newHTTPDownloader info) =
   ste.Prologue client2 info (ste.newHTTPDownloader info)).
Proof.
  assert (Hany : forall hd : ste.httpDownloader,
     client1 (head_request (ste.sourceURL hd) (ste.bearerToken hd)) =
     client2 (head_request (ste.sourceURL hd) (ste.bearerToken hd)) ->
     ste.Prologue client1 info hd = ste.Prologue client2 info hd).
  { intros hd Hsame. unfold ste.Prologue.
    rewrite !ste_detectCapabilities_probe. now rewrite Hsame. }
  split; [exact Hany|].
  intros Hsame. apply Hany. exact Hsame.
Qed.

(** X13: what the prologue leaves behind.  It never changes the source
    or the token; it calls nothing on the transfer, or logs one error,
    sets the status [Failed] and reports the transfer done, in this
    order; when the probe fails the downloader is as before; and after a
    prologue that reported nothing the known length is the enumerated size
    unless it is not positive. *)
Theorem Prologue_outcome (client : http.Request -> http.DoResult)
    (info : ste.TransferInfo) (hd : ste.httpDownloader) :
  let (hd', tr) := ste.Prologue client info hd in
  ste.sourceURL hd' = ste.sourceURL hd /\
  ste.bearerToken hd' = ste.bearerToken hd /\
  (tr = [] \/
   exists where_ err,
     tr = [ste.LogError (ste.sourceURL hd) where_ err;
           ste.SetStatus ste.Failed; ste.ReportTransferDone]) /\
  (is_Err (ste.detectCapabilities client hd) = true ->
   hd' = hd /\ tr <> []) /\
  (tr = [] ->
   ste.contentLength hd' <= 0 \/ ste.contentLength hd' = ste.SourceSize info).
Proof.
  unfold ste.Prologue. rewrite ste_detectCapabilities_probe.
  destruct (url_Parse (ste.sourceURL hd)) as [parsed|e].
  2: { repeat split; try discriminate. right. now eexists _, _. }
  destruct (client _) as [e|resp].
  { repeat split; try discriminate. right. now eexists _, _. }
  destruct (negb (http.StatusCode resp =? http.StatusOK)).
  { repeat split; try discriminate. right. now eexists _, _. }
  simpl.
  set (actual := if 0 <? http.ContentLength resp then http.ContentLength resp
                 else ste.contentLength hd).
  destruct (Z.ltb_spec 0 actual) as [Hpos|Hpos]; simpl.
  - destruct (Z.eqb_spec (ste.SourceSize info) actual) as [Hsame|Hdiff]; simpl.
    + split; [reflexivity|]. split; [reflexivity|].
      split; [now left|]. split; [discriminate|]. now right.
    + split; [reflexivity|]. split; [reflexivity|].
      split; [right; now eexists _, _|]. split; discriminate.
  - split; [reflexivity|]. split; [reflexivity|].
    split; [now left|]. split; [discriminate|]. now left.
Qed.

(** X14: enumeration and transfer agree.  When the traverser was built
    from a response whose length field is the value of its
    [Content-Length] header, and the server answers the downloader's
    probe, which carries no token, with the same response, the prologue
    for the enumerated size reports nothing, and the downloader has the
    range support, the entity tag and the MD5 the traverser found. *)
Theorem enumerated_transfer_passes_prologue
    (client : http.Request -> http.DoResult) (u token : string)
    (t : cmd.httpTraverser) (resp : http.Response) :
  cmd.newHTTPTraverser client u token = Ok t ->
  client (head_request u token) = http.DoResp resp ->
  client (head_request u "") = http.DoResp resp ->
  (0 < http.ContentLength resp ->
   strconv.ParseInt (http.Get (http.RespHeader resp) "Content-Length")
   = Ok (http.ContentLength resp)) ->
  let info := {| ste.Source := u; ste.SourceSize := cmd.contentLength t |} in
  exists hd' : ste.httpDownloader,
    ste.Prologue client info (ste.newHTTPDownloader info) = (hd', []) /\
    ste.supportsRange hd' = cmd.supportsRange t /\
    ste.etag hd' = cmd.etag t /\
    ste.expectedMD5 hd' = cmd.contentMD5 t /\
    (0 < http.ContentLength resp ->
     ste.contentLength hd' = cmd.contentLength t).
Proof.
  intros Hnew Hdo Hdo' Hlen info.
  destruct (common.NewHTTPURLParts u) as [parts|e] eqn:Hparts;
    [|unfold cmd.newHTTPTraverser in Hnew; now rewrite Hparts in Hnew].
  rewrite (newHTTPTraverser_probe _ u token parts Hparts), Hdo in Hnew.
  destruct (negb (http.StatusCode resp =? http.StatusOK)) eqn:Hstatus;
    [discriminate|].
  injection Hnew as Ht.
  unfold ste.Prologue. rewrite ste_detectCapabilities_probe. simpl.
  pose proof (NewHTTPURLParts_ok_parses u parts Hparts) as Hparse.
  destruct (url_Parse u) as [parsed|e]; [|discriminate].
  rewrite Hdo', Hstatus. simpl.
  assert (Hsize : (0 <? (if 0 <? http.ContentLength resp
                         then http.ContentLength resp else 0)) &&
                  negb (cmd.contentLength t =?
                        (if 0 <? http.ContentLength resp
                         then http.ContentLength resp else 0)) = false).
  { destruct (Z.ltb_spec 0 (http.ContentLength resp)) as [Hpos|Hpos];
      [|reflexivity].
    apply Z.ltb_lt in Hpos as Hpos'. rewrite Hpos'. simpl.
    rewrite <- Ht. simpl. rewrite (Hlen Hpos).
    destruct (String.eqb _ "") eqn:Hempty.
    - apply String.eqb_eq in Hempty. rewrite Hempty in Hlen.
      now specialize (Hlen Hpos).
    - now rewrite Z.eqb_refl. }
  rewrite Hsize. eexists. split; [reflexivity|]. simpl.
  rewrite <- Ht. simpl. repeat split.
  intros Hpos. apply Z.ltb_lt in Hpos as Hpos'. rewrite Hpos'.
  rewrite (Hlen Hpos).
  destruct (String.eqb _ "") eqn:Hempty; [|reflexivity].
  apply String.eqb_eq in Hempty. rewrite Hempty in Hlen.
  now specialize (Hlen Hpos).
Qed.

End Probe.

(** ** Response bodies are closed *)

Lemma closes_app (a b : list ste.Event) :
  closes (a ++ b) = (closes a + closes b)%nat.
Proof. apply count_app. Qed.

Lemma responses_app (net : nat -> http.Request -> http.DoResult)
    (a b : list ste.Event) (calls : nat) :
  responses net calls (a ++ b) =
  (responses net calls a + responses net (calls + ste.attempts a) b)%nat.
Proof.
  revert calls. induction a as [|e a IH]; intros calls; simpl.
  - now rewrite Nat.add_0_r.
  - destruct e; simpl; rewrite ?IH; try reflexivity.
    change (ste.attempts (ste.HttpDo req :: a)) with (S (ste.attempts a)).
    rewrite Nat.add_succ_r. simpl. now destruct (net calls req).
Qed.

Section ChunkBodies.

Context `{GoStdlib}.

Variable net : nat -> http.Request -> http.DoResult.
Variable enqueue : option error.
Variable hd : ste.httpDownloader.
Variable id : ste.ChunkID.
Variable length_ : Z.
Variable maxRetries : Z.

Local Abbreviation retry_loop' := (ste.retry_loop net hd id length_ maxRetries).
Local Abbreviation after_loop' := (ste.after_loop enqueue id length_).

Lemma loop_body_bodies (st : ste.LoopState) (calls : nat) (step : ste.Step)
    (ev : list ste.Event) :
  ste.loop_body net hd id length_ maxRetries st calls = (step, ev) ->
  ste.attempts ev = 1%nat /\
  match step with
  | ste.Break st' =>
      (closes ev + 1)%nat = responses net calls ev /\
      ste.err st' = None /\
      exists r, ste.resp st' = Some r /\ ste.status_ok r = true
  | ste.Continue st' =>
      closes ev = responses net calls ev /\ unanswered st'
  | ste.Return => closes ev = responses net calls ev
  end.
Proof.
  unfold ste.loop_body, unanswered.
  destruct (net calls (ste.req st)) as [e|r] eqn:Hdo.
  - destruct (_ <=? maxRetries).
    + destruct (http.NewRequestWithContext _ _); intros [= <- <-];
        (split; [reflexivity|]); simpl; rewrite Hdo; auto.
    + intros [= <- <-]. split; [reflexivity|]. simpl. rewrite Hdo. auto.
  - destruct (ste.status_ok r) eqn:Hok.
    + intros [= <- <-]. split; [reflexivity|]. simpl. rewrite Hdo.
      split; [reflexivity|]. split; [reflexivity|]. now exists r.
    + destruct (_ <=? maxRetries).
      * destruct (http.NewRequestWithContext _ _); intros [= <- <-];
          (split; [reflexivity|]); simpl; rewrite Hdo; auto.
      * intros [= <- <-]. split; [reflexivity|]. simpl. rewrite Hdo. auto.
Qed.

Lemma retry_loop_bodies (fuel : nat) (st : ste.LoopState) (calls : nat)
    (out : ste.LoopExit) (ev : list ste.Event) :
  unanswered st ->
  retry_loop' fuel st calls = Some (out, ev) ->
  match out with
  | ste.Returned => closes ev = responses net calls ev
  | ste.Exited st' =>
      (closes ev = responses net calls ev /\ unanswered st') \/
      ((closes ev + 1)%nat = responses net calls ev /\
       ste.err st' = None /\
       exists r, ste.resp st' = Some r /\ ste.status_ok r = true)
  end.
Proof.
  revert st calls out ev.
  induction fuel as [|fuel IH]; intros st calls out ev Hst; simpl;
    [discriminate|].
  destruct (ste.retries st <=? maxRetries).
  2:{ intros [= <- <-]. left. now split. }
  destruct (ste.loop_body net hd id length_ maxRetries st calls)
    as [step ev1] eqn:Hbody.
  apply loop_body_bodies in Hbody as [Hone Hstep].
  destruct step as [st1|st1|].
  - destruct Hstep as [Hcl Hst1].
    destruct (retry_loop' fuel st1 (S calls)) as [[out2 ev2]|] eqn:Hrest;
      [|discriminate].
    intros [= <- <-]. specialize (IH _ _ _ _ Hst1 Hrest).
    rewrite closes_app, responses_app, Hone, Nat.add_1_r.
    destruct out2 as [st2|]; [|lia].
    destruct IH as [[Heq Hun]|(Heq & Herr & Hresp)];
      [left; split; [lia | exact Hun] | right; split; [lia | now split]].
  - intros [= <- <-]. now right.
  - now intros [= <- <-].
Qed.

Lemma after_loop_bodies (st : ste.LoopState) (calls : nat) :
  responses net calls (after_loop' st) = 0%nat /\
  (closes (after_loop' st) <= 1)%nat /\
  (unanswered st -> ste.failures (after_loop' st) = [] ->
   closes (after_loop' st) = 0%nat) /\
  (ste.err st = None ->
   (exists r, ste.resp st = Some r /\ ste.status_ok r = true) ->
   closes (after_loop' st) = 1%nat).
Proof.
  unfold ste.after_loop, ste.status_ok, unanswered.
  destruct (ste.err st) as [e|].
  { split; [reflexivity|]. split; [cbv; lia|].
    split; [discriminate | discriminate]. }
  destruct (ste.resp st) as [r|].
  2:{ split; [reflexivity|]. split; [cbv; lia|].
      split; [reflexivity | now intros _ [r [? _]]]. }
  unfold ste.status_ok.
  destruct (http.StatusCode r =? http.StatusOK),
           (http.StatusCode r =? http.StatusPartialContent); simpl.
  4:{ split; [reflexivity|]. split; [cbv; lia|].
      split; [discriminate|]. now intros _ (r' & [= <-] & ?). }
  all: split; [now destruct enqueue|].
  all: split; [destruct enqueue; cbv; lia|].
  all: split; [discriminate | intros _ _; now destruct enqueue].
Qed.

(** X15: no response body is left open.  In every run of the chunk
    function, whatever the budget and the answers, the bodies are closed
    at least as often as responses were received, and at most once more;
    a run that reports no failure closes exactly as many bodies as it
    received responses. *)
Theorem chunk_closes_every_body (fuel : nat) (tr : list ste.Event) :
  ste.downloadChunk net enqueue hd id length_ maxRetries fuel = Some tr ->
  (responses net 0 tr <= closes tr <= responses net 0 tr + 1)%nat /\
  (ste.failures tr = [] -> closes tr = responses net 0 tr).
Proof.
  assert (Hexec : forall req0 tr',
    ste.execute net enqueue hd id length_ maxRetries req0 fuel = Some tr' ->
    (responses net 0 tr' <= closes tr' <= responses net 0 tr' + 1)%nat /\
    (ste.failures tr' = [] -> closes tr' = responses net 0 tr')).
  { intros req0 tr'. unfold ste.execute.
    match goal with
    | |- context [ste.retry_loop _ _ _ _ _ _ ?st0 _] =>
        destruct (retry_loop' fuel st0 0%nat) as [[out ev]|] eqn:Hloop;
          [apply (retry_loop_bodies fuel st0 0%nat out ev I) in Hloop
          |discriminate]
    end.
    destruct out as [st'|]; intros [= <-]; [|lia].
    rewrite closes_app, responses_app, failures_app.
    destruct (after_loop_bodies st' (0 + ste.attempts ev))
      as (-> & Hle & Hquiet & Hok).
    destruct Hloop as [[Heq Hun]|(Heq & Herr & Hresp)].
    - split; [lia|]. intros Hfail.
      apply app_eq_nil in Hfail as [_ Hfail].
      specialize (Hquiet Hun Hfail). lia.
    - specialize (Hok Herr Hresp). split; [lia|]. intros _. lia. }
  unfold ste.downloadChunk.
  destruct (http.NewRequestWithContext "GET" (ste.sourceURL hd)) as [req0|e].
  2:{ intros [= <-]. cbv. split; [lia | reflexivity]. }
  destruct (ste.supportsRange hd).
  - destruct (ste.execute _ _ _ _ _ _ _ _) as [tr'|] eqn:Hrun; [|discriminate].
    intros [= <-]. exact (Hexec _ _ Hrun).
  - destruct (0 <? ste.OffsetInFile id).
    + intros [= <-]. cbv. split; [lia | reflexivity].
    + destruct (ste.execute _ _ _ _ _ _ _ _) as [tr'|] eqn:Hrun;
        [|discriminate].
      intros [= <-]. exact (Hexec _ _ Hrun).
Qed.

End ChunkBodies.

(** ** The decomposed URL *)

Lemma substring_tail (s : string) (n m : nat) :
  match String.substring n m s with
  | EmptyString => String.substring (S n) (m - 1) s = EmptyString
  | String _ rest => rest = String.substring (S n) (m - 1) s
  end.
Proof.
  revert n m. induction s as [|c s IH]; intros n m.
  - destruct n, m; reflexivity.
  - destruct n as [|n].
    + destruct m as [|m]; simpl.
      * now destruct s.
      * now rewrite Nat.sub_0_r.
    + exact (IH n m).
Qed.

Lemma Port_digits (u : url.URL) : url.all_digits (url.Port u) = true.
Proof.
  unfold url.Port, url.splitHostPort.
  destruct (strings.LastIndexByte (url.Host u) ":") as [colon|];
    [|reflexivity].
  destruct (url.validOptionalPort _) eqn:Hvalid; [|reflexivity].
  simpl.
  pose proof (substring_tail (url.Host u) colon
                (String.length (url.Host u) - colon)) as Htail.
  replace (String.length (url.Host u) - colon - 1)%nat
    with (String.length (url.Host u) - S colon)%nat in Htail by lia.
  destruct (String.substring colon _ (url.Host u)) as [|c rest].
  - now rewrite Htail.
  - rewrite <- Htail. simpl in Hvalid.
    now apply andb_true_iff in Hvalid as [_ Hdigits].
Qed.

Section Decomposed.

Context `{GoStdlib}.

(** X16: what holds of every URL that decomposed.  It was not empty and
    is kept as given; [IsSecure] is true exactly when the scheme is
    [https] and false exactly when it is [http]; the port is empty or made
    of decimal digits. *)
Theorem decomposed_url_invariant (u : string) (parts : common.HTTPURLParts) :
  common.NewHTTPURLParts u = Ok parts ->
  u <> "" /\
  common.String parts = u /\
  (common.IsSecure parts = true <-> common.Scheme parts = "https") /\
  (common.IsSecure parts = false <-> common.Scheme parts = "http") /\
  url.all_digits (common.Port parts) = true.
Proof.
  unfold common.NewHTTPURLParts, common.IsSecure, common.String.
  destruct (String.eqb_spec u "") as [|Hne]; [discriminate|].
  destruct (url_Parse u) as [parsed|e]; [|discriminate].
  destruct (String.eqb_spec (url.Scheme parsed) "http") as [Hhttp|Hhttp];
    destruct (String.eqb_spec (url.Scheme parsed) "https") as [Hhttps|Hhttps];
    simpl; intros [= <-]; simpl.
  - congruence.
  - rewrite Hhttp. simpl. repeat split; try congruence; try discriminate.
    apply Port_digits.
  - rewrite Hhttps. simpl. repeat split; try congruence; try discriminate.
    apply Port_digits.
Qed.

End Decomposed.

(** ** What a chunk function never does *)

Lemma panicked_app (a b : list ste.Event) :
  panicked (a ++ b) = panicked a || panicked b.
Proof. apply existsb_app. Qed.

Section ChunkPanics.

Context `{GoStdlib}.

Variable net : nat -> http.Request -> http.DoResult.
Variable enqueue : option error.
Variable hd : ste.httpDownloader.
Variable id : ste.ChunkID.
Variable length_ : Z.
Variable maxRetries : Z.

Local Abbreviation first_state :=
  {| ste.retries := 0; ste.req := chunk_request hd id length_;
     ste.resp := None; ste.err := None |}.

Lemma retry_loop_no_nil (fuel : nat) (st : ste.LoopState) (calls : nat)
    (out : ste.LoopExit) (ev : list ste.Event) :
  ste.retry_loop net hd id length_ maxRetries fuel st calls = Some (out, ev) ->
  panicked ev = false.
Proof.
  revert st calls out ev.
  induction fuel as [|fuel IH]; intros st calls out ev; simpl;
    [discriminate|].
  destruct (ste.retries st <=? maxRetries); [|now intros [= <- <-]].
  destruct (ste.loop_body net hd id length_ maxRetries st calls)
    as [step ev1] eqn:Hbody.
  assert (Hev1 : panicked ev1 = false).
  { unfold ste.loop_body in Hbody.
    destruct (net calls (ste.req st)) as [e|r];
      [|destruct (ste.status_ok r)];
      try (destruct (_ <=? maxRetries);
           [destruct (http.NewRequestWithContext _ _)|]);
      injection Hbody as <- <-; reflexivity. }
  destruct step as [st1|st1|].
  - destruct (ste.retry_loop net hd id length_ maxRetries fuel st1 (S calls))
      as [[out2 ev2]|] eqn:Hrest; [|discriminate].
    intros [= <- <-]. rewrite panicked_app, Hev1. exact (IH _ _ _ _ Hrest).
  - now intros [= <- <-].
  - now intros [= <- <-].
Qed.

(** X21: a chunk function reads the status of a nil response exactly
    when the retry budget is negative and the request could be built and
    passed the range check: the loop body then never runs, so no request
    is sent and no response is at hand.  With a budget that is not
    negative this never happens. *)
Theorem chunk_nil_dereference (fuel : nat) (tr : list ste.Event) :
  maxRetries < max_int64 ->
  ste.downloadChunk net enqueue hd id length_ maxRetries fuel = Some tr ->
  (panicked tr = true <->
   maxRetries < 0 /\
   is_Ok (url_Parse (ste.sourceURL hd)) = true /\
   (ste.supportsRange hd = true \/ ste.OffsetInFile id <= 0)) /\
  (maxRetries < 0 -> ste.attempts tr = 0%nat).
Proof.
  intros Hmax Hrun.
  destruct (Z.lt_ge_cases maxRetries 0) as [Hneg|Hpos].
  - assert (Hexec : forall req0 tr',
      ste.execute net enqueue hd id length_ maxRetries req0 fuel = Some tr' ->
      tr' = [ste.NilDereference]).
    { intros req0 tr'. unfold ste.execute.
      destruct fuel as [|fuel]; [discriminate|]. simpl.
      destruct (Z.leb_spec 0 maxRetries); [lia|]. now intros [= <-]. }
    unfold ste.downloadChunk in Hrun.
    destruct (http.NewRequestWithContext "GET" (ste.sourceURL hd))
      as [req0|e] eqn:Hreq.
    2:{ apply NewRequestWithContext_err in Hreq. injection Hrun as <-.
        split; [|reflexivity].
        split; [discriminate | intros (_ & Hparse & _); congruence]. }
    apply NewRequestWithContext_inv in Hreq as [-> Hparse].
    destruct (ste.supportsRange hd) eqn:Hranged.
    + destruct (ste.execute _ _ _ _ _ _ _ _) as [tr'|] eqn:Hrun';
        [|discriminate].
      apply Hexec in Hrun' as ->. injection Hrun as <-.
      split; [|reflexivity]. split; [intros _ | reflexivity].
      split; [exact Hneg|]. split; [exact Hparse | now left].
    + destruct (Z.ltb_spec 0 (ste.OffsetInFile id)) as [Hoff|Hoff].
      * injection Hrun as <-. split; [|reflexivity].
        split; [discriminate|]. intros (_ & _ & [?|?]); [discriminate | lia].
      * destruct (ste.execute _ _ _ _ _ _ _ _) as [tr'|] eqn:Hrun';
          [|discriminate].
        apply Hexec in Hrun' as ->. injection Hrun as <-.
        split; [|reflexivity]. split; [intros _ | reflexivity].
        split; [exact Hneg|]. split; [exact Hparse | now right].
  - split; [|lia].
    enough (panicked tr = false) as -> by (split; [discriminate | lia]).
    destruct (downloadChunk_cases net enqueue hd id length_ maxRetries fuel tr
                ltac:(lia) Hrun)
      as [(e & _ & ->) | [(_ & _ & e & ->)
                         | (Hparse & _ & st' & ev & Hloop & ->)]];
      [reflexivity | reflexivity |].
    change (ste.LogChunkStatus id ste.HeaderResponse
              :: ev ++ ste.after_loop enqueue id length_ st')
      with ([ste.LogChunkStatus id ste.HeaderResponse]
              ++ ev ++ ste.after_loop enqueue id length_ st').
    rewrite !panicked_app, (retry_loop_no_nil _ _ _ _ _ Hloop). simpl.
    destruct (retry_loop_trace net hd id length_ maxRetries ltac:(lia) Hparse
                fuel first_state 0%nat _ ev eq_refl ltac:(simpl; lia) Hloop)
      as (_ & _ & _ & _ & _ & _ & st'' & [= <-] & Hfin).
    unfold ste.after_loop.
    destruct Hfin as [(_ & r & _ & Hok & -> & ->) | (Hend & _ & Hlast)].
    + unfold ste.status_ok in Hok.
      destruct (http.StatusCode r =? http.StatusOK),
               (http.StatusCode r =? http.StatusPartialContent);
        try discriminate; now destruct enqueue.
    + simpl in Hend. destruct (Hlast ltac:(lia)) as [Hbad Hrefl].
      destruct (net _ _) as [e|r]; destruct Hrefl as [-> ->];
        [reflexivity|].
      destruct (negb _ && negb _); [reflexivity | now destruct enqueue].
Qed.

(** X22: a chunk function reports failures at four places only: where
    the request is created, at the range check, after the retry loop and
    after the chunk was handed to the writer.  The failure of the loop,
    [Creating HTTP request for retry], is never reported: where the first
    request could be created, creating it again does not fail. *)
Theorem chunk_failure_places (fuel : nat) (tr : list ste.Event) :
  0 <= maxRetries < max_int64 ->
  ste.downloadChunk net enqueue hd id length_ maxRetries fuel = Some tr ->
  Forall (fun failure => In (fst failure) failure_places) (ste.failures tr) /\
  ~ In "Creating HTTP request for retry" (fst <$> ste.failures tr).
Proof.
  intros budget Hrun.
  enough (Hplaces :
    Forall (fun failure => In (fst failure) failure_places) (ste.failures tr)).
  { split; [exact Hplaces|]. intros Hin.
    apply list_elem_of_In, list_elem_of_fmap in Hin as ([w e] & Hw & Hin).
    rewrite Forall_forall in Hplaces. specialize (Hplaces _ Hin).
    simpl in Hw, Hplaces. subst w.
    destruct Hplaces as [?|[?|[?|[?|[]]]]]; discriminate. }
  destruct (downloadChunk_cases net enqueue hd id length_ maxRetries fuel tr
              budget Hrun)
    as [(e & _ & ->) | [(_ & _ & e & ->)
                       | (Hparse & _ & st' & ev & Hloop & ->)]].
  - repeat constructor.
  - constructor; [right; now left | constructor].
  - destruct (retry_loop_trace net hd id length_ maxRetries budget Hparse
                fuel first_state 0%nat _ ev eq_refl ltac:(simpl; lia) Hloop)
      as (_ & Hfail & _).
    change (ste.LogChunkStatus id ste.HeaderResponse
              :: ev ++ ste.after_loop enqueue id length_ st')
      with ([ste.LogChunkStatus id ste.HeaderResponse]
              ++ ev ++ ste.after_loop enqueue id length_ st').
    rewrite !failures_app, Hfail. simpl. unfold ste.after_loop.
    destruct (ste.err st'); [constructor; [simpl; auto 10 | constructor]|].
    destruct (ste.resp st'); [|constructor].
    destruct (negb _ && negb _);
      [constructor; [simpl; auto 10 | constructor]|].
    destruct enqueue; simpl;
      [constructor; [simpl; auto 10 | constructor] | constructor].
Qed.

End ChunkPanics.

(** ** Decimal numbers, written and read *)

Lemma digit_pretty_N_char (m : N) :
  (m < 10)%N ->
  strconv.digit (pretty_N_char m) = Some (Z.of_N m) /\
  Ascii.eqb (pretty_N_char m) "-" = false /\
  Ascii.eqb (pretty_N_char m) "+" = false.
Proof.
  intros Hm.
  assert (m = 0 \/ m = 1 \/ m = 2 \/ m = 3 \/ m = 4 \/ m = 5 \/ m = 6 \/
          m = 7 \/ m = 8 \/ m = 9)%N as Hcases by lia.
  repeat (destruct Hcases as [->|Hcases]; [now vm_compute|]).
  subst m. now vm_compute.
Qed.

Lemma digits_pretty_N_go (x : N) (s : string) :
  strconv.digits (pretty_N_go x s) 0 = strconv.digits s (Z.of_N x).
Proof.
  revert s. induction (N.lt_wf_0 x) as [x _ IH]; intros s.
  destruct (N.eq_dec x 0%N) as [->|Hx]; [now rewrite pretty_N_go_0|].
  rewrite pretty_N_go_step by lia.
  rewrite IH by (apply N.div_lt; lia). simpl.
  destruct (digit_pretty_N_char (x mod 10)%N) as (-> & _);
    [apply N.mod_lt; lia|].
  f_equal. rewrite <- N2Z.inj_mul with (n := 10%N), <- N2Z.inj_add.
  f_equal. symmetry. apply N.div_mod. lia.
Qed.

Lemma pretty_N_go_app (x : N) (s t : string) :
  pretty_N_go x s +:+ t = pretty_N_go x (s +:+ t).
Proof.
  revert s. induction (N.lt_wf_0 x) as [x _ IH]; intros s.
  destruct (N.eq_dec x 0%N) as [->|Hx]; [now rewrite !pretty_N_go_0|].
  rewrite (pretty_N_go_step x s), (pretty_N_go_step x (s +:+ t)) by lia.
  rewrite IH by (apply N.div_lt; lia). reflexivity.
Qed.

Lemma Split_pretty_N_go (x : N) (s : string) :
  strings.Split (pretty_N_go x s) "-" =
  match strings.Split s "-" with
  | seg :: rest => pretty_N_go x seg :: rest
  | [] => []
  end.
Proof.
  revert s. induction (N.lt_wf_0 x) as [x _ IH]; intros s.
  destruct (N.eq_dec x 0%N) as [->|Hx].
  { rewrite pretty_N_go_0. destruct (strings.Split s "-") as [|seg rest] eqn:Hs;
      [now apply Split_not_nil in Hs | now rewrite pretty_N_go_0]. }
  rewrite pretty_N_go_step by lia.
  rewrite IH by (apply N.div_lt; lia). simpl.
  destruct (digit_pretty_N_char (x mod 10)%N) as (_ & -> & _);
    [apply N.mod_lt; lia|].
  destruct (strings.Split s "-") as [|seg rest] eqn:Hs;
    [now apply Split_not_nil in Hs|].
  now rewrite (pretty_N_go_step x seg) by lia.
Qed.

(** A positive number is written with a digit first. *)
Lemma pretty_N_go_first (x : N) (s : string) :
  (0 < x)%N ->
  exists c rest,
    pretty_N_go x s = String c rest /\
    Ascii.eqb c "+" = false /\ Ascii.eqb c "-" = false.
Proof.
  revert s. induction (N.lt_wf_0 x) as [x _ IH]; intros s Hx.
  rewrite pretty_N_go_step by lia.
  destruct (N.eq_dec (x / 10)%N 0%N) as [Hsmall|Hbig].
  - rewrite Hsmall, pretty_N_go_0.
    destruct (digit_pretty_N_char (x mod 10)%N) as (_ & Hdash & Hplus);
      [apply N.mod_lt; lia|].
    now eexists _, _.
  - apply IH; [apply N.div_lt; lia | now apply N.neq_0_lt_0].
Qed.

Lemma itoa_nonneg (z : Z) :
  0 <= z ->
  itoa z = if z =? 0 then "0" else pretty_N_go (Z.to_N z) "".
Proof. intros Hz. destruct z as [|p|p]; [reflexivity | reflexivity | lia]. Qed.

(** What [%d] writes of a number that fits, [strconv.ParseInt] reads
    back. *)
Lemma ParseInt_itoa (z : Z) :
  0 <= z <= max_int64 ->
  strconv.ParseInt (itoa z) = Ok z /\ strconv.ParseInt_value (itoa z) = z.
Proof.
  intros Hz. rewrite itoa_nonneg by lia.
  destruct (Z.eqb_spec z 0) as [->|Hne]; [now vm_compute|].
  pose proof (digits_pretty_N_go (Z.to_N z) "") as Hdigits.
  destruct (pretty_N_go_first (Z.to_N z) "" ltac:(lia))
    as (c & rest & Heq & Hplus & Hdash).
  rewrite Heq in *. unfold strconv.ParseInt, strconv.ParseInt_value.
  rewrite Hplus, Hdash, Hdigits. simpl strconv.digits.
  rewrite Z2N.id by lia. unfold max_int64 in Hz.
  destruct (Z.leb_spec (2 ^ 63) z) as [Hbig|_]; [lia|]. now simpl.
Qed.

Lemma Split_itoa (a : Z) (t : string) :
  0 <= a ->
  strings.Split (itoa a +:+ t) "-" =
  match strings.Split t "-" with
  | seg :: rest => (itoa a +:+ seg) :: rest
  | [] => []
  end.
Proof.
  intros Ha. rewrite itoa_nonneg by lia.
  destruct (Z.eqb_spec a 0) as [->|Hne].
  - rewrite append_cons, append_nil_l. simpl.
    destruct (strings.Split t "-") as [|seg rest] eqn:Ht;
      [now apply Split_not_nil in Ht | reflexivity].
  - rewrite pretty_N_go_app, append_nil_l, Split_pretty_N_go.
    destruct (strings.Split t "-") as [|seg rest]; [reflexivity|].
    now rewrite pretty_N_go_app, append_nil_l.
Qed.

Lemma Split_range (a b : Z) :
  0 <= a -> 0 <= b ->
  strings.Split (itoa a +:+ "-" +:+ itoa b) "-" = [itoa a; itoa b].
Proof.
  intros Ha Hb. rewrite Split_itoa by lia.
  rewrite append_cons, append_nil_l. simpl.
  pose proof (Split_itoa b "" Hb) as Hsplit. simpl in Hsplit.
  assert (Hnil : forall s : string, s +:+ "" = s)
    by (induction s as [|c s IH]; [reflexivity | now rewrite append_cons, IH]).
  rewrite !Hnil in Hsplit. now rewrite Hsplit, Hnil.
Qed.

(** ** The downloader and the traverser against the test server *)

Lemma TrimPrefix_bytes (rest : string) :
  strings.TrimPrefix ("bytes=" +:+ rest) "bytes=" = rest.
Proof.
  rewrite !append_cons, append_nil_l. unfold strings.TrimPrefix. simpl.
  replace (strings.HasPrefix rest "") with true by now destruct rest.
  rewrite ?Nat.sub_0_r. apply substring_0_all.
Qed.

Section TestServer.

Context `{GoStdlib}.

Variable md5_Sum : list Byte.byte -> list Byte.byte.
Variable base64_EncodeToString : list Byte.byte -> string.

Local Abbreviation handler := (e2etest.handler md5_Sum base64_EncodeToString).

Lemma chunk_request_Get (hd : ste.httpDownloader) (id : ste.ChunkID)
    (length_ : Z) :
  http.Method (chunk_request hd id length_) = "GET" /\
  http.Get (http.ReqHeader (chunk_request hd id length_)) "Range" =
    (if ste.supportsRange hd then ste.rangeHeader id length_ else "") /\
  http.Get (http.ReqHeader (chunk_request hd id length_)) "Authorization" =
    (if String.eqb (ste.bearerToken hd) "" then ""
     else "Bearer " +:+ ste.bearerToken hd).
Proof.
  unfold http.Get, chunk_request, ste.add_auth_and_if_match, http.set_header,
    http.Set_.
  change (http.CanonicalMIMEHeaderKey "Range") with "Range".
  change (http.CanonicalMIMEHeaderKey "Authorization") with "Authorization".
  change (http.CanonicalMIMEHeaderKey "If-Match") with "If-Match".
  destruct (ste.supportsRange hd);
    destruct (String.eqb (ste.bearerToken hd) "");
    destruct (String.eqb (ste.etag hd) ""); simpl;
    repeat split;
    repeat first [ rewrite lookup_insert_eq
                 | rewrite lookup_insert_ne by congruence
                 | rewrite lookup_empty ];
    reflexivity.
Qed.

Lemma head_request_Get (u token : string) :
  http.Method (head_request u token) = "HEAD" /\
  http.Get (http.ReqHeader (head_request u token)) "Authorization" =
    (if String.eqb token "" then "" else "Bearer " +:+ token).
Proof.
  unfold http.Get, head_request.
  change (http.CanonicalMIMEHeaderKey "Authorization") with "Authorization".
  destruct (String.eqb token ""); simpl; split; reflexivity.
Qed.

(** Credentials that are in order pass the check of the handler. *)
Lemma authorized_passes (opts : e2etest.httpServerOptions) (token : string) :
  authorized opts token ->
  e2etest.requireAuth opts &&
  negb (String.eqb (if String.eqb token "" then "" else "Bearer " +:+ token)
                   ("Bearer " +:+ e2etest.validToken opts)) = false.
Proof.
  intros [-> | [Hne ->]]; [reflexivity|].
  apply String.eqb_neq in Hne. rewrite Hne, String.eqb_refl.
  apply andb_false_r.
Qed.

(** What the handler sends in answer to the request for a chunk, with
    ranges on both sides. *)
Lemma handler_range_request (data : list Byte.byte)
    (opts : e2etest.httpServerOptions) (hd : ste.httpDownloader)
    (id : ste.ChunkID) (length_ : Z) :
  ste.supportsRange hd = true ->
  e2etest.supportRanges opts = true ->
  e2etest.simulateError opts = false ->
  authorized opts (ste.bearerToken hd) ->
  Z.of_nat (length data) <= max_int64 ->
  0 <= ste.OffsetInFile id ->
  1 <= length_ ->
  ste.OffsetInFile id + length_ <= max_int64 ->
  let calls := handler data opts (chunk_request hd id length_) in
  e2etest.panics calls = false /\
  if ste.OffsetInFile id <? Z.of_nat (length data) then
    e2etest.status calls = Some http.StatusPartialContent /\
    e2etest.body calls =
      take (Z.to_nat length_) (drop (Z.to_nat (ste.OffsetInFile id)) data) /\
    http.Get (e2etest.headers calls ∅) "Content-Length" =
      itoa (Z.of_nat (length (e2etest.body calls)))
  else
    e2etest.status calls = Some e2etest.StatusRequestedRangeNotSatisfiable /\
    e2etest.body calls = [].
Proof.
  intros Hranged Hranges Hsim Hauth Hlen Hoff Hlength Hend calls.
  subst calls. unfold e2etest.handler.
  destruct (chunk_request_Get hd id length_) as (-> & -> & ->).
  rewrite (authorized_passes opts _ Hauth), Hsim, Hranged, Hranges.
  change (String.eqb "GET" "HEAD") with false. cbv iota.
  unfold ste.rangeHeader.
  rewrite (wrap64_id (ste.OffsetInFile id + length_))
    by (unfold in_int64, min_int64, max_int64 in *; lia).
  rewrite (wrap64_id (ste.OffsetInFile id + length_ - 1))
    by (unfold in_int64, min_int64, max_int64 in *; lia).
  rewrite TrimPrefix_bytes, Split_range by lia.
  rewrite (proj2 (ParseInt_itoa (ste.OffsetInFile id) ltac:(lia))).
  rewrite (proj2 (ParseInt_itoa (ste.OffsetInFile id + length_ - 1)
                    ltac:(lia))).
  match goal with
  | |- context [String.eqb ("bytes=" +:+ ?x) ""] =>
      change (String.eqb ("bytes=" +:+ x) "") with false
  end.
  cbn [negb andb].
  pose proof (length_drop data (Z.to_nat (ste.OffsetInFile id))) as Hdrop.
  set (rest := drop (Z.to_nat (ste.OffsetInFile id)) data) in *.
  set (len := Z.of_nat (length data)) in *.
  set (off := ste.OffsetInFile id) in *.
  destruct (Z.ltb_spec off 0) as [?|_]; [lia|].
  destruct (Z.leb_spec len off) as [Hpast|Hin]; cbn [orb].
  { destruct (Z.ltb_spec off len); [lia|]. now repeat split. }
  destruct (Z.ltb_spec off len) as [_|?]; [|lia].
  set (last := if len <=? off + length_ - 1 then wrap64 (len - 1)
               else off + length_ - 1).
  assert (Hlast : last = Z.min (off + length_ - 1) (len - 1)).
  { subst last. unfold max_int64 in *.
    destruct (Z.leb_spec len (off + length_ - 1));
      [rewrite wrap64_id by (unfold in_int64, min_int64, max_int64; lia)|];
      lia. }
  unfold max_int64 in *.
  rewrite (wrap64_id (last + 1)), (wrap64_id (last - off)),
    (wrap64_id (last - off + 1))
    by (unfold in_int64, min_int64, max_int64; lia).
  destruct (Z.leb_spec off (last + 1)); [|lia].
  split; [reflexivity|]. split; [reflexivity|].
  assert (Hbody : take (Z.to_nat (last + 1 - off)) rest =
                  take (Z.to_nat length_) rest).
  { destruct (Z.leb_spec len (off + length_ - 1)).
    - rewrite !take_ge by lia. reflexivity.
    - f_equal. lia. }
  simpl. rewrite app_nil_r. split; [exact Hbody|].
  unfold http.Get, http.Set_.
  change (http.CanonicalMIMEHeaderKey "Content-Length") with "Content-Length".
  change (http.CanonicalMIMEHeaderKey "Content-Range") with "Content-Range".
  change (http.CanonicalMIMEHeaderKey "Accept-Ranges") with "Accept-Ranges".
  rewrite lookup_insert_ne by discriminate. rewrite lookup_insert_eq.
  f_equal. rewrite length_take. lia.
Qed.
(** X17: the test server answers the downloader's request for a chunk
    with the bytes of that chunk.  For a downloader that found range
    support and a server that supports ranges and accepts its credentials,
    the request for the chunk at [offset] of [length] bytes is answered
    206 with [data[offset : offset+length]], cut at the end of the data,
    under a [Content-Length] that is the length of this body; and 416 with
    no body when the offset is past the data.  The handler does not panic. *)
Theorem server_serves_chunk (data : list Byte.byte)
    (opts : e2etest.httpServerOptions) (hd : ste.httpDownloader)
    (id : ste.ChunkID) (length_ : Z) :
  ste.supportsRange hd = true ->
  e2etest.supportRanges opts = true ->
  e2etest.simulateError opts = false ->
  authorized opts (ste.bearerToken hd) ->
  Z.of_nat (length data) <= max_int64 ->
  0 <= ste.OffsetInFile id ->
  1 <= length_ ->
  ste.OffsetInFile id + length_ <= max_int64 ->
  let calls := handler data opts (chunk_request hd id length_) in
  e2etest.panics calls = false /\
  if ste.OffsetInFile id <? Z.of_nat (length data) then
    e2etest.status calls = Some http.StatusPartialContent /\
    e2etest.body calls =
      take (Z.to_nat length_) (drop (Z.to_nat (ste.OffsetInFile id)) data) /\
    http.Get (e2etest.headers calls ∅) "Content-Length" =
      itoa (Z.of_nat (length (e2etest.body calls)))
  else
    e2etest.status calls = Some e2etest.StatusRequestedRangeNotSatisfiable /\
    e2etest.body calls = [].
Proof.
  intros Hranged Hranges Hsim Hauth Hlen Hoff Hlength Hend.
  exact (handler_range_request data opts hd id length_ Hranged Hranges Hsim
           Hauth Hlen Hoff Hlength Hend).
Qed.


Lemma unauthorized_fails (opts : e2etest.httpServerOptions) (token : string) :
  ~ authorized opts token ->
  e2etest.requireAuth opts &&
  negb (String.eqb (if String.eqb token "" then "" else "Bearer " +:+ token)
                   ("Bearer " +:+ e2etest.validToken opts)) = true.
Proof.
  unfold authorized. intros Hno.
  destruct (e2etest.requireAuth opts); [|now destruct Hno; left].
  destruct (String.eqb_spec token "") as [->|Hne]; [reflexivity|].
  change (String.eqb ("Bearer " +:+ token)
                     ("Bearer " +:+ e2etest.validToken opts))
    with (String.eqb token (e2etest.validToken opts)).
  destruct (String.eqb_spec token (e2etest.validToken opts)) as [Heq|Hdiff];
    [|reflexivity].
  destruct Hno. right. now split.
Qed.

(** What the handler sends in answer to a HEAD request that passes its
    checks. *)
Lemma handler_head (data : list Byte.byte) (opts : e2etest.httpServerOptions)
    (u token : string) :
  authorized opts token ->
  e2etest.simulateError opts = false ->
  let calls := handler data opts (head_request u token) in
  e2etest.status calls = Some http.StatusOK /\
  e2etest.body calls = [] /\
  http.Get (e2etest.headers calls ∅) "Accept-Ranges" =
    (if e2etest.supportRanges opts then "bytes" else "") /\
  http.Get (e2etest.headers calls ∅) "Content-Length" =
    itoa (Z.of_nat (length data)) /\
  http.Get (e2etest.headers calls ∅) "ETag" = e2etest.test_etag.
Proof.
  intros Hauth Hsim calls. subst calls. unfold e2etest.handler.
  destruct (head_request_Get u token) as (-> & ->).
  rewrite (authorized_passes opts _ Hauth), Hsim.
  change (String.eqb "HEAD" "HEAD") with true. cbv iota.
  unfold http.Get.
  change (http.CanonicalMIMEHeaderKey "Accept-Ranges") with "Accept-Ranges".
  change (http.CanonicalMIMEHeaderKey "Content-Length") with "Content-Length".
  change (http.CanonicalMIMEHeaderKey "ETag") with "Etag".
  destruct (e2etest.supportRanges opts), (e2etest.returnMD5 opts); simpl;
    unfold http.Set_;
    change (http.CanonicalMIMEHeaderKey "Accept-Ranges") with "Accept-Ranges";
    change (http.CanonicalMIMEHeaderKey "Content-Length")
      with "Content-Length";
    change (http.CanonicalMIMEHeaderKey "Content-MD5") with "Content-Md5";
    change (http.CanonicalMIMEHeaderKey "ETag") with "Etag";
    repeat split;
    repeat first [ rewrite lookup_insert_eq
                 | rewrite lookup_insert_ne by discriminate
                 | rewrite lookup_empty ];
    reflexivity.
Qed.

(** X18: the traverser reads the test server.  When the response to the
    traverser's probe shows what the handler sent, then with credentials
    in order the traverser is built with the length of the served data as
    size, range support as the server is configured, and the server's
    entity tag; and with a server that requires credentials and a token
    that is missing or not the valid one, the construction fails on
    status 401. *)
Theorem traverser_reads_server (client : http.Request -> http.DoResult)
    (data : list Byte.byte) (opts : e2etest.httpServerOptions)
    (u token : string) (parts : common.HTTPURLParts) (resp : http.Response) :
  common.NewHTTPURLParts u = Ok parts ->
  client (head_request u token) = http.DoResp resp ->
  shows resp (handler data opts (head_request u token)) ->
  Z.of_nat (length data) <= max_int64 ->
  (authorized opts token -> e2etest.simulateError opts = false ->
   exists t : cmd.httpTraverser,
     cmd.newHTTPTraverser client u token = Ok t /\
     cmd.contentLength t = Z.of_nat (length data) /\
     cmd.supportsRange t = e2etest.supportRanges opts /\
     cmd.etag t = e2etest.test_etag) /\
  (~ authorized opts token ->
   cmd.newHTTPTraverser client u token =
   Err ("failed to detect HTTP capabilities: " +:+
        "HEAD request returned status 401: " +:+ http.Status resp)).
Proof.
  intros Hparts Hdo [Hstatus Hheaders] Hlen.
  rewrite (newHTTPTraverser_probe _ u token parts Hparts), Hdo.
  inversion Hheaders as [|? ? Hranges Hrest]; subst.
  inversion Hrest as [|? ? Hlength Hrest']; subst.
  inversion Hrest' as [|? ? Hetag _]; subst.
  split.
  - intros Hauth Hsim.
    destruct (handler_head data opts u token Hauth Hsim)
      as (Hst & _ & Hr & Hl & He).
    rewrite Hst in Hstatus. injection Hstatus as <-.
    rewrite Hr in Hranges. rewrite Hl in Hlength. rewrite He in Hetag.
    change (negb (http.StatusOK =? http.StatusOK)) with false. cbv iota.
    eexists. split; [reflexivity|]. simpl.
    rewrite Hranges, Hlength, Hetag.
    destruct (ParseInt_itoa (Z.of_nat (length data)) ltac:(lia))
      as [Hparse _].
    split; [|split; [now destruct (e2etest.supportRanges opts) | reflexivity]].
    destruct (String.eqb_spec (itoa (Z.of_nat (length data))) "") as [Heq|_];
      [rewrite Heq in Hparse; discriminate | now rewrite Hparse].
  - intros Hno. unfold e2etest.handler in Hstatus.
    destruct (head_request_Get u token) as (_ & Hget).
    rewrite Hget, (unauthorized_fails opts token Hno) in Hstatus.
    injection Hstatus as <-. reflexivity.
Qed.

(** X19: without ranges the test server sends the whole file.  When the
    downloader found no range support, and so sends no [Range] header, or
    when the server is set up without range support, the request for a
    chunk that passes the checks is answered 200 with all the data, under
    a [Content-Length] that is their length, whatever chunk was asked
    for. *)
Theorem server_serves_whole_file (data : list Byte.byte)
    (opts : e2etest.httpServerOptions) (hd : ste.httpDownloader)
    (id : ste.ChunkID) (length_ : Z) :
  ste.supportsRange hd = false \/ e2etest.supportRanges opts = false ->
  e2etest.simulateError opts = false ->
  authorized opts (ste.bearerToken hd) ->
  let calls := handler data opts (chunk_request hd id length_) in
  e2etest.panics calls = false /\
  e2etest.status calls = Some http.StatusOK /\
  e2etest.body calls = data /\
  http.Get (e2etest.headers calls ∅) "Content-Length" =
    itoa (Z.of_nat (length data)).
Proof.
  intros Hnone Hsim Hauth calls. subst calls. unfold e2etest.handler.
  destruct (chunk_request_Get hd id length_) as (-> & -> & ->).
  rewrite (authorized_passes opts _ Hauth), Hsim.
  change (String.eqb "GET" "HEAD") with false. cbv iota.
  assert (Hfull :
    negb (String.eqb (if ste.supportsRange hd
                      then ste.rangeHeader id length_ else "") "") &&
    e2etest.supportRanges opts = false).
  { destruct Hnone as [-> | ->]; [reflexivity | apply andb_false_r]. }
  rewrite Hfull. unfold http.Get.
  change (http.CanonicalMIMEHeaderKey "Content-Length") with "Content-Length".
  destruct (e2etest.supportRanges opts), (e2etest.returnMD5 opts); simpl;
    unfold http.Set_;
    change (http.CanonicalMIMEHeaderKey "Accept-Ranges") with "Accept-Ranges";
    change (http.CanonicalMIMEHeaderKey "Content-Length")
      with "Content-Length";
    change (http.CanonicalMIMEHeaderKey "Content-MD5") with "Content-Md5";
    rewrite app_nil_r;
    repeat split;
    repeat first [ rewrite lookup_insert_eq
                 | rewrite lookup_insert_ne by discriminate
                 | rewrite lookup_empty ];
    reflexivity.
Qed.

(** X20: a segmented download from the test server puts the file
    together again.  When chunks of one size are requested at the offsets
    0, size, 2 * size, ... until the data are covered, each request as the
    downloader builds it, the bodies the handler sends, in this order, are
    the data: no byte is lost, repeated or out of place, also when the
    last chunk reaches past the end. *)
Theorem segmented_download_reassembles (data : list Byte.byte)
    (opts : e2etest.httpServerOptions) (hd : ste.httpDownloader)
    (name : string) (chunkSize : Z) (n : nat) :
  ste.supportsRange hd = true ->
  e2etest.supportRanges opts = true ->
  e2etest.simulateError opts = false ->
  authorized opts (ste.bearerToken hd) ->
  1 <= chunkSize ->
  Z.of_nat (length data) <= Z.of_nat n * chunkSize <= max_int64 ->
  concat
    ((fun k : nat =>
        e2etest.body
          (handler data opts
             (chunk_request hd
                {| ste.Name := name;
                   ste.OffsetInFile := Z.of_nat k * chunkSize |}
                chunkSize)))
     <$> seq 0 n) = data.
Proof.
  intros Hranged Hranges Hsim Hauth Hsize [Hcover Hfits].
  assert (Hbody : forall k : nat, (k < n)%nat ->
    e2etest.body
      (handler data opts
         (chunk_request hd
            {| ste.Name := name; ste.OffsetInFile := Z.of_nat k * chunkSize |}
            chunkSize)) =
    take (Z.to_nat chunkSize) (drop (k * Z.to_nat chunkSize) data)).
  { intros k Hk.
    destruct (handler_range_request data opts hd
                {| ste.Name := name;
                   ste.OffsetInFile := Z.of_nat k * chunkSize |}
                chunkSize Hranged Hranges Hsim Hauth ltac:(lia)
                ltac:(simpl; nia) Hsize ltac:(simpl; nia)) as [_ Hserved].
    simpl ste.OffsetInFile in Hserved.
    replace (k * Z.to_nat chunkSize)%nat
      with (Z.to_nat (Z.of_nat k * chunkSize)) by nia.
    destruct (Z.ltb_spec (Z.of_nat k * chunkSize) (Z.of_nat (length data)))
      as [Hin|Hpast].
    - now destruct Hserved as (_ & -> & _).
    - destruct Hserved as [_ ->].
      rewrite drop_ge by lia. now rewrite take_nil. }
  assert (Htake : forall m : nat, (m <= n)%nat ->
    concat
      ((fun k : nat =>
          e2etest.body
            (handler data opts
               (chunk_request hd
                  {| ste.Name := name;
                     ste.OffsetInFile := Z.of_nat k * chunkSize |}
                  chunkSize)))
       <$> seq 0 m) = take (m * Z.to_nat chunkSize) data).
  { induction m as [|m IH]; intros Hm; [reflexivity|].
    rewrite seq_S, fmap_app, concat_app, IH by lia. simpl.
    rewrite app_nil_r, Hbody by lia.
    rewrite take_take_drop. f_equal. lia. }
  rewrite (Htake n (le_n n)). apply take_ge. nia.
Qed.

End TestServer.

(** ** The further properties on concrete inputs *)

Lemma one_request_witness :
  0 <= 2 < max_int64 /\
  exists tr : list ste.Event,
    @ste.downloadChunk model_stdlib examples.not_found_then_partial None
      examples.ranged_downloader examples.second_chunk 500 2 10%nat = Some tr /\
    requests tr =
      replicate (ste.attempts tr)
        (chunk_request examples.ranged_downloader examples.second_chunk 500) /\
    http.ReqHeader
      (chunk_request examples.ranged_downloader examples.second_chunk 500)
      !! "Range" = Some ["bytes=500-999"].
Proof.
  assert (Hbudget : 0 <= 2 < max_int64) by (unfold max_int64; lia).
  split; [exact Hbudget|].
  destruct (@ste.downloadChunk model_stdlib examples.not_found_then_partial
              None examples.ranged_downloader examples.second_chunk 500 2
              10%nat) as [tr|] eqn:Hrun; [|vm_compute in Hrun; discriminate].
  exists tr. split; [reflexivity|].
  destruct (@chunk_requests_are_one_request model_stdlib
              examples.not_found_then_partial None examples.ranged_downloader
              examples.second_chunk 500 2 10%nat tr Hbudget Hrun)
    as (Hreqs & _ & _ & Hrange & _).
  split; [exact Hreqs | exact Hrange].
Defined.

Lemma backoff_witness :
  0 <= 2 < max_int64 /\
  exists tr : list ste.Event,
    @ste.downloadChunk model_stdlib examples.always_not_found None
      examples.ranged_downloader examples.second_chunk 500 2 10%nat = Some tr /\
    length (sleeps tr) = (ste.attempts tr - 1)%nat /\
    sleeps tr = backoff <$> seqZ 1 (Z.of_nat (ste.attempts tr) - 1).
Proof.
  assert (Hbudget : 0 <= 2 < max_int64) by (unfold max_int64; lia).
  split; [exact Hbudget|].
  destruct (@ste.downloadChunk model_stdlib examples.always_not_found
              None examples.ranged_downloader examples.second_chunk 500 2
              10%nat) as [tr|] eqn:Hrun; [|vm_compute in Hrun; discriminate].
  exists tr. split; [reflexivity|].
  destruct (@chunk_backoff_schedule model_stdlib
              examples.always_not_found None examples.ranged_downloader
              examples.second_chunk 500 2 10%nat tr Hbudget Hrun)
    as (Hlen & _ & Hsleeps).
  split; [exact Hlen | apply Hsleeps; lia].
Defined.

Lemma reports_once_witness :
  0 <= 2 < max_int64 /\
  exists tr : list ste.Event,
    @ste.downloadChunk model_stdlib examples.not_found_then_partial None
      examples.ranged_downloader examples.second_chunk 500 2 10%nat = Some tr /\
    (length (ste.failures tr) <= 1)%nat /\
    (length (enqueued tr) <= 1)%nat.
Proof.
  assert (Hbudget : 0 <= 2 < max_int64) by (unfold max_int64; lia).
  split; [exact Hbudget|].
  destruct (@ste.downloadChunk model_stdlib examples.not_found_then_partial
              None examples.ranged_downloader examples.second_chunk 500 2
              10%nat) as [tr|] eqn:Hrun; [|vm_compute in Hrun; discriminate].
  exists tr. split; [reflexivity|].
  destruct (@chunk_reports_once model_stdlib
              examples.not_found_then_partial None examples.ranged_downloader
              examples.second_chunk 500 2 10%nat tr Hbudget Hrun)
    as (Hfail & Henq & _).
  split; [exact Hfail | exact Henq].
Defined.

Lemma first_success_witness :
  0 <= 2 < max_int64 /\
  @url_Parse model_stdlib examples.file_url = Ok parsed_file_url /\
  ste.supportsRange examples.ranged_downloader = true /\
  examples.not_found_then_partial 1%nat
    (chunk_request examples.ranged_downloader examples.second_chunk 500)
  = http.DoResp (examples.get_response 206) /\
  exists tr : list ste.Event,
    @ste.downloadChunk model_stdlib examples.not_found_then_partial None
      examples.ranged_downloader examples.second_chunk 500 2 10%nat = Some tr /\
    ste.attempts tr = 2%nat /\
    enqueued tr = [(examples.second_chunk, 500, true)] /\
    ste.failures tr = [].
Proof.
  assert (Hbudget : 0 <= 2 < max_int64) by (unfold max_int64; lia).
  assert (Hparse :
    @url_Parse model_stdlib examples.file_url = Ok parsed_file_url)
    by (vm_compute; reflexivity).
  split; [exact Hbudget|]. split; [exact Hparse|].
  split; [reflexivity|]. split; [reflexivity|].
  apply (@chunk_first_success model_stdlib examples.not_found_then_partial
           None examples.ranged_downloader examples.second_chunk 500 2
           10%nat 1%nat (examples.get_response 206) Hbudget).
  - vm_compute. reflexivity.
  - now left.
  - lia.
  - intros [|j] Hj; [reflexivity | lia].
  - reflexivity.
  - reflexivity.
  - simpl. lia.
Defined.

Lemma budget_exhausted_witness :
  0 <= 2 < max_int64 /\
  @url_Parse model_stdlib examples.file_url = Ok parsed_file_url /\
  ste.supportsRange examples.ranged_downloader = true /\
  exists tr : list ste.Event,
    @ste.downloadChunk model_stdlib examples.unreachable None
      examples.ranged_downloader examples.second_chunk 500 2 10%nat = Some tr /\
    Z.of_nat (ste.attempts tr) = 2 + 1 /\
    enqueued tr = [] /\
    ste.failures tr = [("Downloading response body", "connection refused")].
Proof.
  assert (Hbudget : 0 <= 2 < max_int64) by (unfold max_int64; lia).
  assert (Hparse :
    @url_Parse model_stdlib examples.file_url = Ok parsed_file_url)
    by (vm_compute; reflexivity).
  split; [exact Hbudget|]. split; [exact Hparse|]. split; [reflexivity|].
  apply (@chunk_budget_exhausted model_stdlib examples.unreachable
           None examples.ranged_downloader examples.second_chunk 500 2
           10%nat Hbudget).
  - vm_compute. reflexivity.
  - now left.
  - intros j _. reflexivity.
  - simpl. lia.
Defined.

Lemma closes_every_body_witness :
  exists tr : list ste.Event,
    @ste.downloadChunk model_stdlib examples.not_found_then_partial None
      examples.ranged_downloader examples.second_chunk 500 2 10%nat = Some tr /\
    (responses examples.not_found_then_partial 0 tr <= closes tr)%nat.
Proof.
  destruct (@ste.downloadChunk model_stdlib examples.not_found_then_partial
              None examples.ranged_downloader examples.second_chunk 500 2
              10%nat) as [tr|] eqn:Hrun; [|vm_compute in Hrun; discriminate].
  exists tr. split; [reflexivity|].
  exact (proj1 (proj1 (@chunk_closes_every_body model_stdlib
                         examples.not_found_then_partial None
                         examples.ranged_downloader examples.second_chunk
                         500 2 10%nat tr Hrun))).
Defined.

Lemma probes_with_token_witness :
  examples.always examples.ranged_1000 (head_request examples.file_url "") =
  anonymous_only (head_request examples.file_url "") /\
  @cmd.newHTTPTraverser model_stdlib (examples.always examples.ranged_1000)
    examples.file_url "" =
  @cmd.newHTTPTraverser model_stdlib anonymous_only examples.file_url "".
Proof.
  assert (Hsame :
    examples.always examples.ranged_1000 (head_request examples.file_url "") =
    anonymous_only (head_request examples.file_url ""))
    by reflexivity.
  split; [exact Hsame|].
  exact (@traverser_probes_with_token model_stdlib _ _ examples.file_url ""
           Hsame).
Defined.

Lemma construction_errors_witness :
  @common.NewHTTPURLParts model_stdlib examples.file_url = Ok file_parts /\
  http.StatusCode (examples.get_response 404) <> 200 /\
  @cmd.newHTTPTraverser model_stdlib
    (examples.always (examples.get_response 404)) examples.file_url "" =
  Err ("failed to detect HTTP capabilities: " +:+
       "HEAD request returned status " +:+
       itoa (http.StatusCode (examples.get_response 404)) +:+ ": " +:+
       http.Status (examples.get_response 404)).
Proof.
  assert (Hparts :
    @common.NewHTTPURLParts model_stdlib examples.file_url = Ok file_parts)
    by (vm_compute; reflexivity).
  assert (Hstatus : http.StatusCode (examples.get_response 404) <> 200)
    by (simpl; lia).
  split; [exact Hparts|]. split; [exact Hstatus|].
  exact (proj2 (proj2 (@traverser_construction_errors model_stdlib
                         (examples.always (examples.get_response 404))
                         examples.file_url ""))
           file_parts (examples.get_response 404) Hparts eq_refl Hstatus).
Defined.

Lemma headers_never_fail_witness :
  @common.NewHTTPURLParts model_stdlib examples.file_url = Ok file_parts /\
  http.StatusCode examples.malformed_length = 200 /\
  exists t : cmd.httpTraverser,
    @cmd.newHTTPTraverser model_stdlib
      (examples.always examples.malformed_length) examples.file_url "secret"
    = Ok t /\
    cmd.rawURL t = examples.file_url /\
    cmd.bearerToken t = "secret".
Proof.
  assert (Hparts :
    @common.NewHTTPURLParts model_stdlib examples.file_url = Ok file_parts)
    by (vm_compute; reflexivity).
  split; [exact Hparts|]. split; [reflexivity|].
  destruct (@traverser_headers_never_fail model_stdlib
              (examples.always examples.malformed_length) examples.file_url
              "secret" file_parts examples.malformed_length Hparts eq_refl
              eq_refl) as (t & Hnew & Hurl & Htoken & _).
  exists t. split; [exact Hnew|]. split; [exact Hurl | exact Htoken].
Defined.

Lemma filters_then_processes_witness :
  exists object : cmd.StoredObject,
    cmd.size object = 1000 /\
    forall processor : cmd.StoredObject -> option error,
      @cmd.Traverse model_stdlib probed_traverser None processor
        [{| cmd.DoesSupportThisOS := false;
            cmd.DoesPass := fun _ => false |}] =
      match processor object with
      | None =>
          (Ok tt, [cmd.Processed object; cmd.EnumerationCounted cmd.File])
      | Some err =>
          (Err ("failed to process HTTP file: " +:+ err),
           [cmd.Processed object])
      end.
Proof.
  destruct (@Traverse_filters_then_processes model_stdlib probed_traverser
              None) as (object & Hfields & Hrun).
  exists object. split; [exact (proj1 (proj2 (Hfields eq_refl)))|].
  intros processor. apply (Hrun processor).
  intros Hex. inversion Hex as [? ? [Hos _]|? ? Hrest]; subst.
  - discriminate Hos.
  - inversion Hrest.
Defined.

Lemma prologue_probe_witness :
  examples.always examples.ranged_1000
    {| http.Method := "HEAD"; http.URL := ste.Source examples.transfer_1000;
       http.ReqHeader := ∅ |} =
  anonymous_only
    {| http.Method := "HEAD"; http.URL := ste.Source examples.transfer_1000;
       http.ReqHeader := ∅ |} /\
  @ste.Prologue model_stdlib (examples.always examples.ranged_1000)
    examples.transfer_1000 (ste.newHTTPDownloader examples.transfer_1000) =
  @ste.Prologue model_stdlib anonymous_only
    examples.transfer_1000 (ste.newHTTPDownloader examples.transfer_1000).
Proof.
  split; [reflexivity|].
  exact (proj2 (@Prologue_probes_once model_stdlib
                  (examples.always examples.ranged_1000) anonymous_only
                  examples.transfer_1000) eq_refl).
Defined.

Lemma prologue_failed_probe_witness :
  is_Err (@ste.detectCapabilities model_stdlib
            (fun _ => http.DoErr "connection refused")
            (ste.newHTTPDownloader examples.transfer_1000)) = true /\
  exists tr : list ste.Event,
    @ste.Prologue model_stdlib (fun _ => http.DoErr "connection refused")
      examples.transfer_1000 (ste.newHTTPDownloader examples.transfer_1000) =
    (ste.newHTTPDownloader examples.transfer_1000, tr) /\
    tr <> [].
Proof.
  assert (Hfails :
    is_Err (@ste.detectCapabilities model_stdlib
              (fun _ => http.DoErr "connection refused")
              (ste.newHTTPDownloader examples.transfer_1000)) = true)
    by (vm_compute; reflexivity).
  split; [exact Hfails|].
  pose proof (@Prologue_outcome model_stdlib
                (fun _ => http.DoErr "connection refused")
                examples.transfer_1000
                (ste.newHTTPDownloader examples.transfer_1000)) as Hout.
  destruct (@ste.Prologue model_stdlib
              (fun _ => http.DoErr "connection refused")
              examples.transfer_1000
              (ste.newHTTPDownloader examples.transfer_1000)) as [hd' tr].
  destruct Hout as (_ & _ & _ & Hsame & _).
  destruct (Hsame Hfails) as [-> Htr].
  exists tr. split; [reflexivity | exact Htr].
Defined.

Lemma enumerated_transfer_witness :
  @cmd.newHTTPTraverser model_stdlib (examples.always examples.ranged_1000)
    examples.file_url "" = Ok probed_traverser /\
  strconv.ParseInt
    (http.Get (http.RespHeader examples.ranged_1000) "Content-Length")
  = Ok (http.ContentLength examples.ranged_1000) /\
  exists hd' : ste.httpDownloader,
    @ste.Prologue model_stdlib (examples.always examples.ranged_1000)
      examples.transfer_1000 (ste.newHTTPDownloader examples.transfer_1000)
    = (hd', []) /\
    ste.supportsRange hd' = true /\
    ste.contentLength hd' = 1000.
Proof.
  assert (Hnew :
    @cmd.newHTTPTraverser model_stdlib (examples.always examples.ranged_1000)
      examples.file_url "" = Ok probed_traverser)
    by (vm_compute; reflexivity).
  assert (Hlen :
    strconv.ParseInt
      (http.Get (http.RespHeader examples.ranged_1000) "Content-Length")
    = Ok (http.ContentLength examples.ranged_1000))
    by (vm_compute; reflexivity).
  split; [exact Hnew|]. split; [exact Hlen|].
  destruct (@enumerated_transfer_passes_prologue model_stdlib
              (examples.always examples.ranged_1000) examples.file_url ""
              probed_traverser examples.ranged_1000 Hnew eq_refl eq_refl
              (fun _ => Hlen))
    as (hd' & Hrun & Hrange & _ & _ & Hsize).
  exists hd'. split; [exact Hrun|]. split; [exact Hrange|].
  apply Hsize. simpl. lia.
Defined.

Lemma decomposed_url_witness :
  @common.NewHTTPURLParts model_stdlib examples.file_url = Ok file_parts /\
  common.String file_parts = examples.file_url /\
  common.IsSecure file_parts = true.
Proof.
  assert (Hparts :
    @common.NewHTTPURLParts model_stdlib examples.file_url = Ok file_parts)
    by (vm_compute; reflexivity).
  split; [exact Hparts|].
  destruct (@decomposed_url_invariant model_stdlib examples.file_url
              file_parts Hparts) as (_ & Hstring & Hsecure & _).
  split; [exact Hstring | apply Hsecure; reflexivity].
Defined.

Lemma serves_chunk_witness :
  authorized open_server (ste.bearerToken examples.ranged_downloader) /\
  Z.of_nat (length ten_bytes) <= max_int64 /\
  ste.OffsetInFile third_byte_chunk + 3 <= max_int64 /\
  e2etest.body
    (e2etest.handler no_sum no_encoding ten_bytes open_server
       (chunk_request examples.ranged_downloader third_byte_chunk 3))
  = String.list_byte_of_string "234".
Proof.
  assert (Hauth :
    authorized open_server (ste.bearerToken examples.ranged_downloader))
    by (left; reflexivity).
  assert (Hlen : Z.of_nat (length ten_bytes) <= max_int64)
    by (vm_compute; discriminate).
  assert (Hend : ste.OffsetInFile third_byte_chunk + 3 <= max_int64)
    by (vm_compute; discriminate).
  split; [exact Hauth|]. split; [exact Hlen|]. split; [exact Hend|].
  pose proof (server_serves_chunk no_sum no_encoding ten_bytes open_server
                examples.ranged_downloader third_byte_chunk 3
                eq_refl eq_refl eq_refl Hauth Hlen ltac:(simpl; lia)
                ltac:(lia) Hend) as [_ Hserved].
  change (ste.OffsetInFile third_byte_chunk <? Z.of_nat (length ten_bytes))
    with true in Hserved.
  destruct Hserved as (_ & Hbody & _). exact Hbody.
Defined.

Lemma reads_server_witness :
  @common.NewHTTPURLParts model_stdlib examples.file_url = Ok file_parts /\
  authorized open_server "" /\
  exists t : cmd.httpTraverser,
    @cmd.newHTTPTraverser model_stdlib
      (relay (e2etest.handler no_sum no_encoding ten_bytes open_server))
      examples.file_url "" = Ok t /\
    cmd.contentLength t = 10 /\
    cmd.supportsRange t = true.
Proof.
  assert (Hparts :
    @common.NewHTTPURLParts model_stdlib examples.file_url = Ok file_parts)
    by (vm_compute; reflexivity).
  assert (Hauth : authorized open_server "") by (left; reflexivity).
  split; [exact Hparts|]. split; [exact Hauth|].
  destruct (relay (e2etest.handler no_sum no_encoding ten_bytes open_server)
              (head_request examples.file_url "")) as [e|resp] eqn:Hdo;
    [vm_compute in Hdo; discriminate|].
  assert (Hshows :
    shows resp (e2etest.handler no_sum no_encoding ten_bytes open_server
                  (head_request examples.file_url ""))).
  { vm_compute in Hdo. injection Hdo as <-.
    split; [reflexivity|]. repeat constructor. }
  destruct (proj1 (@traverser_reads_server model_stdlib no_sum no_encoding
                     _ ten_bytes open_server examples.file_url ""
                     file_parts resp Hparts Hdo Hshows
                     ltac:(vm_compute; discriminate))
              Hauth eq_refl) as (t & Hnew & Hsize & Hranges & _).
  exists t. split; [exact Hnew|]. split; [exact Hsize | exact Hranges].
Defined.

Lemma serves_whole_file_witness :
  authorized open_server (ste.bearerToken examples.unranged_downloader) /\
  e2etest.body
    (e2etest.handler no_sum no_encoding ten_bytes open_server
       (chunk_request examples.unranged_downloader examples.first_chunk 500))
  = ten_bytes.
Proof.
  assert (Hauth :
    authorized open_server (ste.bearerToken examples.unranged_downloader))
    by (left; reflexivity).
  split; [exact Hauth|].
  exact (proj1 (proj2 (proj2
           (server_serves_whole_file no_sum no_encoding ten_bytes open_server
              examples.unranged_downloader examples.first_chunk 500
              (or_introl eq_refl) eq_refl Hauth)))).
Defined.

Lemma reassembles_witness :
  authorized open_server (ste.bearerToken examples.ranged_downloader) /\
  Z.of_nat (length ten_bytes) <= Z.of_nat 3 * 4 <= max_int64 /\
  concat
    ((fun k : nat =>
        e2etest.body
          (e2etest.handler no_sum no_encoding ten_bytes open_server
             (chunk_request examples.ranged_downloader
                {| ste.Name := "data.bin";
                   ste.OffsetInFile := Z.of_nat k * 4 |} 4)))
     <$> seq 0 3) = ten_bytes.
Proof.
  assert (Hauth :
    authorized open_server (ste.bearerToken examples.ranged_downloader))
    by (left; reflexivity).
  assert (Hcover : Z.of_nat (length ten_bytes) <= Z.of_nat 3 * 4 <= max_int64)
    by (split; vm_compute; discriminate).
  split; [exact Hauth|]. split; [exact Hcover|].
  exact (segmented_download_reassembles no_sum no_encoding ten_bytes
           open_server examples.ranged_downloader "data.bin" 4 3%nat
           eq_refl eq_refl eq_refl Hauth ltac:(lia) Hcover).
Defined.

Lemma nil_dereference_witness :
  -1 < max_int64 /\
  exists tr : list ste.Event,
    @ste.downloadChunk model_stdlib examples.unreachable None
      examples.ranged_downloader examples.second_chunk 500 (-1) 10%nat
    = Some tr /\
    panicked tr = true /\
    ste.attempts tr = 0%nat.
Proof.
  assert (Hmax : -1 < max_int64) by (unfold max_int64; lia).
  split; [exact Hmax|].
  destruct (@ste.downloadChunk model_stdlib examples.unreachable
              None examples.ranged_downloader examples.second_chunk 500 (-1)
              10%nat) as [tr|] eqn:Hrun; [|vm_compute in Hrun; discriminate].
  exists tr. split; [reflexivity|].
  destruct (@chunk_nil_dereference model_stdlib examples.unreachable None
              examples.ranged_downloader examples.second_chunk 500 (-1)
              10%nat tr Hmax Hrun) as [Hiff Hnone].
  split.
  - apply Hiff. split; [lia|]. split; [vm_compute; reflexivity|].
    left. reflexivity.
  - apply Hnone. lia.
Defined.

Lemma failure_places_witness :
  0 <= 2 < max_int64 /\
  exists tr : list ste.Event,
    @ste.downloadChunk model_stdlib examples.always_not_found None
      examples.ranged_downloader examples.second_chunk 500 2 10%nat = Some tr /\
    ~ In "Creating HTTP request for retry" (fst <$> ste.failures tr).
Proof.
  assert (Hbudget : 0 <= 2 < max_int64) by (unfold max_int64; lia).
  split; [exact Hbudget|].
  destruct (@ste.downloadChunk model_stdlib examples.always_not_found
              None examples.ranged_downloader examples.second_chunk 500 2
              10%nat) as [tr|] eqn:Hrun; [|vm_compute in Hrun; discriminate].
  exists tr. split; [reflexivity|].
  exact (proj2 (@chunk_failure_places model_stdlib examples.always_not_found
                  None examples.ranged_downloader examples.second_chunk 500 2
                  10%nat tr Hbudget Hrun)).
Defined.
